(** * awsconfigfile: the merge of SSO profiles into an AWS config document

    A shallow embedding of [src/awscfg.go] (the [Merge] of lines 330-565 and
    the types it uses, and the earlier [Merge] of lines 111-206 that the file
    also holds) and the properties of the merge that the specification
    states, followed by further properties of the code.

    What is embedded from the source: the profile types and their [ToIni]
    renderings, [normalizeAccountName], and [Merge] statement by statement,
    with the document and the log threaded as explicit state.

    What [Merge] calls but the repository does not contain:
    - [gopkg.in/ini.v1], the document. It is modelled by its data (an ordered
      list of named sections, each an ordered list of keys with values) and by
      the contract of the calls [Merge] makes, for a file loaded with the
      default options: section names and key names are case sensitive and
      unique, and the child section delimiter is the dot. A key that a
      section does not hold is looked up in its parent sections: the sections
      named by the name of the section cut at its last dot, then at the dot
      before, and so on ([profile team.dev] inherits from [profile team]).
      [HasKey], [Key] and [ReflectFrom] all go through this look-up, so that
      [ReflectFrom] assigns a key that a parent holds in the parent.
    - [text/template] with the sprig functions, and [regexp2]: both are
      parameters of the development ([TemplateEngine], [RegexEngine]); the
      general theorems hold for every engine. Closed examples use two small
      engines that implement a fragment of each (field actions and literal
      text; literal patterns).
    - [clio], the logger: the lines logged at the levels Info and Warn are
      collected in order; Debug traces depend on a process-wide level and are
      left out. *)

From Stdlib Require Import String Ascii List Bool Lia.
From stdpp Require Import base list strings gmap sorting.

(** ** Strings *)

(** [strings.ReplaceAll(accountName, " ", "-")] *)
Fixpoint normalizeAccountName (accountName : string) : string :=
  match accountName with
  | EmptyString => EmptyString
  | String c rest =>
      String (if decide (c = " "%char) then "-"%char else c)
             (normalizeAccountName rest)
  end.

(** [strings.Join] *)
Definition strings_Join (elems : list string) (sep : string) : string :=
  String.concat sep elems.

(** Go compares strings byte by byte: [a < b]. *)
Definition string_lt (a b : string) : bool := String.ltb a b.

(** ** The document (gopkg.in/ini.v1, default load options) *)

(** A section: its name and its keys in order. A file: its sections in
    order. *)
Abbreviation IniSection := (string * list (string * string))%type.
Abbreviation File := (list IniSection).

Definition DefaultSection : string := "DEFAULT".

(** The library reads the empty section name as the default section. *)
Definition section_key (name : string) : string :=
  if decide (name = "") then DefaultSection else name.

(** [File.Sections]: a snapshot of the sections, in document order. *)
Definition Sections (f : File) : list IniSection := f.

(** [Section.Name] *)
Definition Name (sec : IniSection) : string := sec.1.

(** The keys a section holds itself: [s.keys[name]]. *)
Definition own_key (sec : IniSection) (name : string) : option string :=
  snd <$> find (λ kv, bool_decide (kv.1 = name)) sec.2.

(** [File.GetSection]: [None] stands for the error "section does not exist". *)
Definition GetSection (f : File) (name : string) : option IniSection :=
  find (λ sec, bool_decide (sec.1 = section_key name)) f.

(** [File.DeleteSection] *)
Definition DeleteSection (f : File) (name : string) : File :=
  filter (λ sec, sec.1 ≠ section_key name) f.

(** [File.NewSection]: [None] stands for the error "empty section name"; a
    name already present gives back the existing section; a new section is
    appended. *)
Definition NewSection (f : File) (name : string) : option File :=
  if decide (name = "") then None
  else match GetSection f name with
       | Some _ => Some f
       | None => Some (f ++ [(name, [])])
       end.

(** Storing back a section obtained from the file (the sections are shared
    objects in Go: a change made through a section pointer is seen in the
    file). The pointer is the section [GetSection] finds under the name. *)
Fixpoint SetSection (f : File) (sec : IniSection) : File :=
  match f with
  | [] => []
  | old :: rest =>
      if decide (old.1 = sec.1) then sec :: rest
      else old :: SetSection rest sec
  end.

(** Assigning a key: an existing key keeps its place, a new one is appended. *)
Fixpoint set_key (keys : list (string * string)) (name val : string)
  : list (string * string) :=
  match keys with
  | [] => [(name, val)]
  | kv :: rest =>
      if decide (kv.1 = name) then (name, val) :: rest
      else kv :: set_key rest name val
  end.

(** [sname[:strings.LastIndex(sname, ".")]]: the name up to its last
    delimiter; [None] when the name has no delimiter. *)
Fixpoint cut_at_last_delimiter (sname : string) : option string :=
  match sname with
  | EmptyString => None
  | String c rest =>
      match cut_at_last_delimiter rest with
      | Some p => Some (String c p)
      | None => if decide (c = "."%char) then Some EmptyString else None
      end
  end.

(** The names the loop of [Section.GetKey] goes through, one cut each time:
    the parents of a section name, the nearest first. Each cut shortens the
    name, so the length of the name bounds their number. *)
Fixpoint parents_upto (n : nat) (sname : string) : list string :=
  match n with
  | 0 => []
  | S n =>
      match cut_at_last_delimiter sname with
      | Some p => p :: parents_upto n p
      | None => []
      end
  end.

Definition parents (sname : string) : list string :=
  parents_upto (String.length sname) sname.

(** The look-up of a key in the parents: a name without a section is passed
    over ([continue]); the first parent found answers with its own key or,
    when it does not hold the key, with the look-up in its own parents, which
    are the names that follow. The answer is the name of the section that
    holds the key, and the value. *)
Fixpoint GetKey_in (f : File) (snames : list string) (name : string)
  : option (string * string) :=
  match snames with
  | [] => None
  | sname :: rest =>
      match GetSection f sname with
      | None => GetKey_in f rest name
      | Some sec =>
          match own_key sec name with
          | Some v => Some (Name sec, v)
          | None => GetKey_in f rest name
          end
      end
  end.

(** [Section.GetKey]: the key of the section itself, else the key found in
    its parents; [None] stands for the error "key not exists". The section
    may be a section obtained from the file earlier (as in a loop over
    [Sections]); the parents are looked up in the file as it is now. *)
Definition GetKey (f : File) (sec : IniSection) (name : string)
  : option (string * string) :=
  match own_key sec name with
  | Some v => Some (Name sec, v)
  | None => GetKey_in f (parents (Name sec)) name
  end.

(** [Section.HasKey] *)
Definition HasKey (f : File) (sec : IniSection) (name : string) : bool :=
  match GetKey f sec name with Some _ => true | None => false end.

(** [Section.Key(name)] followed by [String()]: the value of the key found; a
    key that is not found is created in the section with the empty value, so
    the file is returned too. *)
Definition Key (f : File) (sec : IniSection) (name : string) : string * File :=
  match GetKey f sec name with
  | Some (_, v) => (v, f)
  | None => ("", SetSection f (sec.1, sec.2 ++ [(name, "")]))
  end.

(** [Key.SetValue] on a key held by the section of a name. *)
Definition set_value (f : File) (holder name val : string) : File :=
  match GetSection f holder with
  | Some sec => SetSection f (sec.1, set_key sec.2 name val)
  | None => f
  end.

(** ** Profiles *)

Module Session.
Record SSOSession := {
  SSOSessionName : string;
  SSOStartURL : string;
  SSORegistrationScopes : string;
  SSORegion : string;
  GeneratedFrom : string
}.
End Session.
Export Session (SSOSession).

Record AccountProfile := {
  AccountName : string;
  SSOSessionName : string;
  AccountID : string;
  RoleName : string;
  GeneratedFrom : string;
  Region : string;
  CommonFateURL : string;
  SSOStartURL : string;
  SSORegion : string
}.

(** The three private structs that [ToIni] returns, with the [ini] tag of
    each field: the key name and whether the field is [omitempty]. *)
Inductive IniEntry :=
| ssoSession (SSOStartURL SSORegistrationScopes SSORegion
              CommonFateGeneratedFrom : string)
| credentialProcessProfile (SSOStartURL SSORegion AccountID RoleName
              CommonFateGeneratedFrom CredentialProcess Region : string)
| regularProfile (SSOSession AccountID CommonFateGeneratedFrom RoleName
              Region : string).

Record IniField := {
  f_key : string;
  f_omitempty : bool;
  f_value : string
}.

Definition ini_fields (entry : IniEntry) : list IniField :=
  match entry with
  | ssoSession url scopes region gen =>
      [ {| f_key := "sso_start_url"; f_omitempty := false; f_value := url |};
        {| f_key := "sso_registration_scopes"; f_omitempty := false;
           f_value := scopes |};
        {| f_key := "sso_region"; f_omitempty := false; f_value := region |};
        {| f_key := "common_fate_generated_from"; f_omitempty := true;
           f_value := gen |} ]
  | credentialProcessProfile url ssoregion account role gen cp region =>
      [ {| f_key := "granted_sso_start_url"; f_omitempty := false;
           f_value := url |};
        {| f_key := "granted_sso_region"; f_omitempty := true;
           f_value := ssoregion |};
        {| f_key := "granted_sso_account_id"; f_omitempty := false;
           f_value := account |};
        {| f_key := "granted_sso_role_name"; f_omitempty := false;
           f_value := role |};
        {| f_key := "common_fate_generated_from"; f_omitempty := false;
           f_value := gen |};
        {| f_key := "credential_process"; f_omitempty := false;
           f_value := cp |};
        {| f_key := "region"; f_omitempty := true; f_value := region |} ]
  | regularProfile session account gen role region =>
      [ {| f_key := "sso_session"; f_omitempty := false; f_value := session |};
        {| f_key := "sso_account_id"; f_omitempty := false;
           f_value := account |};
        {| f_key := "common_fate_generated_from"; f_omitempty := false;
           f_value := gen |};
        {| f_key := "sso_role_name"; f_omitempty := false; f_value := role |};
        {| f_key := "region"; f_omitempty := true; f_value := region |} ]
  end.

(** [Section.ReflectFrom] on the section of a name, the fields in declaration
    order; an [omitempty] field holding the empty string is passed over. For
    each other field the library calls [GetKey] on the section and sets the
    value of the key it finds; only when no key is found, in the section or
    in a parent, it creates the key in the section. *)
Definition reflect_field_in (sectionName : string) (f : File) (fld : IniField)
  : File :=
  if f_omitempty fld && bool_decide (f_value fld = "") then f
  else
    match GetSection f sectionName with
    | None => f
    | Some sec =>
        match GetKey f sec (f_key fld) with
        | Some (holder, _) => set_value f holder (f_key fld) (f_value fld)
        | None => SetSection f (sec.1, sec.2 ++ [(f_key fld, f_value fld)])
        end
    end.

Definition ReflectFrom (f : File) (sectionName : string) (entry : IniEntry)
  : File :=
  foldl (reflect_field_in sectionName) f (ini_fields entry).

(** What [ReflectFrom] does to the keys of a section when no parent is
    involved: an existing key is assigned, a new one is appended. *)
Definition reflect_field (keys : list (string * string)) (fld : IniField)
  : list (string * string) :=
  if f_omitempty fld && bool_decide (f_value fld = "") then keys
  else set_key keys (f_key fld) (f_value fld).

(** The method [ToIni] of [SSOSession]. *)
Definition SSOSession_ToIni (s : SSOSession) (profileName : string)
    (nocredentialProcessProfile : bool) : IniEntry :=
  ssoSession (Session.SSOStartURL s) (Session.SSORegistrationScopes s)
             (Session.SSORegion s) (Session.GeneratedFrom s).

(** The method [ToIni] of [AccountProfile]. *)
Definition AccountProfile_ToIni (a : AccountProfile) (profileName : string)
    (noCredentialProcess : bool) : IniEntry :=
  if noCredentialProcess then
    regularProfile (SSOSessionName a) (AccountID a) (GeneratedFrom a)
                   (RoleName a) (Region a)
  else
    let credProcess := "granted credential-process --profile " +:+ profileName in
    let credProcess :=
      if decide (CommonFateURL a ≠ "")
      then credProcess +:+ " --url " +:+ CommonFateURL a
      else credProcess in
    credentialProcessProfile (SSOStartURL a) (SSORegion a) (AccountID a)
                             (RoleName a) (GeneratedFrom a) credProcess
                             (Region a).

(** The interface [SSOProfile]: the two types of the package that implement
    it, and any other value the caller may put in the list. *)
Inductive SSOProfile :=
| PSSOSession (p : SSOSession)
| PAccountProfile (p : AccountProfile)
| POther.

Record MergeOpts := {
  Config : File;
  Prefix : string;
  Profiles : list SSOProfile;
  SectionNameTemplate : string;
  NoCredentialProcess : bool;
  PruneStartURLs : list string;
  SessionName : string;
  SSOScopes : list string;
  PreferRoles : list string;
  Verbose : bool;
  DefaultRegion : string
}.

(** ** The engines Merge is given *)

(** [template.New("").Funcs(funcMap).Parse] and [Template.Execute] on an
    [AccountProfile]; [None] is the error of either. *)
Class TemplateEngine := {
  Template : Type;
  template_Parse : string → option Template;
  template_Execute : Template → AccountProfile → option string
}.

(** [regexp2.Compile(pattern, 0)] and [Regexp.MatchString]; [None] is the
    compile error, for which [Compile] returns a nil pointer. *)
Class RegexEngine := {
  Regexp : Type;
  regexp2_Compile : string → option Regexp;
  MatchString : Regexp → string → bool
}.

(** ** State and results *)

Inductive error :=
| ErrTemplateParse
| ErrTemplateExecute
| ErrEmptySectionName
| ErrSectionNotExist (name : string).

Inductive Level := INFO | WARN.

(** What a run acts on: the document (changed in place in Go) and the lines
    logged so far. *)
Record World := {
  wConfig : File;
  wLog : list (Level * string)
}.

(** How a computation ends: normally, by returning an error, or by a run-time
    panic. *)
Inductive Res (A : Type) :=
| Ok (a : A)
| Err (e : error)
| Panicked.
Arguments Ok {A} a.
Arguments Err {A} e.
Arguments Panicked {A}.

Definition M (A : Type) : Type := World → World * Res A.

#[export] Instance M_ret : MRet M := λ A a w, (w, Ok a).

#[export] Instance M_bind : MBind M := λ A B f m w,
  match m w with
  | (w', Ok a) => f a w'
  | (w', Err e) => (w', Err e)
  | (w', Panicked) => (w', Panicked)
  end.

Definition fail {A} (e : error) : M A := λ w, (w, Err e).
Definition panic {A} : M A := λ w, (w, Panicked).
Definition get_config : M File := λ w, (w, Ok (wConfig w)).
Definition put_config (f : File) : M unit :=
  λ w, ({| wConfig := f; wLog := wLog w |}, Ok tt).
Definition logf (lvl : Level) (msg : string) : M unit :=
  λ w, ({| wConfig := wConfig w; wLog := wLog w ++ [(lvl, msg)] |}, Ok tt).

(** A [for ... range] loop whose body may return from the function. *)
Fixpoint for_range {A} (body : A → M unit) (l : list A) : M unit :=
  match l with
  | [] => mret tt
  | x :: rest => body x ;; for_range body rest
  end.

(** The same with variables carried from one iteration to the next. *)
Fixpoint for_range_with {S A} (body : S → A → M S) (vars : S) (l : list A)
  : M S :=
  match l with
  | [] => mret vars
  | x :: rest => vars' ← body vars x; for_range_with body vars' rest
  end.

(** The same when the body also updates the element it visits (the slice holds
    pointers): the updated elements are collected. *)
Fixpoint for_range_update {S A} (body : S → A → M (S * A)) (vars : S)
    (l : list A) : M (S * list A) :=
  match l with
  | [] => mret (vars, [])
  | x :: rest =>
      '(vars', x') ← body vars x;
      '(vars'', rest') ← for_range_update body vars' rest;
      mret (vars'', x' :: rest')
  end.

(** ** Sorting *)

(** [sort.SliceStable]: a stable sort by [less]; an element is inserted before
    the first element it is not greater than, so that equal elements stay in
    their order. *)
Fixpoint stable_insert {A} (less : A → A → bool) (x : A) (l : list A) : list A :=
  match l with
  | [] => [x]
  | y :: rest =>
      if less y x then y :: stable_insert less x rest else x :: y :: rest
  end.

Definition SliceStable {A} (less : A → A → bool) (l : list A) : list A :=
  foldr (stable_insert less) [] l.

(** [slices.Sort] on strings. *)
Definition slices_Sort (l : list string) : list string :=
  merge_sort String.le l.

(** [slices.Compact]: runs of equal elements are replaced by one. *)
Fixpoint slices_Compact (l : list string) : list string :=
  match l with
  | [] => []
  | x :: rest =>
      match rest with
      | [] => [x]
      | y :: _ =>
          if decide (x = y) then slices_Compact rest
          else x :: slices_Compact rest
      end
  end.

(** [seenProfileNames[i] == seenProfileNames[i-1]], for [i] from 1: the
    elements equal to their predecessor. *)
Fixpoint adjacent_dupes (l : list string) : list string :=
  match l with
  | [] => []
  | x :: rest =>
      match rest with
      | [] => []
      | y :: _ =>
          if decide (y = x) then y :: adjacent_dupes rest
          else adjacent_dupes rest
      end
  end.

(** ** Assignments to the fields of an account profile *)

Definition set_AccountName (a : AccountProfile) (v : string) : AccountProfile :=
  {| AccountName := v; SSOSessionName := SSOSessionName a;
     AccountID := AccountID a; RoleName := RoleName a;
     GeneratedFrom := GeneratedFrom a; Region := Region a;
     CommonFateURL := CommonFateURL a; SSOStartURL := SSOStartURL a;
     SSORegion := SSORegion a |}.

Definition set_SSOSessionName (a : AccountProfile) (v : string)
  : AccountProfile :=
  {| AccountName := AccountName a; SSOSessionName := v;
     AccountID := AccountID a; RoleName := RoleName a;
     GeneratedFrom := GeneratedFrom a; Region := Region a;
     CommonFateURL := CommonFateURL a; SSOStartURL := SSOStartURL a;
     SSORegion := SSORegion a |}.

Definition set_Region (a : AccountProfile) (v : string) : AccountProfile :=
  {| AccountName := AccountName a; SSOSessionName := SSOSessionName a;
     AccountID := AccountID a; RoleName := RoleName a;
     GeneratedFrom := GeneratedFrom a; Region := v;
     CommonFateURL := CommonFateURL a; SSOStartURL := SSOStartURL a;
     SSORegion := SSORegion a |}.

(** ** Merge *)

(** The variables of the loop over the account profiles. *)
Record LoopVars := {
  seenProfileNames : list string;
  profileNameToRoles : gmap string (list string)
}.

(** The key the profiles are sorted by (lines 356-358). *)
Definition combinedName (a : AccountProfile) : string :=
  AccountName a +:+ "/" +:+ RoleName a.

Definition combinedName_less (a b : AccountProfile) : bool :=
  string_lt (combinedName a) (combinedName b).

(** Lines 342-351: the type switch over [opts.Profiles]. [None] is the
    [return nil] of the default case. *)
Fixpoint separate (profiles : list SSOProfile) (ssoSessions : list SSOSession)
    (accountProfiles : list AccountProfile)
  : option (list SSOSession * list AccountProfile) :=
  match profiles with
  | [] => Some (ssoSessions, accountProfiles)
  | PSSOSession p :: rest => separate rest (ssoSessions ++ [p]) accountProfiles
  | PAccountProfile p :: rest =>
      separate rest ssoSessions (accountProfiles ++ [p])
  | POther :: _ => None
  end.

(** Lines 369-375. [Key] is called on a key that [HasKey] found, so it
    creates nothing. *)
Definition section_startURL (f : File) (sec : IniSection) : string :=
  if HasKey f sec "granted_sso_start_url"
  then (Key f sec "granted_sso_start_url").1
  else if HasKey f sec "sso_start_url"
  then (Key f sec "sso_start_url").1
  else "".

(** Lines 368-384, the body for one section of the snapshot. The keys are
    looked up in the document as it is when the section is visited. *)
Definition prune_section (pruneStartURLs : list string) (sec : IniSection)
  : M unit :=
  f ← get_config;
  let startURL := section_startURL f sec in
  for_range (λ pruneURL,
    f ← get_config;
    let isGenerated := HasKey f sec "common_fate_generated_from" in
    if isGenerated && bool_decide (startURL = pruneURL)
    then put_config (DeleteSection f (Name sec))
    else mret tt) pruneStartURLs.

Definition prune (pruneStartURLs : list string) : M unit :=
  f ← get_config;
  for_range (prune_section pruneStartURLs) (Sections f).

(** [DeleteSection], [NewSection], [ToIni] and [ReflectFrom] on the section
    obtained (lines 391-400, 440-450 and 530-540). *)
Definition write_section (sectionName : string) (entry : IniEntry) : M unit :=
  f ← get_config;
  let f := DeleteSection f sectionName in
  put_config f ;;
  match NewSection f sectionName with
  | None => fail ErrEmptySectionName
  | Some f => put_config (ReflectFrom f sectionName entry)
  end.

(** Lines 386-401, the body for one session (a copy of the caller's). *)
Definition write_session (opts : MergeOpts) (ssoSession : SSOSession)
  : M unit :=
  let name := normalizeAccountName (Session.SSOSessionName ssoSession) in
  let ssoSession :=
    {| Session.SSOSessionName := name;
       Session.SSOStartURL := Session.SSOStartURL ssoSession;
       Session.SSORegistrationScopes := Session.SSORegistrationScopes ssoSession;
       Session.SSORegion := Session.SSORegion ssoSession;
       Session.GeneratedFrom := Session.GeneratedFrom ssoSession |} in
  let sectionName := "sso-session " +:+ Session.SSOSessionName ssoSession in
  write_section sectionName
    (SSOSession_ToIni ssoSession (Session.SSOSessionName ssoSession)
                      (NoCredentialProcess opts)).

(** Lines 412-457, the body for one account profile. *)
Definition implicit_session (opts : MergeOpts)
    (createdSessions : gmap string bool) (accountProfile : AccountProfile)
  : M (gmap string bool * AccountProfile) :=
  if decide (SSOSessionName accountProfile ≠ "")
  then mret (createdSessions, accountProfile)
  else
    let sessionName := SessionName opts in
    let sessionName :=
      if decide (Prefix opts ≠ "")
      then normalizeAccountName (Prefix opts +:+ sessionName)
      else sessionName in
    if default false (createdSessions !! sessionName)
    then mret (createdSessions, accountProfile)
    else
      let ssoSession :=
        {| Session.SSORegistrationScopes := strings_Join (SSOScopes opts) " ";
           Session.SSOSessionName := sessionName;
           Session.SSOStartURL := SSOStartURL accountProfile;
           Session.SSORegion := SSORegion accountProfile;
           Session.GeneratedFrom := GeneratedFrom accountProfile |} in
      let sectionName := "sso-session " +:+ sessionName in
      write_section sectionName
        (SSOSession_ToIni ssoSession sessionName (NoCredentialProcess opts)) ;;
      mret (<[sessionName := true]> createdSessions,
            set_SSOSessionName accountProfile sessionName).

Section WithEngines.
Context {TE : TemplateEngine} {RE : RegexEngine}.

(** Lines 506-521: the loop over [opts.PreferRoles]; the result is
    [shouldOverwrite]. [None] is the panic of calling [MatchString] on the nil
    pointer that [Compile] returns for a pattern it rejects. *)
Fixpoint preferRoles_loop (preferRoles : list string)
    (thisRoleName existingRoleName : string) : option bool :=
  match preferRoles with
  | [] => Some true
  | preferRole :: rest =>
      match regexp2_Compile preferRole with
      | None => None
      | Some r =>
          let matchesThisRole := MatchString r thisRoleName in
          let matchesExistingRole := MatchString r existingRoleName in
          if matchesThisRole && negb matchesExistingRole then Some true
          else if negb matchesThisRole && matchesExistingRole then Some false
          else preferRoles_loop rest thisRoleName existingRoleName
      end
  end.

(** Lines 493-526: what is done for a name already seen when preference
    patterns are given. [None] is the [continue]; [Some true] is
    [isOverwrite = true]. *)
Definition resolve_seen (opts : MergeOpts) (profileName sectionName : string)
    (thisRoleName : string) : M (option bool) :=
  f ← get_config;
  match GetSection f sectionName with
  | None => fail (ErrSectionNotExist sectionName)
  | Some existingSection =>
      existingRoleName ←
        (if HasKey f existingSection "granted_sso_role_name"
         then mret (Key f existingSection "granted_sso_role_name").1
         else
           let '(v, f) := Key f existingSection "sso_role_name" in
           put_config f ;; mret v);
      match preferRoles_loop (PreferRoles opts) thisRoleName existingRoleName
      with
      | None => panic
      | Some shouldOverwrite =>
          if negb shouldOverwrite then
            logf INFO ("Skipping profile " +:+ profileName +:+
              " as it already exists and no prefer roles matched higher than the existing role") ;;
            mret None
          else mret (Some true)
      end
  end.

(** Lines 464-545, the body for one account profile. *)
Definition write_profile (opts : MergeOpts) (sectionNameTempl : Template)
    (ssoSessionName : string) (vars : LoopVars)
    (accountProfile : AccountProfile) : M LoopVars :=
  let accountProfile :=
    set_AccountName accountProfile
      (normalizeAccountName (AccountName accountProfile)) in
  let accountProfile := set_SSOSessionName accountProfile ssoSessionName in
  match template_Execute sectionNameTempl accountProfile with
  | None => fail ErrTemplateExecute
  | Some rendered =>
      let accountProfile :=
        if decide (Region accountProfile = "" ∧ DefaultRegion opts ≠ "")
        then set_Region accountProfile (DefaultRegion opts)
        else accountProfile in
      let profileName := Prefix opts +:+ rendered in
      let sectionName := "profile " +:+ profileName in
      let isSeen := bool_decide (profileName ∈ seenProfileNames vars) in
      decision ←
        (if isSeen && bool_decide (0 < length (PreferRoles opts))
         then resolve_seen opts profileName sectionName (RoleName accountProfile)
         else mret (Some false));
      match decision with
      | None => mret vars
      | Some isOverwrite =>
          write_section sectionName
            (AccountProfile_ToIni accountProfile profileName
                                  (NoCredentialProcess opts)) ;;
          mret (if isOverwrite : bool then vars
                else
                  {| seenProfileNames :=
                       seenProfileNames vars ++ [profileName];
                     profileNameToRoles :=
                       <[profileName :=
                           default [] (profileNameToRoles vars !! profileName)
                           ++ [RoleName accountProfile]]>
                         (profileNameToRoles vars) |})
      end
  end.

(** Lines 546-562. *)
Definition report_duplicates (vars : LoopVars) : M unit :=
  let seenProfileNames := slices_Sort (seenProfileNames vars) in
  let dupes := adjacent_dupes seenProfileNames in
  let dupes := slices_Sort dupes in
  let dupes := slices_Compact dupes in
  if bool_decide (0 < length dupes) then
    logf WARN "Duplicate profile names detected. Only the last result will be used. You may need to manually modify the generated config file to use the correct role:" ;;
    for_range (λ dup,
      let roles := default [] (profileNameToRoles vars !! dup) in
      logf WARN ("Profile " +:+ dup +:+ " has roles: " +:+
                 strings_Join roles ", ")) dupes
  else mret tt.

Definition DefaultSectionNameTemplate : string :=
  "{{ .AccountName }}/{{ .RoleName }}".

(** Lines 386-565: what [Merge] does after the pruning pass. *)
Definition merge_after_prune (opts : MergeOpts) (sectionNameTempl : Template)
    (ssoSessions : list SSOSession) (accountProfiles : list AccountProfile)
  : M unit :=
  for_range (write_session opts) ssoSessions ;;
  '(ssoSessionName, accountProfiles) ←
    (if NoCredentialProcess opts then
       updated ←
         for_range_update (implicit_session opts) ∅ accountProfiles;
       mret (SessionName opts, updated.2)
     else mret ("", accountProfiles));
  vars ← for_range_with (write_profile opts sectionNameTempl ssoSessionName)
           {| seenProfileNames := []; profileNameToRoles := ∅ |}
           accountProfiles;
  report_duplicates vars.

(** [Merge]: the run starts on the caller's document with nothing logged. *)
Definition Merge (opts : MergeOpts) : World * Res unit :=
  let w0 := {| wConfig := Config opts; wLog := [] |} in
  let sectionNameTemplate :=
    if decide (SectionNameTemplate opts = "")
    then DefaultSectionNameTemplate
    else SectionNameTemplate opts in
  match separate (Profiles opts) [] [] with
  | None => (w0, Ok tt)
  | Some (ssoSessions, accountProfiles) =>
      let accountProfiles := SliceStable combinedName_less accountProfiles in
      match template_Parse sectionNameTemplate with
      | None => (w0, Err ErrTemplateParse)
      | Some sectionNameTempl =>
          (prune (PruneStartURLs opts) ;;
           merge_after_prune opts sectionNameTempl ssoSessions accountProfiles)
            w0
      end
  end.

End WithEngines.

(** ** Two small engines for closed examples *)

(** The fragment of [text/template] made of literal text and of actions that
    print one field of the profile, written with or without blanks around the
    field, as in the default template. A template outside the fragment is
    refused by this engine; the examples stay inside it. *)
Module MiniTemplate.

Inductive piece :=
| Text (s : string)
| Field (name : string).

Fixpoint trim_left (s : string) : string :=
  match s with
  | String c rest => if decide (c = " "%char) then trim_left rest else s
  | EmptyString => EmptyString
  end.

Definition trim (s : string) : string :=
  String.rev (trim_left (String.rev (trim_left s))).

Definition field_value (name : string) (a : AccountProfile) : option string :=
  if decide (name = "AccountName") then Some (AccountName a)
  else if decide (name = "SSOSessionName") then Some (SSOSessionName a)
  else if decide (name = "AccountID") then Some (AccountID a)
  else if decide (name = "RoleName") then Some (RoleName a)
  else if decide (name = "GeneratedFrom") then Some (GeneratedFrom a)
  else if decide (name = "Region") then Some (Region a)
  else if decide (name = "CommonFateURL") then Some (CommonFateURL a)
  else if decide (name = "SSOStartURL") then Some (SSOStartURL a)
  else if decide (name = "SSORegion") then Some (SSORegion a)
  else None.

(** The content of an action: a dot and the name of a field. *)
Definition action (body : string) : option piece :=
  match trim body with
  | String c name =>
      if decide (c = "."%char) then
        match field_value name
                {| AccountName := ""; SSOSessionName := ""; AccountID := "";
                   RoleName := ""; GeneratedFrom := ""; Region := "";
                   CommonFateURL := ""; SSOStartURL := ""; SSORegion := "" |}
        with
        | Some _ => Some (Field name)
        | None => None
        end
      else None
  | EmptyString => None
  end.

Definition text (acc : string) : list piece :=
  if decide (acc = "") then [] else [Text acc].

Fixpoint scan (inAction : bool) (acc : string) (s : string)
  : option (list piece) :=
  match s with
  | EmptyString => if inAction then None else Some (text acc)
  | String c s' =>
      match s' with
      | String c' s'' =>
          if negb inAction && bool_decide (c = "{"%char)
             && bool_decide (c' = "{"%char)
          then pieces ← scan true "" s''; Some (text acc ++ pieces)
          else if inAction && bool_decide (c = "}"%char)
                  && bool_decide (c' = "}"%char)
          then p ← action acc; pieces ← scan false "" s''; Some (p :: pieces)
          else scan inAction (acc +:+ String c "") s'
      | EmptyString => scan inAction (acc +:+ String c "") s'
      end
  end.

Definition parse (tmpl : string) : option (list piece) := scan false "" tmpl.

Fixpoint execute (t : list piece) (a : AccountProfile) : option string :=
  match t with
  | [] => Some ""
  | Text s :: rest => out ← execute rest a; Some (s +:+ out)
  | Field name :: rest =>
      v ← field_value name a; out ← execute rest a; Some (v +:+ out)
  end.

#[export] Instance template_engine : TemplateEngine := {|
  Template := list piece;
  template_Parse := parse;
  template_Execute := execute
|}.

End MiniTemplate.

(** The fragment of [regexp2] made of patterns without metacharacters: such a
    pattern matches the strings that contain it. A pattern that begins with a
    quantifier is rejected, as [regexp2] rejects it. *)
Module LiteralRegex.

Fixpoint contains (pattern s : string) : bool :=
  String.prefix pattern s
  || match s with
     | EmptyString => false
     | String _ rest => contains pattern rest
     end.

Definition begins_with_quantifier (pattern : string) : bool :=
  match pattern with
  | String c _ =>
      bool_decide (c = "+"%char) || bool_decide (c = "*"%char)
      || bool_decide (c = "?"%char)
  | EmptyString => false
  end.

#[export] Instance regex_engine : RegexEngine := {|
  Regexp := string;
  regexp2_Compile := λ pattern,
    if begins_with_quantifier pattern then None else Some pattern;
  MatchString := contains
|}.

End LiteralRegex.

(** ** Definitions used to state the properties *)

(** The invariant of the document library: section names are unique and not
    empty. *)
Definition wf_file (f : File) : Prop := NoDup f.*1 ∧ "" ∉ f.*1.

(** The keys [ReflectFrom] gives a fresh section. *)
Definition entry_keys (entry : IniEntry) : list (string * string) :=
  foldl reflect_field [] (ini_fields entry).

(** The document after a section is deleted, created anew and filled (lines
    391-400, 440-450 and 530-540): the new section is the last one, and
    [ReflectFrom] assigns each key where the look-up finds it. *)
Definition written (f : File) (sectionName : string) (entry : IniEntry) : File :=
  ReflectFrom (DeleteSection f sectionName ++ [(sectionName, [])])
              sectionName entry.

(** The same when no parent takes part: the new section gets all the keys. *)
Definition replaced (f : File) (sectionName : string) (entry : IniEntry)
  : File :=
  DeleteSection f sectionName ++ [(sectionName, entry_keys entry)].

(** The section name has no parent section in the document. *)
Definition orphan (f : File) (sectionName : string) : Prop :=
  ∀ p, p ∈ parents sectionName → GetSection f p = None.

(** None of the names about to be written has a parent section, neither in
    the document nor among the names about to be written. *)
Definition no_parents (f : File) (targets : list string) : Prop :=
  ∀ n p, n ∈ targets → p ∈ parents n → section_key p ∉ f.*1 ++ targets.

(** The condition under which the pruning pass deletes a section, in the
    document as it is when the section is visited. *)
Definition should_prune (pruneStartURLs : list string) (f : File)
    (sec : IniSection) : bool :=
  HasKey f sec "common_fate_generated_from"
  && bool_decide (section_startURL f sec ∈ pruneStartURLs).

Definition with_config (w : World) (f : File) : World :=
  {| wConfig := f; wLog := wLog w |}.

Definition with_line (w : World) (lvl : Level) (msg : string) : World :=
  {| wConfig := wConfig w; wLog := wLog w ++ [(lvl, msg)] |}.

(** The pruning pass as the loop runs it: the sections of the snapshot are
    visited in order, and a section that satisfies the condition in the
    document reached so far is deleted by name. *)
Definition pruned_by_name (pruneStartURLs : list string) (f : File) : File :=
  foldl (λ g sec, if should_prune pruneStartURLs g sec
                  then DeleteSection g (Name sec) else g) f f.

(** The role that lines 499-504 read from the section found, and the document
    after the reading: when the look-up finds neither of the two role keys,
    [Key] creates the key sso_role_name in the section, with the empty
    value. *)
Definition existing_role (f : File) (sec : IniSection) : string :=
  if HasKey f sec "granted_sso_role_name"
  then (Key f sec "granted_sso_role_name").1
  else (Key f sec "sso_role_name").1.

Definition after_role_read (f : File) (sec : IniSection) : File :=
  if HasKey f sec "granted_sso_role_name" then f
  else (Key f sec "sso_role_name").2.

(** The role read when the look-up finds one of the two role keys. *)
Definition section_role (f : File) (sec : IniSection) : option string :=
  if HasKey f sec "granted_sso_role_name"
  then Some (Key f sec "granted_sso_role_name").1
  else if HasKey f sec "sso_role_name"
  then Some (Key f sec "sso_role_name").1
  else None.

(** The profile with its account name normalized (line 466). *)
Definition normalized (a : AccountProfile) : AccountProfile :=
  set_AccountName a (normalizeAccountName (AccountName a)).



(** The profile after lines 466-467. *)
Definition prepared (ssoSessionName : string) (a : AccountProfile)
  : AccountProfile :=
  set_SSOSessionName
    (set_AccountName a (normalizeAccountName (AccountName a)))
    ssoSessionName.

(** The profile after lines 474-476. *)
Definition with_default_region (opts : MergeOpts) (a : AccountProfile)
  : AccountProfile :=
  if decide (Region a = "" ∧ DefaultRegion opts ≠ "")
  then set_Region a (DefaultRegion opts)
  else a.

(** What is written for a profile under a profile name. *)
Definition profile_entry (opts : MergeOpts) (ssoSessionName : string)
    (a : AccountProfile) (profileName : string) : IniEntry :=
  AccountProfile_ToIni (with_default_region opts (prepared ssoSessionName a))
                       profileName (NoCredentialProcess opts).

(** Lines 541-544. *)
Definition record_role (vars : LoopVars) (profileName role : string)
  : LoopVars :=
  {| seenProfileNames := seenProfileNames vars ++ [profileName];
     profileNameToRoles :=
       <[profileName :=
           default [] (profileNameToRoles vars !! profileName) ++ [role]]>
         (profileNameToRoles vars) |}.

Definition no_vars : LoopVars :=
  {| seenProfileNames := []; profileNameToRoles := ∅ |}.

(** Every profile name seen so far has a section in the document. *)
Definition seen_present (vars : LoopVars) (f : File) : Prop :=
  ∀ profileName, profileName ∈ seenProfileNames vars →
    "profile " +:+ profileName ∈ f.*1.

(** Every profile name seen so far has its section in the document, as some
    account profile was written under that name. *)
Definition claimed (opts : MergeOpts) (vars : LoopVars) (f : File) : Prop :=
  ∀ profileName, profileName ∈ seenProfileNames vars →
    ∃ a, GetSection f ("profile " +:+ profileName)
         = Some ("profile " +:+ profileName,
                 entry_keys (AccountProfile_ToIni a profileName
                                                  (NoCredentialProcess opts))).

Definition skip_message (profileName : string) : string :=
  "Skipping profile " +:+ profileName +:+
  " as it already exists and no prefer roles matched higher than the existing role".

Definition with_Config (opts : MergeOpts) (f : File) : MergeOpts :=
  {| Config := f; Prefix := Prefix opts; Profiles := Profiles opts;
     SectionNameTemplate := SectionNameTemplate opts;
     NoCredentialProcess := NoCredentialProcess opts;
     PruneStartURLs := PruneStartURLs opts; SessionName := SessionName opts;
     SSOScopes := SSOScopes opts; PreferRoles := PreferRoles opts;
     Verbose := Verbose opts; DefaultRegion := DefaultRegion opts |}.

(** The names of the sections [Merge] writes: the word profile or the word
    sso-session, a blank and a name. *)
Definition target_name (sectionName : string) : Prop :=
  ∃ name, sectionName = "profile " +:+ name
          ∨ sectionName = "sso-session " +:+ name.


(** A result that is not an error of a section operation. *)
Definition no_section_error {A} (r : Res A) : Prop :=
  match r with
  | Err ErrEmptySectionName | Err (ErrSectionNotExist _) => False
  | _ => True
  end.

(** How often a name occurs in a list. *)
Definition occurrences (name : string) (l : list string) : nat :=
  length (filter (λ x, x = name) l).

(** Lines 547-555: the names the report is about. *)
Definition duplicate_names (seenProfileNames : list string) : list string :=
  slices_Compact (slices_Sort (adjacent_dupes (slices_Sort seenProfileNames))).

#[export] Instance Level_eq_dec : EqDecision Level.
Proof. solve_decision. Defined.

(** The lines logged at the level Warn. *)
Definition warnings (log : list (Level * string)) : list string :=
  snd <$> filter (λ line, line.1 = WARN) log.

Definition duplicate_header : string :=
  "Duplicate profile names detected. Only the last result will be used. You may need to manually modify the generated config file to use the correct role:".

Definition duplicate_line (name : string) (roles : list string) : string :=
  "Profile " +:+ name +:+ " has roles: " +:+ strings_Join roles ", ".

Section SpecWithEngines.
Context {TE : TemplateEngine} {RE : RegexEngine}.

(** The profile name of lines 468-478, when the template executes. *)
Definition profileName_of (opts : MergeOpts) (sectionNameTempl : Template)
    (ssoSessionName : string) (a : AccountProfile) : option string :=
  (λ rendered, Prefix opts +:+ rendered)
    <$> template_Execute sectionNameTempl (prepared ssoSessionName a).

(** A pattern matches a string. *)
Definition matches (pattern s : string) : bool :=
  match regexp2_Compile pattern with
  | Some r => MatchString r s
  | None => false
  end.

Definition compiles (pattern : string) : Prop :=
  is_Some (regexp2_Compile pattern).

(** The patterns the loop of lines 506-521 compiles: those up to the first
    one that matches exactly one of the two roles, that one included. *)
Fixpoint consulted (patterns : list string) (thisRole existingRole : string)
  : list string :=
  match patterns with
  | [] => []
  | p :: rest =>
      if xorb (matches p thisRole) (matches p existingRole) then [p]
      else p :: consulted rest thisRole existingRole
  end.

(** The first pattern, in list order, that matches exactly one of two roles. *)
Definition first_distinguishing (patterns : list string)
    (thisRole existingRole : string) : option string :=
  find (λ p, xorb (matches p thisRole) (matches p existingRole)) patterns.

(** The template [Merge] parses. *)
Definition effective_template (opts : MergeOpts) : string :=
  if decide (SectionNameTemplate opts = "")
  then DefaultSectionNameTemplate
  else SectionNameTemplate opts.

(** The run gets as far as the pruning pass: every profile is of a supported
    type and the template parses. *)
Definition gets_started (opts : MergeOpts) : Prop :=
  is_Some (separate (Profiles opts) [] [])
  ∧ is_Some (template_Parse (effective_template opts)).


End SpecWithEngines.

(** ** Inputs of the closed examples *)

Module Examples.

(** A document with a generated section of a stale URL, a generated section of
    another URL, and a section of the user's that mentions the stale URL. *)
Definition prune_doc : File :=
  [ ("DEFAULT", []);
    ("profile should_be_removed",
     [("common_fate_generated_from", "aws-sso");
      ("granted_sso_start_url", "https://deleteme.example.com")]);
    ("profile should_be_kept",
     [("common_fate_generated_from", "aws-sso");
      ("granted_sso_start_url", "https://somethingelse.example.com")]);
    ("profile mine",
     [("sso_start_url", "https://deleteme.example.com")]) ].

Definition prune_world : World := {| wConfig := prune_doc; wLog := [] |}.

Definition stale_section : IniSection :=
  ("profile should_be_removed",
   [("common_fate_generated_from", "aws-sso");
    ("granted_sso_start_url", "https://deleteme.example.com")]).

(** A generated section that holds both start URL keys. *)
Definition both_urls_section : IniSection :=
  ("profile both",
   [("common_fate_generated_from", "aws-sso");
    ("sso_start_url", "https://new.example.com");
    ("granted_sso_start_url", "https://old.example.com")]).

Definition both_urls_world : World :=
  {| wConfig := [("DEFAULT", []); both_urls_section]; wLog := [] |}.

(** The account profile of the tests: account prod, role DevRole. *)
Definition account (accountName roleName ssoSessionName : string)
  : AccountProfile :=
  {| AccountName := accountName; SSOSessionName := ssoSessionName;
     AccountID := "123456789012"; RoleName := roleName;
     GeneratedFrom := "aws-sso"; Region := ""; CommonFateURL := "";
     SSOStartURL := "https://example.awsapps.com/start";
     SSORegion := "ap-southeast-2" |}.

Definition company : SSOSession :=
  {| Session.SSOSessionName := "company";
     Session.SSOStartURL := "https://example.awsapps.com/start";
     Session.SSORegistrationScopes := "sso:account:access";
     Session.SSORegion := "ap-southeast-2";
     Session.GeneratedFrom := "aws-sso" |}.

Definition options (config : File) (profiles : list SSOProfile)
    (template : string) (noCredentialProcess : bool)
    (pruneStartURLs : list string) (sessionName : string)
    (preferRoles : list string) : MergeOpts :=
  {| Config := config; Prefix := ""; Profiles := profiles;
     SectionNameTemplate := template;
     NoCredentialProcess := noCredentialProcess;
     PruneStartURLs := pruneStartURLs; SessionName := sessionName;
     SSOScopes := []; PreferRoles := preferRoles; Verbose := false;
     DefaultRegion := "" |}.

(** The first test of the suite: a section of the user's and one profile. *)
Definition ok_opts : MergeOpts :=
  options [("DEFAULT", []); ("profile example", [("test", "1")])]
          [PAccountProfile (account "prod" "DevRole" "")]
          "" false [] "" [].

(** A section of the user's under the name a profile renders to. *)
Definition user_section : IniSection :=
  ("profile prod/DevRole", [("test", "1")]).

Definition same_name_opts : MergeOpts :=
  options [("DEFAULT", []); user_section]
          [PAccountProfile (account "prod" "DevRole" "")]
          "" false [] "" [].

(** An account profile followed by a value of an unsupported type, with a
    stale generated section to prune. *)
Definition unsupported_opts : MergeOpts :=
  options prune_doc
          [PAccountProfile (account "prod" "DevRole" ""); POther]
          "" false ["https://deleteme.example.com"] "" [].

(** The same without the unsupported value. *)
Definition supported_opts : MergeOpts :=
  options prune_doc
          [PAccountProfile (account "prod" "DevRole" "")]
          "" false ["https://deleteme.example.com"] "" [].

(** Session-reference mode: a profile that names the session company, and a
    caller whose implicit session name is another one. *)
Definition session_opts : MergeOpts :=
  options [("DEFAULT", [])]
          [PSSOSession company;
           PAccountProfile (account "prod" "DevRole" "company")]
          "" true [] "implicit" [].

(** A template that renders a name with a space at its end, and one that
    renders a name with a semicolon. *)
Definition trailing_space_opts : MergeOpts :=
  options [("DEFAULT", [])]
          [PAccountProfile (account "prod" "DevRole" "")]
          "{{ .AccountName }}. " false [] "" [].

(** The template of [trailing_space_opts] as [MiniTemplate] parses it. *)
Definition trailing_space_template : @Template MiniTemplate.template_engine :=
  [MiniTemplate.Field "AccountName"; MiniTemplate.Text ". "].

Definition semicolon_opts : MergeOpts :=
  options [("DEFAULT", [])]
          [PAccountProfile (account "prod" "DevRole" "")]
          "{{ .AccountName }}.;" false [] "" [].

(** Two profiles that render to the same name, with and without a preference
    pattern. *)
Definition collision (preferRoles : list string) : MergeOpts :=
  options [("DEFAULT", [])]
          [PAccountProfile (account "prod" "DevRoleOne" "");
           PAccountProfile (account "prod" "DevRoleTwo" "")]
          "{{ .AccountName }}" false [] "" preferRoles.

(** Three profiles of three accounts that render to the same name. *)
Definition three_accounts : MergeOpts :=
  options [("DEFAULT", [])]
          [PAccountProfile (account "a" "Zed" "");
           PAccountProfile (account "b" "Adm" "");
           PAccountProfile (account "c" "Adm" "")]
          "{{ .SSORegion }}" false [] "" [].

(** The template of [collision] as [MiniTemplate] parses it, and the two
    profiles. *)
Definition account_template : @Template MiniTemplate.template_engine :=
  [MiniTemplate.Field "AccountName"].

Definition role_one : AccountProfile := account "prod" "DevRoleOne" "".
Definition role_two : AccountProfile := account "prod" "DevRoleTwo" "".

Definition start_world : World := {| wConfig := [("DEFAULT", [])]; wLog := [] |}.

(** The world and the variables of the loop after [role_one] is written. *)
Definition after_role_one : World :=
  with_config start_world
    (written (wConfig start_world) "profile prod"
       (profile_entry (collision []) "" role_one "prod")).

Definition seen_role_one : LoopVars := record_role no_vars "prod" "DevRoleOne".

(** A section of the user's, without marker and without start URL, whose
    name is the name of a generated section followed by a dot and a word; in
    the document it stands before that section, which has a stale URL. *)
Definition team_dev_section : IniSection :=
  ("profile team.dev", [("region", "eu-west-1")]).

Definition team_section : IniSection :=
  ("profile team",
   [("common_fate_generated_from", "aws-sso");
    ("granted_sso_start_url", "https://deleteme.example.com")]).

Definition inherited_doc : File :=
  [("DEFAULT", []); team_dev_section; team_section].

Definition inherited_world : World :=
  {| wConfig := inherited_doc; wLog := [] |}.

(** A run on that document with an empty list of profiles. *)
Definition inherited_opts : MergeOpts :=
  options inherited_doc [] "" false ["https://deleteme.example.com"] "" [].

(** A run that generates the section [profile team] for the URL it prunes,
    on a document that holds the user's section [profile team.dev]. *)
Definition team_opts : MergeOpts :=
  options [("DEFAULT", []); team_dev_section]
          [PAccountProfile (account "team" "DevRole" "")]
          "{{ .AccountName }}" false ["https://example.awsapps.com/start"]
          "" [].


End Examples.

(** ** Further definitions: the rest of the file *)

(** The values of the list that the type switch of lines 342-351 accepts. *)
Definition is_supported (p : SSOProfile) : bool :=
  match p with
  | POther => false
  | _ => true
  end.

Definition as_session (p : SSOProfile) : option SSOSession :=
  match p with
  | PSSOSession s => Some s
  | _ => None
  end.

Definition as_account (p : SSOProfile) : option AccountProfile :=
  match p with
  | PAccountProfile a => Some a
  | _ => None
  end.

(** The characters of a string. *)
Definition chars (s : string) : list ascii := String.list_ascii_of_string s.

(** The section of a session: its name after normalization and the keys of
    its entry (lines 386-401). *)
Definition session_section_name (s : SSOSession) : string :=
  "sso-session " +:+ normalizeAccountName (Session.SSOSessionName s).

Definition session_section (s : SSOSession) : IniSection :=
  (session_section_name s, entry_keys (SSOSession_ToIni s "" false)).

(** The name of the implicit session (lines 419-422) and what is written for
    it from an account profile (lines 430-436). *)
Definition implicit_session_name (opts : MergeOpts) : string :=
  if decide (Prefix opts ≠ "")
  then normalizeAccountName (Prefix opts +:+ SessionName opts)
  else SessionName opts.

Definition implicit_session_entry (opts : MergeOpts) (a : AccountProfile)
  : IniEntry :=
  ssoSession (SSOStartURL a) (strings_Join (SSOScopes opts) " ")
             (SSORegion a) (GeneratedFrom a).

(** The first profile without a session name gets the name. *)
Fixpoint assign_first (name : string) (ps : list AccountProfile)
  : list AccountProfile :=
  match ps with
  | [] => []
  | a :: rest =>
      if decide (SSOSessionName a = "")
      then set_SSOSessionName a name :: rest
      else a :: assign_first name rest
  end.

Section MoreSpecWithEngines.
Context {TE : TemplateEngine} {RE : RegexEngine}.

(** The section an account profile is written to, when its name is
    rendered. *)
Definition profile_section (opts : MergeOpts) (sectionNameTempl : Template)
    (ssoSessionName : string) (a : AccountProfile) : option IniSection :=
  (λ profileName,
     ("profile " +:+ profileName,
      entry_keys (profile_entry opts ssoSessionName a profileName)))
    <$> profileName_of opts sectionNameTempl ssoSessionName a.

End MoreSpecWithEngines.

(** ** The earlier [Merge] of the file (lines 100-206)

    The file holds an earlier [Merge] as well: the same type switch, sort,
    template and pruning pass, the same loop over the sessions, and a loop
    over the account profiles that only normalizes the account name, renders
    the name and writes the section. Its options are the first six fields. *)

Module Earlier.

Record MergeOpts := {
  Config : File;
  Prefix : string;
  Profiles : list SSOProfile;
  SectionNameTemplate : string;
  NoCredentialProcess : bool;
  PruneStartURLs : list string
}.

(** Lines 164-179, the body for one session. *)
Definition write_session (opts : MergeOpts) (ssoSession : SSOSession)
  : M unit :=
  let name := normalizeAccountName (Session.SSOSessionName ssoSession) in
  let ssoSession :=
    {| Session.SSOSessionName := name;
       Session.SSOStartURL := Session.SSOStartURL ssoSession;
       Session.SSORegistrationScopes := Session.SSORegistrationScopes ssoSession;
       Session.SSORegion := Session.SSORegion ssoSession;
       Session.GeneratedFrom := Session.GeneratedFrom ssoSession |} in
  let sectionName := "sso-session " +:+ Session.SSOSessionName ssoSession in
  write_section sectionName
    (SSOSession_ToIni ssoSession (Session.SSOSessionName ssoSession)
                      (NoCredentialProcess opts)).

Section WithEngine.
Context {TE : TemplateEngine}.

(** Lines 181-203, the body for one account profile. *)
Definition write_profile (opts : MergeOpts) (sectionNameTempl : Template)
    (accountProfile : AccountProfile) : M unit :=
  let accountProfile :=
    set_AccountName accountProfile
      (normalizeAccountName (AccountName accountProfile)) in
  match template_Execute sectionNameTempl accountProfile with
  | None => fail ErrTemplateExecute
  | Some rendered =>
      let profileName := Prefix opts +:+ rendered in
      let sectionName := "profile " +:+ profileName in
      write_section sectionName
        (AccountProfile_ToIni accountProfile profileName
                              (NoCredentialProcess opts))
  end.

(** Lines 111-206. *)
Definition Merge (opts : MergeOpts) : World * Res unit :=
  let w0 := {| wConfig := Config opts; wLog := [] |} in
  let sectionNameTemplate :=
    if decide (SectionNameTemplate opts = "")
    then "{{ .AccountName }}/{{ .RoleName }}"
    else SectionNameTemplate opts in
  match separate (Profiles opts) [] [] with
  | None => (w0, Ok tt)
  | Some (ssoSessions, accountProfiles) =>
      let accountProfiles := SliceStable combinedName_less accountProfiles in
      match template_Parse sectionNameTemplate with
      | None => (w0, Err ErrTemplateParse)
      | Some sectionNameTempl =>
          (prune (PruneStartURLs opts) ;;
           for_range (write_session opts) ssoSessions ;;
           for_range (write_profile opts sectionNameTempl) accountProfiles)
            w0
      end
  end.

End WithEngine.

End Earlier.

(** The options of a call of the earlier [Merge]: the first six fields. *)
Definition earlier_opts (opts : MergeOpts) : Earlier.MergeOpts :=
  {| Earlier.Config := Config opts;
     Earlier.Prefix := Prefix opts;
     Earlier.Profiles := Profiles opts;
     Earlier.SectionNameTemplate := SectionNameTemplate opts;
     Earlier.NoCredentialProcess := NoCredentialProcess opts;
     Earlier.PruneStartURLs := PruneStartURLs opts |}.

(** ** Where the sections of the outcome come from *)

Section Provenance.
Context {TE : TemplateEngine} {RE : RegexEngine}.

(** The session name the loop over the account profiles writes (lines 406
    and 458). *)
Definition loop_session_name (opts : MergeOpts) : string :=
  if NoCredentialProcess opts then SessionName opts else "".

(** A section written from the lists: the section of a session of the list,
    the implicit session made from an account profile without a session name
    (session-reference mode only), or the section of an account profile. *)
Definition from_the_lists (opts : MergeOpts) (sectionNameTempl : Template)
    (ssoSessions : list SSOSession) (accountProfiles : list AccountProfile)
    (sec : IniSection) : Prop :=
  (∃ s, s ∈ ssoSessions ∧ sec = session_section s)
  ∨ (NoCredentialProcess opts = true
     ∧ ∃ a, a ∈ accountProfiles ∧ SSOSessionName a = ""
            ∧ sec = ("sso-session " +:+ implicit_session_name opts,
                     entry_keys (implicit_session_entry opts a)))
  ∨ (∃ a, a ∈ accountProfiles
          ∧ profile_section opts sectionNameTempl (loop_session_name opts) a
            = Some sec).

(** The names of the sections a run may write. *)
Definition targets (opts : MergeOpts) (sectionNameTempl : Template)
  : list string :=
  (session_section_name <$> omap as_session (Profiles opts))
  ++ (if NoCredentialProcess opts
      then ["sso-session " +:+ implicit_session_name opts] else [])
  ++ (String.app "profile "
        <$> omap (profileName_of opts sectionNameTempl
                    (loop_session_name opts))
                 (omap as_account (Profiles opts))).

End Provenance.

(** The names of the sections of a document are the names [P] without the
    names written, in their order, followed by the names written, each
    once. *)
Definition names_shape (P : list string) (f : File) : Prop :=
  ∃ written_names,
    NoDup written_names ∧ Forall target_name written_names
    ∧ f.*1 = filter (λ name, name ∉ written_names) P ++ written_names.

(** ** Inputs of further closed examples *)

Module MoreExamples.

(** A generated section that holds no start URL at all. *)
Definition no_url_section : IniSection :=
  ("profile orphan", [("common_fate_generated_from", "aws-sso")]).

Definition no_url_world : World :=
  {| wConfig := [("DEFAULT", []); no_url_section]; wLog := [] |}.

(** A template with an action that is not closed. *)
Definition unclosed_opts : MergeOpts :=
  Examples.options Examples.prune_doc
    [PAccountProfile (Examples.account "prod" "DevRole" "")]
    "{{ .AccountName" false ["https://deleteme.example.com"] "" [].

(** A template that reads a field the profile does not have. *)
Definition no_such_field : @Template MiniTemplate.template_engine :=
  [MiniTemplate.Field "AccountAlias"].

(** The profiles of the test on the alphabetical order, as the caller gives
    them. *)
Definition two_roles : MergeOpts :=
  Examples.options [("DEFAULT", []); ("profile example", [("test", "1")])]
    [PAccountProfile (Examples.account "prod" "DevRoleTwo" "");
     PAccountProfile (Examples.account "prod" "DevRoleOne" "")]
    "" false [] "" [].

Definition default_template : @Template MiniTemplate.template_engine :=
  [MiniTemplate.Field "AccountName"; MiniTemplate.Text "/";
   MiniTemplate.Field "RoleName"].

(** Options with a default region. *)
Definition default_region_opts : MergeOpts :=
  {| Config := [("DEFAULT", [])]; Prefix := "";
     Profiles := [PAccountProfile (Examples.account "prod" "DevRole" "")];
     SectionNameTemplate := ""; NoCredentialProcess := false;
     PruneStartURLs := []; SessionName := ""; SSOScopes := [];
     PreferRoles := []; Verbose := false; DefaultRegion := "eu-west-1" |}.

(** A document that holds the section a run writes for the account prod and
    the role DevRole. *)
Definition generated_world : World :=
  {| wConfig :=
       [("DEFAULT", []);
        ("profile prod/DevRole",
         entry_keys (AccountProfile_ToIni
                       (Examples.account "prod" "DevRole" "")
                       "prod/DevRole" false))];
     wLog := [] |}.

(** A call with an empty list and a stale section to prune. *)
Definition no_profiles : MergeOpts :=
  Examples.options Examples.prune_doc [] ""
    false ["https://deleteme.example.com"] "" [].

End MoreExamples.
(** * Lemmas *)

(** ** Lists *)


Lemma filter_all_in {A} (P : A → Prop) `{!∀ x, Decision (P x)} (l : list A) :
  (∀ x, x ∈ l → P x) → filter P l = l.
Proof.
  induction l as [|x l IH]; intros Hp; [done|].
  rewrite filter_cons_True by apply Hp, list_elem_of_here.
  rewrite IH; [done|]. intros; by apply Hp, list_elem_of_further.
Qed.


(** ** The state monad *)

Lemma bind_run {A B} (m : M A) (k : A → M B) (w : World) :
  (m ≫= k) w
  = match m w with
    | (w', Ok a) => k a w'
    | (w', Err e) => (w', Err e)
    | (w', Panicked) => (w', Panicked)
    end.
Proof. unfold mbind, M_bind. by destruct (m w) as [w' [a| |]]. Qed.

Lemma with_config_id w : with_config w (wConfig w) = w.
Proof. by destruct w. Qed.

(** ** The document operations *)

Lemma section_key_nonempty name : name ≠ "" → section_key name = name.
Proof. unfold section_key. intros ?. by destruct (decide (name = "")). Qed.

Lemma section_key_not_empty name : section_key name ≠ "".
Proof. unfold section_key. by destruct (decide (name = "")). Qed.

Lemma GetSection_Some f name sec :
  GetSection f name = Some sec → sec ∈ f ∧ sec.1 = section_key name.
Proof.
  unfold GetSection. intros Hf. apply find_some in Hf as [Hin Hd].
  apply bool_decide_eq_true in Hd. split; [by apply list_elem_of_In | done].
Qed.

Lemma GetSection_None f name :
  GetSection f name = None ↔ section_key name ∉ f.*1.
Proof.
  unfold GetSection. induction f as [|sec f IH]; simpl.
  - split; [intros _; apply not_elem_of_nil | done].
  - rewrite not_elem_of_cons. case_bool_decide as Hd.
    + split; [done | intros [? _]; congruence].
    + rewrite IH. split; [intros ?; split; [congruence | done] | tauto].
Qed.

Lemma GetSection_app_r f g name :
  section_key name ∉ f.*1 → GetSection (f ++ g) name = GetSection g name.
Proof.
  unfold GetSection. induction f as [|sec f IH]; simpl; [done|].
  rewrite not_elem_of_cons. intros [Hne Hnot].
  case_bool_decide; [congruence | auto].
Qed.

Lemma GetSection_app_l f g name sec :
  GetSection f name = Some sec → GetSection (f ++ g) name = Some sec.
Proof.
  unfold GetSection. induction f as [|s f IH]; simpl; [done|].
  case_bool_decide; auto.
Qed.

(** In a document with unique names a section is found under its name. *)
Lemma GetSection_elem (f : File) sec name :
  NoDup f.*1 → sec ∈ f → section_key name = sec.1 →
  GetSection f name = Some sec.
Proof.
  intros Hnd Hin Hname. unfold GetSection. rewrite Hname. clear Hname.
  induction f as [|s f IH]; [by apply elem_of_nil in Hin|].
  rewrite fmap_cons in Hnd. apply NoDup_cons in Hnd as [Hs Hnd]. simpl.
  apply elem_of_cons in Hin as [->|Hin].
  - by rewrite bool_decide_eq_true_2.
  - rewrite bool_decide_eq_false_2; [by apply IH|].
    intros Heq. apply Hs. rewrite Heq. apply list_elem_of_fmap; eauto.
Qed.

Lemma DeleteSection_names f name : section_key name ∉ (DeleteSection f name).*1.
Proof.
  unfold DeleteSection. intros Hin. apply list_elem_of_fmap in Hin as (sec & Heq & Hin).
  apply list_elem_of_filter in Hin as [Hne _]. congruence.
Qed.

Lemma DeleteSection_idemp f name :
  DeleteSection (DeleteSection f name) name = DeleteSection f name.
Proof. unfold DeleteSection. by rewrite list_filter_filter_l. Qed.

Lemma DeleteSection_elem f name sec :
  sec ∈ DeleteSection f name ↔ sec ∈ f ∧ sec.1 ≠ section_key name.
Proof. unfold DeleteSection. rewrite list_elem_of_filter. tauto. Qed.

Lemma DeleteSection_sub f name x :
  x ∈ (DeleteSection f name).*1 → x ∈ f.*1.
Proof.
  intros Hin. apply list_elem_of_fmap in Hin as (sec & -> & Hin).
  apply DeleteSection_elem in Hin as [Hin _]. apply list_elem_of_fmap; eauto.
Qed.

Lemma DeleteSection_absent f name :
  section_key name ∉ f.*1 → DeleteSection f name = f.
Proof.
  intros Hnot. unfold DeleteSection. apply filter_all_in.
  intros x Hx Heq. apply Hnot. rewrite <- Heq. apply list_elem_of_fmap; eauto.
Qed.

Lemma GetSection_DeleteSection_ne (f : File) n m :
  section_key m ≠ section_key n →
  GetSection (DeleteSection f n) m = GetSection f m.
Proof.
  intros Hne. unfold GetSection, DeleteSection.
  induction f as [|sec f IH]; [done|]. rewrite filter_cons. simpl.
  destruct (decide (sec.1 ≠ section_key n)) as [Hk|Hk]; simpl.
  - by rewrite IH.
  - rewrite IH. apply dec_stable in Hk.
    rewrite bool_decide_eq_false_2 by congruence. done.
Qed.

Lemma GetSection_DeleteSection_eq (f : File) n m :
  section_key m = section_key n → GetSection (DeleteSection f n) m = None.
Proof.
  intros Heq. apply GetSection_None. rewrite Heq. apply DeleteSection_names.
Qed.

Lemma SetSection_names f sec : (SetSection f sec).*1 = f.*1.
Proof.
  induction f as [|old f IH]; [done|]. cbn [SetSection].
  destruct (decide (old.1 = sec.1)) as [Heq|]; rewrite !fmap_cons;
    [by rewrite Heq|].
  by rewrite IH.
Qed.

Lemma SetSection_app_r f g sec :
  sec.1 ∉ f.*1 → SetSection (f ++ g) sec = f ++ SetSection g sec.
Proof.
  induction f as [|old f IH]; simpl; [done|].
  rewrite not_elem_of_cons. intros [Hne Hnot].
  destruct (decide (old.1 = sec.1)); [congruence | by rewrite IH].
Qed.

Lemma SetSection_other f sec x :
  x ∈ f → x.1 ≠ sec.1 → x ∈ SetSection f sec.
Proof.
  induction f as [|old f IH]; [done|]. simpl. intros Hin Hne.
  apply elem_of_cons in Hin as [->|Hin].
  - destruct (decide (old.1 = sec.1)); [done|]. apply list_elem_of_here.
  - destruct (decide (old.1 = sec.1)).
    + by apply list_elem_of_further.
    + apply list_elem_of_further. by apply IH.
Qed.

Lemma SetSection_elem f sec x :
  x ∈ SetSection f sec → x ∈ f ∨ x = sec.
Proof.
  induction f as [|old f IH]; [by left|]. simpl.
  destruct (decide (old.1 = sec.1)).
  - intros Hin. apply elem_of_cons in Hin as [->|Hin]; [by right|].
    left. by apply list_elem_of_further.
  - intros Hin. apply elem_of_cons in Hin as [->|Hin].
    + left. apply list_elem_of_here.
    + destruct (IH Hin) as [?|?]; [left; by apply list_elem_of_further|by right].
Qed.

Lemma GetSection_SetSection_ne f sec m :
  section_key m ≠ sec.1 →
  GetSection (SetSection f sec) m = GetSection f m.
Proof.
  intros Hne. unfold GetSection. induction f as [|old f IH]; [done|]. simpl.
  destruct (decide (old.1 = sec.1)) as [Heq|Hneq]; simpl.
  - rewrite !bool_decide_eq_false_2 by congruence. done.
  - by rewrite IH.
Qed.

Lemma GetSection_SetSection_eq f sec old m :
  GetSection f m = Some old → sec.1 = old.1 →
  GetSection (SetSection f sec) m = Some sec.
Proof.
  unfold GetSection. intros Hf Heq. induction f as [|x f IH]; [done|].
  simpl in *. destruct (decide (x.1 = sec.1)) as [Hx|Hx]; simpl.
  - case_bool_decide as Hd.
    + injection Hf as ->. by rewrite bool_decide_eq_true_2 by congruence.
    + pose proof (find_some _ _ Hf) as [_ Ho].
      apply bool_decide_eq_true in Ho. congruence.
  - case_bool_decide as Hd.
    + injection Hf as ->. congruence.
    + by apply IH.
Qed.

Lemma set_key_fresh keys name val :
  name ∉ keys.*1 → set_key keys name val = keys ++ [(name, val)].
Proof.
  induction keys as [|kv keys IH]; [done|]. simpl.
  rewrite not_elem_of_cons. intros [Hne Hnot].
  destruct (decide (kv.1 = name)); [congruence|]. by rewrite IH.
Qed.

Lemma own_key_None sec name : own_key sec name = None ↔ name ∉ sec.2.*1.
Proof.
  unfold own_key. destruct sec as [n keys]. simpl.
  induction keys as [|kv keys IH]; simpl.
  - split; [intros _; apply not_elem_of_nil|done].
  - rewrite not_elem_of_cons. case_bool_decide as Hd; simpl.
    + split; [done|intros [? _]; congruence].
    + rewrite IH. split; [intros ?; split; [congruence|done]|tauto].
Qed.

(** ** The parents of a section name *)

Lemma cut_shorter sname p :
  cut_at_last_delimiter sname = Some p → String.length p < String.length sname.
Proof.
  revert p. induction sname as [|c rest IH]; intros p; [done|]. simpl.
  destruct (cut_at_last_delimiter rest) as [q|].
  - intros [= <-]. simpl. specialize (IH q eq_refl). lia.
  - destruct (decide (c = "."%char)); [|done]. intros [= <-]. simpl. lia.
Qed.

Lemma parents_upto_enough n m sname :
  String.length sname ≤ n → String.length sname ≤ m →
  parents_upto n sname = parents_upto m sname.
Proof.
  revert m sname. induction n as [|n IH]; intros m sname Hn Hm.
  - destruct sname; [|simpl in Hn; lia]. by destruct m.
  - destruct m as [|m].
    + destruct sname; [done|simpl in Hm; lia].
    + simpl. destruct (cut_at_last_delimiter sname) as [p|] eqn:Hcut; [|done].
      apply cut_shorter in Hcut. f_equal. apply IH; lia.
Qed.

Lemma parents_unfold sname :
  parents sname
  = match cut_at_last_delimiter sname with
    | Some p => p :: parents p
    | None => []
    end.
Proof.
  unfold parents. destruct sname as [|c rest]; [done|].
  cbn [String.length parents_upto].
  destruct (cut_at_last_delimiter (String c rest)) as [p|] eqn:Hcut; [|done].
  apply cut_shorter in Hcut. cbn [String.length] in Hcut.
  f_equal. apply parents_upto_enough; lia.
Qed.

(** Induction along the cuts of a name. *)
Lemma parents_ind (P : string → Prop) :
  (∀ sname,
     (∀ p, cut_at_last_delimiter sname = Some p → P p) → P sname) →
  ∀ sname, P sname.
Proof.
  intros Hstep sname.
  remember (String.length sname) as n eqn:Hn.
  revert sname Hn. induction n as [n IH] using lt_wf_ind. intros sname ->.
  apply Hstep. intros p Hcut. apply cut_shorter in Hcut.
  by apply (IH (String.length p)).
Qed.

Lemma parents_shorter sname p :
  p ∈ parents sname → String.length p < String.length sname.
Proof.
  revert p. induction sname as [sname IH] using parents_ind. intros p.
  rewrite parents_unfold.
  destruct (cut_at_last_delimiter sname) as [q|] eqn:Hcut;
    [|intros H; by apply elem_of_nil in H].
  pose proof (cut_shorter _ _ Hcut) as Hq.
  intros Hin. apply elem_of_cons in Hin as [->|Hin]; [done|].
  specialize (IH q eq_refl p Hin). lia.
Qed.

(** The parents of a parent are parents. *)
Lemma parents_trans sname p q :
  p ∈ parents sname → q ∈ parents p → q ∈ parents sname.
Proof.
  revert p q. induction sname as [sname IH] using parents_ind. intros p q.
  rewrite (parents_unfold sname).
  destruct (cut_at_last_delimiter sname) as [r|] eqn:Hcut;
    [|intros H; by apply elem_of_nil in H].
  intros Hin Hq. apply list_elem_of_further.
  apply elem_of_cons in Hin as [->|Hin]; [done|].
  by apply (IH r eq_refl p q).
Qed.

(** The section a parent names has the parents of the parent: the empty name
    stands for the default section, and neither has a parent. *)
Lemma parents_section_key p : parents (section_key p) = parents p.
Proof. unfold section_key. by destruct (decide (p = "")) as [->|]. Qed.

(** No section is its own parent. *)
Lemma parents_not_self sname p :
  p ∈ parents sname → section_key p ≠ section_key sname.
Proof.
  intros Hin. pose proof (parents_shorter _ _ Hin) as Hlen.
  unfold section_key.
  destruct (decide (sname = "")) as [->|Hs]; [simpl in Hlen; lia|].
  destruct (decide (p = "")) as [->|Hp].
  - intros <-. by apply elem_of_nil in Hin.
  - intros ->. lia.
Qed.

(** ** The look-up of a key *)

Lemma GetKey_in_None f ps k :
  GetKey_in f ps k = None
  ↔ ∀ p sec, p ∈ ps → GetSection f p = Some sec → own_key sec k = None.
Proof.
  induction ps as [|q ps IH]; cbn [GetKey_in].
  - split; [|done]. intros _ p sec Hp. by apply elem_of_nil in Hp.
  - destruct (GetSection f q) as [s|] eqn:Hq.
    + destruct (own_key s k) as [v|] eqn:Hown.
      * split; [done|]. intros H.
        specialize (H q s (list_elem_of_here _ _) Hq). congruence.
      * rewrite IH. split.
        -- intros H p sec Hp Hsec.
           apply elem_of_cons in Hp as [->|Hp]; [congruence|eauto].
        -- intros H p sec Hp. apply H. by apply list_elem_of_further.
    + rewrite IH. split.
      * intros H p sec Hp Hsec.
        apply elem_of_cons in Hp as [->|Hp]; [congruence|eauto].
      * intros H p sec Hp. apply H. by apply list_elem_of_further.
Qed.

Lemma GetKey_in_Some f ps k h v :
  GetKey_in f ps k = Some (h, v) →
  ∃ p sec, p ∈ ps ∧ GetSection f p = Some sec ∧ sec.1 = h
           ∧ own_key sec k = Some v.
Proof.
  induction ps as [|q ps IH]; cbn [GetKey_in]; [done|].
  destruct (GetSection f q) as [s|] eqn:Hq.
  - destruct (own_key s k) as [v'|] eqn:Hown.
    + intros [= <- <-]. exists q, s. split; [apply list_elem_of_here|done].
    + intros H. destruct (IH H) as (p & sec & Hp & ?).
      exists p, sec. split; [by apply list_elem_of_further|done].
  - intros H. destruct (IH H) as (p & sec & Hp & ?).
    exists p, sec. split; [by apply list_elem_of_further|done].
Qed.

Lemma GetKey_in_ext f g ps k :
  (∀ p, p ∈ ps → GetSection f p = GetSection g p) →
  GetKey_in f ps k = GetKey_in g ps k.
Proof.
  induction ps as [|q ps IH]; intros Hext; [done|]. cbn [GetKey_in].
  rewrite (Hext q) by apply list_elem_of_here.
  rewrite IH by (intros; apply Hext; by apply list_elem_of_further). done.
Qed.

Lemma GetKey_in_absent f ps k :
  (∀ p, p ∈ ps → GetSection f p = None) → GetKey_in f ps k = None.
Proof.
  intros Habs. apply GetKey_in_None. intros p sec Hp Hsec.
  rewrite (Habs p Hp) in Hsec. done.
Qed.

(** A key the section holds itself is the key found. *)
Lemma GetKey_own f sec k v :
  own_key sec k = Some v → GetKey f sec k = Some (sec.1, v).
Proof. unfold GetKey. by intros ->. Qed.

(** Without a parent in the document the look-up is in the section only. *)
Lemma GetKey_orphan f sec k :
  orphan f sec.1 → GetKey f sec k = (λ v, (sec.1, v)) <$> own_key sec k.
Proof.
  intros Ho. unfold GetKey. destruct (own_key sec k); [done|].
  by apply GetKey_in_absent.
Qed.

Lemma HasKey_orphan f sec k :
  orphan f sec.1 → HasKey f sec k = bool_decide (is_Some (own_key sec k)).
Proof.
  intros Ho. unfold HasKey. rewrite GetKey_orphan by done.
  by destruct (own_key sec k).
Qed.

Lemma orphan_sub (f g : File) n :
  (∀ x, x ∈ g.*1 → x ∈ f.*1) → orphan f n → orphan g n.
Proof.
  intros Hsub Ho p Hp. apply GetSection_None. intros Hin.
  apply Hsub in Hin. specialize (Ho p Hp). by apply GetSection_None in Ho.
Qed.

(** Deleting the section of a name changes nothing for the look-up from a
    section of that name. *)
Lemma GetKey_DeleteSection_self f sec k :
  GetKey (DeleteSection f (Name sec)) sec k = GetKey f sec k.
Proof.
  unfold GetKey. destruct (own_key sec k); [done|].
  apply GetKey_in_ext. intros p Hp.
  apply GetSection_DeleteSection_ne. by apply parents_not_self.
Qed.

Lemma section_startURL_GetKey f sec :
  section_startURL f sec
  = match GetKey f sec "granted_sso_start_url" with
    | Some (_, v) => v
    | None =>
        match GetKey f sec "sso_start_url" with
        | Some (_, v) => v
        | None => ""
        end
    end.
Proof.
  unfold section_startURL, HasKey, Key.
  destruct (GetKey f sec "granted_sso_start_url") as [[? ?]|]; [done|].
  by destruct (GetKey f sec "sso_start_url") as [[? ?]|].
Qed.

Lemma should_prune_delete_self urls f sec :
  should_prune urls (DeleteSection f (Name sec)) sec = should_prune urls f sec.
Proof.
  unfold should_prune, HasKey. rewrite !section_startURL_GetKey.
  by rewrite !GetKey_DeleteSection_self.
Qed.

(** ** Writing a section *)

Lemma reflect_field_in_names n f fld : (reflect_field_in n f fld).*1 = f.*1.
Proof.
  unfold reflect_field_in. destruct (_ && _); [done|].
  destruct (GetSection f n) as [sec|]; [|done].
  destruct (GetKey f sec (f_key fld)) as [[holder ?]|].
  - unfold set_value. destruct (GetSection f holder); [|done].
    apply SetSection_names.
  - apply SetSection_names.
Qed.

Lemma ReflectFrom_names f n e : (ReflectFrom f n e).*1 = f.*1.
Proof.
  unfold ReflectFrom. generalize (ini_fields e). intros flds. revert f.
  induction flds as [|fld flds IH]; intros f; [done|]. cbn [foldl].
  by rewrite IH, reflect_field_in_names.
Qed.

(** The names after a write: the name written is the last one. *)
Lemma written_names f n e :
  (written f n e).*1 = (DeleteSection f n).*1 ++ [n].
Proof. unfold written. by rewrite ReflectFrom_names, fmap_app. Qed.

Lemma written_names_elem f n e x :
  x ∈ (written f n e).*1 → x ∈ f.*1 ∨ x = n.
Proof.
  rewrite written_names, elem_of_app. intros [H|H].
  - left. by apply DeleteSection_sub in H.
  - right. apply elem_of_cons in H as [H|H]; [done|]. by apply elem_of_nil in H.
Qed.

Lemma written_names_kept f n e x :
  n ≠ "" → x ∈ f.*1 → x ∈ (written f n e).*1.
Proof.
  intros Hn Hin. rewrite written_names, elem_of_app.
  destruct (decide (x = n)) as [->|Hne].
  - right. apply list_elem_of_here.
  - left. apply list_elem_of_fmap in Hin as (sec & -> & Hin).
    apply list_elem_of_fmap. exists sec. split; [done|].
    apply DeleteSection_elem. by rewrite section_key_nonempty.
Qed.

(** Writing a section under a name that is not empty cannot fail. *)
Lemma write_section_spec sectionName entry w :
  sectionName ≠ "" →
  write_section sectionName entry w
  = (with_config w (written (wConfig w) sectionName entry), Ok tt).
Proof.
  intros Hne. unfold write_section, written, with_config.
  unfold mbind, M_bind, get_config, put_config; simpl.
  unfold NewSection. destruct (decide (sectionName = "")); [done|].
  rewrite GetSection_DeleteSection_eq by done. done.
Qed.

(** Without a parent section in the document the new section gets all the
    keys of the entry. *)
Lemma written_orphan f n e :
  n ≠ "" → orphan f n → written f n e = replaced f n e.
Proof.
  intros Hn Ho. unfold written, replaced, ReflectFrom, entry_keys.
  set (g := DeleteSection f n).
  assert (Hg : n ∉ g.*1).
  { pose proof (DeleteSection_names f n) as H.
    by rewrite section_key_nonempty in H. }
  assert (Hp : ∀ ks p, p ∈ parents n → GetSection (g ++ [(n, ks)]) p = None).
  { intros ks p Hin. apply GetSection_None. rewrite fmap_app, elem_of_app.
    intros [Hx|Hx].
    - apply DeleteSection_sub in Hx. specialize (Ho p Hin).
      by apply GetSection_None in Ho.
    - apply elem_of_cons in Hx as [Hx|Hx]; [|by apply elem_of_nil in Hx].
      apply parents_not_self in Hin. rewrite (section_key_nonempty n) in Hin
        by done. done. }
  generalize (ini_fields e) ([] : list (string * string)).
  intros flds. induction flds as [|fld flds IH]; intros ks; [done|].
  cbn [foldl]. rewrite <- IH. f_equal.
  unfold reflect_field_in, reflect_field.
  destruct (f_omitempty fld && bool_decide (f_value fld = "")); [done|].
  assert (GetSection (g ++ [(n, ks)]) n = Some (n, ks)) as Hget.
  { rewrite GetSection_app_r by (by rewrite section_key_nonempty).
    unfold GetSection. simpl. rewrite section_key_nonempty by done.
    by rewrite bool_decide_eq_true_2. }
  rewrite Hget. unfold GetKey. cbn [Name fst snd].
  destruct (own_key (n, ks) (f_key fld)) as [v|] eqn:Hown.
  - unfold set_value. rewrite Hget. cbn [fst snd].
    rewrite SetSection_app_r by done. simpl.
    by destruct (decide (n = n)).
  - rewrite GetKey_in_absent by (apply Hp).
    rewrite SetSection_app_r by done. simpl.
    destruct (decide (n = n)); [|done].
    apply own_key_None in Hown. by rewrite set_key_fresh.
Qed.

Lemma GetSection_replaced_same (f : File) n e :
  n ≠ "" → GetSection (replaced f n e) n = Some (n, entry_keys e).
Proof.
  intros Hne. unfold replaced. rewrite GetSection_app_r.
  - unfold GetSection. simpl. rewrite section_key_nonempty by done.
    by rewrite bool_decide_eq_true_2.
  - apply DeleteSection_names.
Qed.

Lemma GetSection_replaced_other (f : File) n e m :
  n ≠ "" → section_key m ≠ n →
  GetSection (replaced f n e) m = GetSection f m.
Proof.
  intros Hn Hne. unfold replaced.
  rewrite <- (GetSection_DeleteSection_ne f n m)
    by (by rewrite (section_key_nonempty n)).
  destruct (GetSection (DeleteSection f n) m) as [sec|] eqn:Hg.
  - by apply GetSection_app_l.
  - rewrite GetSection_app_r by (by apply GetSection_None).
    unfold GetSection. simpl. by rewrite bool_decide_eq_false_2.
Qed.

Lemma wf_sublist (f g : File) : g `sublist_of` f → wf_file f → wf_file g.
Proof.
  intros Hsub [Hnd Hne].
  assert (g.*1 `sublist_of` f.*1) as Hs by (by apply fmap_sublist).
  split.
  - by eapply sublist_NoDup.
  - intros Hin. apply Hne. by eapply elem_of_sublist.
Qed.

Lemma DeleteSection_sublist f n : DeleteSection f n `sublist_of` f.
Proof. apply sublist_filter. Qed.

Lemma wf_replaced (f : File) n e :
  wf_file f → n ≠ "" → wf_file (replaced f n e).
Proof.
  intros Hwf Hn.
  destruct (wf_sublist f (DeleteSection f n) (DeleteSection_sublist f n) Hwf)
    as [Hnd Hne].
  pose proof (DeleteSection_names f n) as Hnot.
  rewrite section_key_nonempty in Hnot by done.
  unfold replaced, wf_file. rewrite fmap_app. cbn. split.
  - apply NoDup_app. split; [done|]. split; [|apply NoDup_singleton].
    intros x Hx Hx'. apply elem_of_cons in Hx' as [->|Hx']; [done|].
    by apply elem_of_nil in Hx'.
  - rewrite elem_of_app. intros [?|Hx]; [done|].
    apply elem_of_cons in Hx as [?|Hx]; [done|]. by apply elem_of_nil in Hx.
Qed.

Lemma profile_section_nonempty profileName : "profile " +:+ profileName ≠ "".
Proof. done. Qed.

Lemma profile_section_key profileName :
  section_key ("profile " +:+ profileName) = "profile " +:+ profileName.
Proof. by apply section_key_nonempty. Qed.

Lemma profile_section_inj a b :
  "profile " +:+ a = "profile " +:+ b → a = b.
Proof. intros H. by apply (inj (String.app "profile ")) in H. Qed.

(** ** The pruning pass *)

Lemma prune_urls_loop sec (s : string) urls w :
  for_range (λ pruneURL,
    f ← get_config;
    let isGenerated := HasKey f sec "common_fate_generated_from" in
    if isGenerated && bool_decide (s = pruneURL)
    then put_config (DeleteSection f (Name sec))
    else mret tt) urls w
  = (with_config w
       (if HasKey (wConfig w) sec "common_fate_generated_from"
           && bool_decide (s ∈ urls)
        then DeleteSection (wConfig w) (Name sec)
        else wConfig w), Ok tt).
Proof.
  revert w. induction urls as [|u urls IH]; intros w; cbn [for_range].
  - rewrite bool_decide_eq_false_2 by apply not_elem_of_nil.
    rewrite andb_false_r. by rewrite with_config_id.
  - rewrite bind_run. rewrite bind_run. unfold get_config at 1.
    cbn zeta.
    destruct (HasKey (wConfig w) sec "common_fate_generated_from"
              && bool_decide (s = u)) eqn:Hgu.
    + apply andb_true_iff in Hgu as [Hg Hu]. apply bool_decide_eq_true in Hu.
      unfold put_config at 1. rewrite IH. cbn [wConfig wLog with_config].
      unfold HasKey at 1. rewrite GetKey_DeleteSection_self.
      fold (HasKey (wConfig w) sec "common_fate_generated_from").
      rewrite Hg. cbn [andb]. rewrite DeleteSection_idemp.
      rewrite (bool_decide_eq_true_2 (s ∈ u :: urls))
        by (subst u; apply list_elem_of_here).
      by destruct (bool_decide (s ∈ urls)).
    + unfold mret at 1. unfold M_ret at 1. rewrite IH.
      apply andb_false_iff in Hgu as [->|Hu]; [done|].
      apply bool_decide_eq_false in Hu.
      rewrite (bool_decide_ext (s ∈ u :: urls) (s ∈ urls)); [done|].
      rewrite elem_of_cons. split; [intros [->|?]; done | by right].
Qed.

Lemma prune_section_spec urls sec w :
  prune_section urls sec w
  = (with_config w (if should_prune urls (wConfig w) sec
                    then DeleteSection (wConfig w) (Name sec)
                    else wConfig w), Ok tt).
Proof.
  unfold prune_section. rewrite bind_run. unfold get_config at 1. cbn zeta.
  apply prune_urls_loop.
Qed.

Lemma prune_fold urls l w :
  for_range (prune_section urls) l w
  = (with_config w
       (foldl (λ g sec, if should_prune urls g sec
                        then DeleteSection g (Name sec) else g)
              (wConfig w) l), Ok tt).
Proof.
  revert w. induction l as [|sec l IH]; intros w; simpl.
  - by rewrite with_config_id.
  - rewrite bind_run, prune_section_spec. rewrite IH.
    by destruct w.
Qed.

(** The pruning pass cannot fail, logs nothing, and leaves the document of
    [pruned_by_name]. *)
Lemma prune_by_name urls w :
  prune urls w = (with_config w (pruned_by_name urls (wConfig w)), Ok tt).
Proof.
  unfold prune, Sections. rewrite bind_run. unfold get_config.
  by rewrite prune_fold.
Qed.

Lemma prune_fold_sublist urls (l g : File) :
  foldl (λ g sec, if should_prune urls g sec
                  then DeleteSection g (Name sec) else g) g l
    `sublist_of` g.
Proof.
  revert g. induction l as [|sec l IH]; intros g; cbn [foldl]; [done|].
  etrans; [apply IH|]. destruct (should_prune urls g sec); [|done].
  apply DeleteSection_sublist.
Qed.

Lemma pruned_by_name_sublist urls (f : File) :
  pruned_by_name urls f `sublist_of` f.
Proof. apply prune_fold_sublist. Qed.

Lemma pruned_by_name_elem urls (f : File) sec :
  sec ∈ pruned_by_name urls f → sec ∈ f.
Proof.
  intros Hin. eapply elem_of_sublist; [exact Hin|].
  apply pruned_by_name_sublist.
Qed.

Lemma prune_fold_keeps urls (l g : File) sec :
  sec ∈ g → (∀ s, s ∈ l → section_key s.1 ≠ sec.1) →
  sec ∈ foldl (λ g sec, if should_prune urls g sec
                        then DeleteSection g (Name sec) else g) g l.
Proof.
  revert g. induction l as [|s l IH]; intros g Hin Hne; cbn [foldl]; [done|].
  apply IH; [|intros; apply Hne; by apply list_elem_of_further].
  destruct (should_prune urls g s); [|done].
  apply DeleteSection_elem. split; [done|].
  intros Heq. by apply (Hne s (list_elem_of_here _ _)).
Qed.

Lemma prune_fold_nothing urls (l g : File) :
  (∀ s, s ∈ l → should_prune urls g s = false) →
  foldl (λ g sec, if should_prune urls g sec
                  then DeleteSection g (Name sec) else g) g l = g.
Proof.
  induction l as [|s l IH]; intros Hn; cbn [foldl]; [done|].
  rewrite (Hn s) by apply list_elem_of_here.
  apply IH. intros; apply Hn; by apply list_elem_of_further.
Qed.

(** On a well-formed document, a section stays exactly when the condition
    does not hold in the document reached when it is visited, that is after
    the sections before it. *)
Lemma prune_verdict urls (l1 l2 : File) sec :
  wf_file (l1 ++ sec :: l2) →
  sec ∈ pruned_by_name urls (l1 ++ sec :: l2)
  ↔ should_prune urls
      (foldl (λ g sec, if should_prune urls g sec
                       then DeleteSection g (Name sec) else g)
             (l1 ++ sec :: l2) l1) sec = false.
Proof.
  intros [Hnd Hne]. unfold pruned_by_name. rewrite foldl_app. cbn [foldl].
  set (f0 := l1 ++ sec :: l2) in *.
  assert (Hsec : sec.1 ≠ "").
  { intros Heq. apply Hne. rewrite <- Heq. apply list_elem_of_fmap.
    exists sec. split; [done|]. unfold f0. rewrite elem_of_app. right.
    apply list_elem_of_here. }
  assert (Hother : ∀ s, s ∈ l1 ++ l2 → section_key s.1 ≠ sec.1).
  { unfold f0 in Hnd, Hne. rewrite fmap_app, fmap_cons in Hnd, Hne.
    apply NoDup_app in Hnd as (_ & Hdis & Hnd2).
    apply NoDup_cons in Hnd2 as [Hs2 _].
    intros s Hs.
    assert (s.1 ≠ "") as Hs1.
    { intros Heq. apply Hne. rewrite <- Heq.
      apply elem_of_app in Hs as [Hs|Hs].
      - apply elem_of_app. left. apply list_elem_of_fmap; eauto.
      - apply elem_of_app. right. apply list_elem_of_further.
        apply list_elem_of_fmap; eauto. }
    rewrite section_key_nonempty by done.
    apply elem_of_app in Hs as [Hs|Hs]; intros Heq.
    - apply (Hdis s.1); [apply list_elem_of_fmap; eauto|].
      rewrite Heq. apply list_elem_of_here.
    - apply Hs2. rewrite <- Heq. apply list_elem_of_fmap; eauto. }
  set (g1 := foldl _ f0 l1).
  assert (sec ∈ g1) as Hin1.
  { apply prune_fold_keeps.
    - unfold f0. rewrite elem_of_app. right. apply list_elem_of_here.
    - intros s Hs. apply Hother. rewrite elem_of_app. by left. }
  destruct (should_prune urls g1 sec) eqn:Hsp.
  - split; [|done]. intros Hin.
    apply (λ H, elem_of_sublist _ _ _ H (prune_fold_sublist urls l2 _)) in Hin.
    apply DeleteSection_elem in Hin as [_ Hn].
    unfold Name in Hn. by rewrite section_key_nonempty in Hn.
  - split; [done|]. intros _. apply prune_fold_keeps; [done|].
    intros s Hs. apply Hother. rewrite elem_of_app. by right.
Qed.

(** A section whose verdict is the same in every document the pass can
    reach. *)
Lemma prune_verdict_fixed urls (f : File) sec (b : bool) :
  wf_file f → sec ∈ f →
  (∀ g, g `sublist_of` f → should_prune urls g sec = b) →
  sec ∈ pruned_by_name urls f ↔ b = false.
Proof.
  intros Hwf Hin Hfixed.
  apply list_elem_of_split in Hin as (l1 & l2 & ->).
  rewrite prune_verdict by done.
  rewrite Hfixed by apply prune_fold_sublist. done.
Qed.

(** ** A second pruning pass *)

(** What the deletion of a section changes for the look-up in the parents:
    nothing, unless the section deleted is the parent that held the key. *)
Lemma GetKey_in_delete (g : File) t ps k :
  NoDup g.*1 → t ∈ g → t.1 ≠ "" →
  GetKey_in (DeleteSection g t.1) ps k = GetKey_in g ps k
  ∨ ∃ v p, p ∈ ps ∧ section_key p = t.1 ∧ own_key t k = Some v
           ∧ GetKey_in g ps k = Some (t.1, v).
Proof.
  intros Hnd Ht Hne. induction ps as [|q ps IH]; [by left|].
  cbn [GetKey_in].
  destruct (decide (section_key q = t.1)) as [Hq|Hq].
  - rewrite GetSection_DeleteSection_eq
      by (by rewrite (section_key_nonempty t.1)).
    rewrite (GetSection_elem g t q) by done.
    destruct (own_key t k) as [v|] eqn:Hown.
    + right. exists v, q. split; [apply list_elem_of_here|done].
    + destruct IH as [IH|(v & p & Hp & ? & ? & ?)]; [by left|].
      right. exists v, p. split; [by apply list_elem_of_further|done].
  - rewrite GetSection_DeleteSection_ne
      by (by rewrite (section_key_nonempty t.1)).
    destruct (GetSection g q) as [s|].
    + destruct (own_key s k); [by left|].
      destruct IH as [IH|(v & p & Hp & ? & ? & ?)]; [by left|].
      right. exists v, p. split; [by apply list_elem_of_further|done].
    + destruct IH as [IH|(v & p & Hp & ? & ? & ?)]; [by left|].
      right. exists v, p. split; [by apply list_elem_of_further|done].
Qed.

Lemma GetKey_delete (g : File) t s k :
  NoDup g.*1 → t ∈ g → t.1 ≠ "" →
  GetKey (DeleteSection g t.1) s k = GetKey g s k
  ∨ ∃ v p, p ∈ parents s.1 ∧ section_key p = t.1 ∧ own_key t k = Some v
           ∧ GetKey g s k = Some (t.1, v).
Proof.
  intros Hnd Ht Hne. unfold GetKey. destruct (own_key s k); [by left|].
  by apply GetKey_in_delete.
Qed.

(** A key that is not found from a section is not found from its parents. *)
Lemma GetKey_parent_None (g : File) t s p k :
  NoDup g.*1 → t ∈ g → p ∈ parents s.1 → section_key p = t.1 →
  GetKey g s k = None → GetKey g t k = None.
Proof.
  intros Hnd Ht Hp Hpt. unfold GetKey.
  destruct (own_key s k); [done|]. intros Hnone.
  pose proof (proj1 (GetKey_in_None _ _ _) Hnone) as Hall.
  rewrite (Hall p t Hp) by (by apply GetSection_elem).
  apply GetKey_in_None. intros q sec Hq Hsec.
  apply (Hall q sec); [|done].
  apply (parents_trans _ p); [done|].
  unfold Name in Hq. by rewrite <- Hpt, parents_section_key in Hq.
Qed.

(** Deleting a section that satisfies the condition does not make another
    section satisfy it. *)
Lemma should_prune_after_delete urls (g : File) t s :
  wf_file g → t ∈ g →
  should_prune urls g t = true →
  should_prune urls g s = false →
  should_prune urls (DeleteSection g (Name t)) s = false.
Proof.
  intros [Hnd Hne] Ht Hspt Hsps.
  assert (t.1 ≠ "") as Ht1.
  { intros Heq. apply Hne. rewrite <- Heq. apply list_elem_of_fmap; eauto. }
  destruct (should_prune urls (DeleteSection g (Name t)) s) eqn:Hsp';
    [|done].
  exfalso. unfold should_prune in *. unfold Name in *.
  apply andb_true_iff in Hsp' as [Hm' Hu'].
  apply bool_decide_eq_true in Hu'.
  apply andb_true_iff in Hspt as [Hmt Hut].
  apply bool_decide_eq_true in Hut.
  (* the marker was found before the deletion too *)
  assert (HasKey g s "common_fate_generated_from" = true) as Hm.
  { unfold HasKey in *.
    destruct (GetKey_delete g t s "common_fate_generated_from" Hnd Ht Ht1)
      as [Heq|(v & p & _ & _ & _ & ->)]; [by rewrite <- Heq|done]. }
  rewrite Hm in Hsps. cbn [andb] in Hsps.
  apply bool_decide_eq_false in Hsps. apply Hsps.
  rewrite section_startURL_GetKey in Hu', Hut |- *.
  destruct (GetKey_delete g t s "granted_sso_start_url" Hnd Ht Ht1)
    as [Hg|(v & p & Hp & Hpt & Hown & Hg)].
  2:{ rewrite Hg. by rewrite (GetKey_own g t _ v Hown) in Hut. }
  rewrite Hg in Hu'.
  destruct (GetKey g s "granted_sso_start_url") as [[? ?]|] eqn:Hgs; [done|].
  destruct (GetKey_delete g t s "sso_start_url" Hnd Ht Ht1)
    as [Hs|(v & p & Hp & Hpt & Hown & Hs)].
  { by rewrite Hs in Hu'. }
  rewrite Hs.
  rewrite (GetKey_parent_None g t s p _ Hnd Ht Hp Hpt Hgs) in Hut.
  by rewrite (GetKey_own g t _ v Hown) in Hut.
Qed.

(** After the pass no section of the document satisfies the condition. *)
Lemma prune_fold_settled urls (l g : File) (visited : list IniSection) :
  wf_file g → NoDup l.*1 → (∀ s, s ∈ l → s ∈ g) →
  (∀ s, s ∈ visited → s ∈ g → should_prune urls g s = false) →
  let r := foldl (λ g sec, if should_prune urls g sec
                           then DeleteSection g (Name sec) else g) g l in
  ∀ s, s ∈ visited ++ l → s ∈ r → should_prune urls r s = false.
Proof.
  cbn zeta. revert g visited.
  induction l as [|t l IH]; intros g visited Hwf Hnd Hl Hv.
  { intros s. rewrite app_nil_r. apply Hv. }
  cbn [foldl]. rewrite fmap_cons in Hnd. apply NoDup_cons in Hnd as [Ht Hnd].
  assert (t ∈ g) as Htg by apply Hl, list_elem_of_here.
  assert (t.1 ≠ "") as Ht1.
  { intros Heq. destruct Hwf as [_ Hne]. apply Hne. rewrite <- Heq.
    apply list_elem_of_fmap; eauto. }
  assert (Hmem : ∀ s, s ∈ visited ++ t :: l → s ∈ (visited ++ [t]) ++ l).
  { intros s Hs. by rewrite <- (assoc app). }
  destruct (should_prune urls g t) eqn:Hsp.
  - intros s Hs. apply Hmem in Hs. revert s Hs. apply IH.
    + eapply wf_sublist; [apply DeleteSection_sublist|done].
    + done.
    + intros s Hs. apply DeleteSection_elem.
      split; [apply Hl; by apply list_elem_of_further|].
      unfold Name. rewrite section_key_nonempty by done.
      intros Heq. apply Ht. rewrite <- Heq. apply list_elem_of_fmap; eauto.
    + intros s Hs Hin. apply DeleteSection_elem in Hin as [Hin Hne].
      unfold Name in Hne. rewrite section_key_nonempty in Hne by done.
      apply elem_of_app in Hs as [Hs|Hs].
      * apply should_prune_after_delete; auto.
      * apply elem_of_cons in Hs as [->|Hs]; [done|].
        by apply elem_of_nil in Hs.
  - intros s Hs. apply Hmem in Hs. revert s Hs. apply IH; [done|done| |].
    + intros s Hs. apply Hl. by apply list_elem_of_further.
    + intros s Hs Hin. apply elem_of_app in Hs as [Hs|Hs]; [auto|].
      apply elem_of_cons in Hs as [->|Hs]; [done|].
      by apply elem_of_nil in Hs.
Qed.

Lemma pruned_by_name_settled urls (f : File) :
  wf_file f →
  pruned_by_name urls (pruned_by_name urls f) = pruned_by_name urls f.
Proof.
  intros Hwf. unfold pruned_by_name at 1. apply prune_fold_nothing.
  intros s Hs.
  pose proof (prune_fold_settled urls f f [] Hwf (proj1 Hwf)) as Hsettled.
  cbn zeta in Hsettled. apply Hsettled.
  - done.
  - intros ? H. by apply elem_of_nil in H.
  - cbn [app]. by apply pruned_by_name_elem in Hs.
  - exact Hs.
Qed.

Lemma wf_pruned_by_name urls (f : File) :
  wf_file f → wf_file (pruned_by_name urls f).
Proof. apply wf_sublist, pruned_by_name_sublist. Qed.







Lemma stable_insert_Permutation {A} (less : A → A → bool) x l :
  stable_insert less x l ≡ₚ x :: l.
Proof.
  induction l as [|y l IH]; cbn; [done|].
  destruct (less y x); [|done]. rewrite IH. apply Permutation_swap.
Qed.

Lemma SliceStable_Permutation {A} (less : A → A → bool) l :
  SliceStable less l ≡ₚ l.
Proof.
  induction l as [|x l IH]; cbn; [done|].
  rewrite stable_insert_Permutation. by rewrite IH.
Qed.





Lemma normalizeAccountName_idemp s :
  normalizeAccountName (normalizeAccountName s) = normalizeAccountName s.
Proof.
  induction s as [|c s IH]; cbn; [done|]. rewrite IH. f_equal.
  destruct (decide (c = " "%char)); [done|]. by destruct (decide (c = " "%char)).
Qed.


(** ** The names of the duplicate report *)

Lemma slices_Sort_Permutation l : slices_Sort l ≡ₚ l.
Proof. apply merge_sort_Permutation. Qed.

Lemma slices_Sort_sorted l : StronglySorted String.le (slices_Sort l).
Proof. apply StronglySorted_merge_sort; apply _. Qed.

Lemma occurrences_Permutation name l l' :
  l ≡ₚ l' → occurrences name l = occurrences name l'.
Proof. intros Hp. unfold occurrences. by rewrite Hp. Qed.

Lemma occurrences_cons name x l :
  occurrences name (x :: l)
  = (if decide (x = name) then 1 else 0) + occurrences name l.
Proof. unfold occurrences. rewrite filter_cons. by destruct (decide _). Qed.

Lemma occurrences_pos name l : 0 < occurrences name l ↔ name ∈ l.
Proof.
  induction l as [|x l IH]; [split; [cbn; lia | by intros ?%elem_of_nil]|].
  rewrite occurrences_cons, elem_of_cons.
  destruct (decide (x = name)) as [->|Hne]; [split; [by left | lia]|].
  cbn. rewrite IH. split; [by right | intros [?|?]; congruence].
Qed.

Lemma occurrences_NoDup name l : NoDup l → occurrences name l ≤ 1.
Proof.
  induction 1 as [|x l Hx Hnd IH]; [cbn; lia|].
  rewrite occurrences_cons. destruct (decide (x = name)) as [->|]; [|lia].
  assert (¬ 0 < occurrences name l) by (by rewrite occurrences_pos). lia.
Qed.

(** In a sorted list the elements equal to their predecessor are those that
    occur twice or more. *)
Lemma adjacent_dupes_sorted name l :
  StronglySorted String.le l →
  name ∈ adjacent_dupes l ↔ 2 ≤ occurrences name l.
Proof.
  induction 1 as [|x l Hs IH Hx]; [split; [by intros ?%elem_of_nil | cbn; lia]|].
  rewrite occurrences_cons. cbn [adjacent_dupes].
  destruct l as [|y l].
  { split; [by intros ?%elem_of_nil|]. cbn. destruct (decide _); cbn; lia. }
  destruct (decide (y = x)) as [->|Hyx].
  - rewrite elem_of_cons, IH. rewrite occurrences_cons.
    destruct (decide (x = name)) as [->|]; [|split; [intros [?|?]; [done|lia] | by right]].
    split; [intros _; lia | by left].
  - rewrite IH. destruct (decide (x = name)) as [->|]; [|done].
    split; [lia|]. intros Hocc. exfalso.
    assert (0 < occurrences name (y :: l)) as Hin by lia.
    apply occurrences_pos in Hin.
    apply StronglySorted_inv in Hs as [_ Hy].
    apply elem_of_cons in Hin as [->|Hin]; [done|].
    rewrite Forall_forall in Hy. rewrite Forall_forall in Hx.
    apply Hyx. apply (anti_symm String.le).
    + by apply Hy.
    + apply Hx. apply list_elem_of_here.
Qed.

Lemma slices_Compact_elem name l : name ∈ slices_Compact l ↔ name ∈ l.
Proof.
  induction l as [|x l IH]; [done|]. cbn [slices_Compact].
  destruct l as [|y l]; [done|].
  destruct (decide (x = y)) as [->|Hne].
  - rewrite IH, !elem_of_cons. tauto.
  - rewrite elem_of_cons, IH, !elem_of_cons. tauto.
Qed.

Lemma slices_Compact_sorted l :
  StronglySorted String.le l →
  StronglySorted String.le (slices_Compact l) ∧ NoDup (slices_Compact l).
Proof.
  induction 1 as [|x l Hs [IHs IHn] Hx]; [split; constructor|].
  cbn [slices_Compact]. destruct l as [|y l].
  { split; [repeat constructor | apply NoDup_singleton]. }
  destruct (decide (x = y)) as [->|Hne]; [done|].
  assert (Hall : Forall (String.le x) (slices_Compact (y :: l))).
  { rewrite Forall_forall. intros z Hz.
    apply (proj1 (slices_Compact_elem _ _)) in Hz.
    rewrite Forall_forall in Hx. by apply Hx. }
  split; [by constructor|]. apply NoDup_cons. split; [|done].
  intros Hin. apply (proj1 (slices_Compact_elem _ _)) in Hin.
  apply elem_of_cons in Hin as [->|Hin]; [done|].
  apply StronglySorted_inv in Hs as [_ Hy].
  rewrite Forall_forall in Hy. rewrite Forall_forall in Hx.
  apply Hne. apply (anti_symm String.le).
  - apply Hx, list_elem_of_here.
  - by apply Hy.
Qed.

(** The names of the report are the names seen twice or more, each once, in
    increasing order. *)
Lemma duplicate_names_spec seen :
  NoDup (duplicate_names seen)
  ∧ StronglySorted String.le (duplicate_names seen)
  ∧ ∀ name, name ∈ duplicate_names seen ↔ 2 ≤ occurrences name seen.
Proof.
  unfold duplicate_names.
  destruct (slices_Compact_sorted _
              (slices_Sort_sorted (adjacent_dupes (slices_Sort seen))))
    as [Hs Hn].
  split; [done|]. split; [done|]. intros name.
  rewrite slices_Compact_elem.
  rewrite (slices_Sort_Permutation (adjacent_dupes (slices_Sort seen))).
  rewrite adjacent_dupes_sorted by apply slices_Sort_sorted.
  by rewrite (occurrences_Permutation _ _ _ (slices_Sort_Permutation seen)).
Qed.

Lemma duplicate_names_NoDup seen : NoDup seen → duplicate_names seen = [].
Proof.
  intros Hnd. destruct (duplicate_names seen) as [|x l] eqn:Hd; [done|].
  exfalso. pose proof (duplicate_names_spec seen) as (_ & _ & Hiff).
  pose proof (occurrences_NoDup x seen Hnd).
  assert (2 ≤ occurrences x seen); [|lia].
  apply Hiff. rewrite Hd. apply list_elem_of_here.
Qed.

(** ** The loop without and with preference patterns *)

(** ** The loop over the account profiles *)

Section Loop.
Context {TE : TemplateEngine} {RE : RegexEngine}.

Lemma default_region_role opts a :
  RoleName (with_default_region opts a) = RoleName a.
Proof. unfold with_default_region. by destruct (decide _). Qed.

Lemma Key_names f sec k : ((Key f sec k).2).*1 = f.*1.
Proof.
  unfold Key. destruct (GetKey f sec k) as [[? ?]|]; [done|].
  apply SetSection_names.
Qed.

Lemma after_role_read_names f sec : (after_role_read f sec).*1 = f.*1.
Proof.
  unfold after_role_read. destruct (HasKey _ _ _); [done|]. apply Key_names.
Qed.

Lemma section_role_read f sec role :
  section_role f sec = Some role →
  existing_role f sec = role ∧ after_role_read f sec = f.
Proof.
  unfold section_role, existing_role, after_role_read.
  destruct (HasKey f sec "granted_sso_role_name"); [by intros [= <-]|].
  unfold HasKey, Key.
  destruct (GetKey f sec "sso_role_name") as [[? ?]|]; [|done].
  by intros [= <-].
Qed.

(** What is done for a name already seen when preference patterns are
    given. *)
Lemma resolve_seen_spec opts profileName sectionName thisRoleName w :
  resolve_seen opts profileName sectionName thisRoleName w
  = match GetSection (wConfig w) sectionName with
    | None => (w, Err (ErrSectionNotExist sectionName))
    | Some sec =>
        let w1 := with_config w (after_role_read (wConfig w) sec) in
        match preferRoles_loop (PreferRoles opts) thisRoleName
                (existing_role (wConfig w) sec) with
        | None => (w1, Panicked)
        | Some true => (w1, Ok (Some true))
        | Some false =>
            (with_line w1 INFO (skip_message profileName), Ok None)
        end
    end.
Proof.
  unfold resolve_seen. rewrite bind_run. unfold get_config at 1.
  destruct (GetSection (wConfig w) sectionName) as [sec|]; [|done].
  cbn zeta. rewrite bind_run. unfold existing_role, after_role_read.
  destruct (HasKey (wConfig w) sec "granted_sso_role_name").
  - unfold mret at 1. unfold M_ret at 1. rewrite with_config_id.
    destruct (preferRoles_loop _ _ _) as [[|]|]; [done| |done].
    cbn [negb]. rewrite bind_run. done.
  - destruct (Key (wConfig w) sec "sso_role_name") as [v f'].
    rewrite bind_run. unfold put_config at 1. unfold mret at 1.
    unfold M_ret at 1. cbn [fst snd].
    destruct (preferRoles_loop _ _ _) as [[|]|]; [done| |done].
    cbn [negb]. rewrite bind_run. done.
Qed.

(** The body of the loop for a name seen before, with patterns. *)
Lemma write_profile_seen opts tmpl ssn vars a w rendered :
  template_Execute tmpl (prepared ssn a) = Some rendered →
  Prefix opts +:+ rendered ∈ seenProfileNames vars →
  PreferRoles opts ≠ [] →
  let profileName := Prefix opts +:+ rendered in
  let sectionName := "profile " +:+ profileName in
  write_profile opts tmpl ssn vars a w
  = match GetSection (wConfig w) sectionName with
    | None => (w, Err (ErrSectionNotExist sectionName))
    | Some sec =>
        let w1 := with_config w (after_role_read (wConfig w) sec) in
        match preferRoles_loop (PreferRoles opts) (RoleName a)
                (existing_role (wConfig w) sec) with
        | None => (w1, Panicked)
        | Some true =>
            (with_config w1
               (written (wConfig w1) sectionName
                  (profile_entry opts ssn a profileName)), Ok vars)
        | Some false =>
            (with_line w1 INFO (skip_message profileName), Ok vars)
        end
    end.
Proof.
  intros Hexec Hseen Hp. cbn zeta. unfold write_profile.
  fold (prepared ssn a). rewrite Hexec.
  fold (with_default_region opts (prepared ssn a)). cbn zeta.
  rewrite (bool_decide_eq_true_2 _ Hseen).
  rewrite bool_decide_eq_true_2
    by (destruct (PreferRoles opts); [done | cbn; lia]).
  cbn [andb]. rewrite bind_run, resolve_seen_spec, default_region_role.
  destruct (GetSection (wConfig w) _) as [sec|]; [|done]. cbn zeta.
  destruct (preferRoles_loop _ _ _) as [[|]|]; [|done|done].
  rewrite bind_run, write_section_spec by apply profile_section_nonempty.
  done.
Qed.

(** The body of the loop for a name not seen before: the section is written
    and the name and the role are recorded. *)
Lemma write_profile_fresh opts tmpl ssn vars a w pn :
  profileName_of opts tmpl ssn a = Some pn →
  pn ∉ seenProfileNames vars →
  write_profile opts tmpl ssn vars a w
  = (with_config w (written (wConfig w) ("profile " +:+ pn)
                      (profile_entry opts ssn a pn)),
     Ok (record_role vars pn (RoleName a))).
Proof.
  unfold profileName_of, write_profile. fold (prepared ssn a).
  destruct (template_Execute tmpl (prepared ssn a)) as [rendered|]; [|done].
  intros [= <-] Hfresh.
  fold (with_default_region opts (prepared ssn a)). cbn zeta.
  rewrite (bool_decide_eq_false_2 _ Hfresh). cbn [andb].
  rewrite bind_run. unfold mret at 1. unfold M_ret at 1.
  rewrite bind_run, write_section_spec by apply profile_section_nonempty.
  unfold mret, M_ret, record_role, profile_entry.
  by rewrite default_region_role.
Qed.

Lemma write_profile_noprefs opts tmpl ssn vars a w :
  PreferRoles opts = [] →
  write_profile opts tmpl ssn vars a w
  = match profileName_of opts tmpl ssn a with
    | None => (w, Err ErrTemplateExecute)
    | Some pn =>
        (with_config w (written (wConfig w) ("profile " +:+ pn)
                          (profile_entry opts ssn a pn)),
         Ok (record_role vars pn (RoleName a)))
    end.
Proof.
  intros Hp. unfold write_profile, profileName_of. fold (prepared ssn a).
  destruct (template_Execute tmpl (prepared ssn a)) as [rendered|]; [|done].
  fold (with_default_region opts (prepared ssn a)). cbn zeta.
  cbn [fmap option_fmap option_map].
  rewrite Hp. cbn [length]. rewrite (bool_decide_eq_false_2 (0 < 0)) by lia.
  rewrite andb_false_r. unfold mbind, M_bind, mret, M_ret.
  rewrite write_section_spec by apply profile_section_nonempty.
  unfold record_role, profile_entry. by rewrite default_region_role.
Qed.

Lemma write_profile_execute_error opts tmpl ssn vars a w :
  template_Execute tmpl (prepared ssn a) = None →
  write_profile opts tmpl ssn vars a w = (w, Err ErrTemplateExecute).
Proof.
  intros Hexec. unfold write_profile. fold (prepared ssn a). by rewrite Hexec.
Qed.

(** The three ways the body goes, by the name rendered. *)
Lemma write_profile_cases opts tmpl ssn vars a w :
  (template_Execute tmpl (prepared ssn a) = None
   ∧ write_profile opts tmpl ssn vars a w = (w, Err ErrTemplateExecute))
  ∨ (∃ pn, profileName_of opts tmpl ssn a = Some pn
           ∧ write_profile opts tmpl ssn vars a w
             = (with_config w (written (wConfig w) ("profile " +:+ pn)
                                 (profile_entry opts ssn a pn)),
                Ok (record_role vars pn (RoleName a)))
           ∧ (pn ∉ seenProfileNames vars ∨ PreferRoles opts = []))
  ∨ (∃ rendered,
       template_Execute tmpl (prepared ssn a) = Some rendered
       ∧ Prefix opts +:+ rendered ∈ seenProfileNames vars
       ∧ PreferRoles opts ≠ []).
Proof.
  destruct (template_Execute tmpl (prepared ssn a)) as [rendered|] eqn:Hexec.
  2:{ left. split; [done|]. by apply write_profile_execute_error. }
  right.
  assert (profileName_of opts tmpl ssn a = Some (Prefix opts +:+ rendered))
    as Hpn by (unfold profileName_of; by rewrite Hexec).
  destruct (decide (PreferRoles opts = [])) as [Hp|Hp].
  { left. exists (Prefix opts +:+ rendered). split; [done|].
    split; [|by right]. rewrite write_profile_noprefs by done.
    by rewrite Hpn. }
  destruct (decide (Prefix opts +:+ rendered ∈ seenProfileNames vars))
    as [Hseen|Hseen].
  - right. by exists rendered.
  - left. exists (Prefix opts +:+ rendered). split; [done|].
    split; [|by left]. by apply write_profile_fresh.
Qed.

Lemma seen_present_no_vars f : seen_present no_vars f.
Proof. intros pn H. by apply elem_of_nil in H. Qed.

Lemma seen_present_names vars (f g : File) :
  (∀ x, x ∈ f.*1 → x ∈ g.*1) → seen_present vars f → seen_present vars g.
Proof. intros Hsub Hs pn Hpn. by apply Hsub, Hs. Qed.

(** The body of the loop returns no error of a section operation, and the
    names seen keep their sections. *)
Lemma write_profile_seen_present opts tmpl ssn vars a w :
  seen_present vars (wConfig w) →
  no_section_error (write_profile opts tmpl ssn vars a w).2
  ∧ ∀ vars', (write_profile opts tmpl ssn vars a w).2 = Ok vars' →
      seen_present vars' (wConfig (write_profile opts tmpl ssn vars a w).1).
Proof.
  intros Hs.
  destruct (write_profile_cases opts tmpl ssn vars a w)
    as [[_ ->]|[(pn & Hpn & -> & _)|(rendered & Hexec & Hseen & Hp)]].
  - done.
  - split; [done|]. intros vars' [= <-]. cbn [fst wConfig with_config].
    intros pn' Hpn'. cbn [record_role seenProfileNames] in Hpn'.
    apply elem_of_app in Hpn' as [Hpn'|Hpn'].
    + apply written_names_kept; [done|]. by apply Hs.
    + apply elem_of_cons in Hpn' as [->|Hpn']; [|by apply elem_of_nil in Hpn'].
      rewrite written_names, elem_of_app. right. apply list_elem_of_here.
  - rewrite (write_profile_seen _ _ _ _ _ _ rendered) by done. cbn zeta.
    destruct (GetSection (wConfig w) _) as [sec|] eqn:Hget.
    2:{ exfalso. apply GetSection_None in Hget. apply Hget.
        rewrite profile_section_key. by apply Hs. }
    destruct (preferRoles_loop _ _ _) as [[|]|]; [| |done].
    + split; [done|]. intros vars' [= <-]. cbn [fst wConfig with_config].
      intros pn' Hpn'. apply written_names_kept; [done|].
      rewrite after_role_read_names. by apply Hs.
    + split; [done|]. intros vars' [= <-].
      cbn [fst wConfig with_config with_line].
      intros pn' Hpn'. rewrite after_role_read_names. by apply Hs.
Qed.

Lemma write_loop_no_section_error opts tmpl ssn ps vars w :
  seen_present vars (wConfig w) →
  no_section_error (for_range_with (write_profile opts tmpl ssn) vars ps w).2.
Proof.
  revert vars w. induction ps as [|a ps IH]; intros vars w Hs; [done|].
  cbn [for_range_with]. rewrite bind_run.
  destruct (write_profile_seen_present opts tmpl ssn vars a w Hs) as [Hn Hk].
  destruct (write_profile opts tmpl ssn vars a w) as [w1 [vars1| |]];
    [|done|done].
  apply IH. by apply Hk.
Qed.

(** Without preference patterns every profile whose name is rendered is
    written and recorded, in the order of processing. *)
Lemma noprefs_loop opts tmpl ssn ps vars w w' vars' :
  PreferRoles opts = [] →
  for_range_with (write_profile opts tmpl ssn) vars ps w = (w', Ok vars') →
  seenProfileNames vars'
  = seenProfileNames vars ++ omap (profileName_of opts tmpl ssn) ps
  ∧ (∀ name,
       default [] (profileNameToRoles vars' !! name)
       = default [] (profileNameToRoles vars !! name)
         ++ (RoleName <$> filter (λ a, profileName_of opts tmpl ssn a = Some name)
                                 ps))
  ∧ wLog w' = wLog w.
Proof.
  intros Hp. revert vars w. induction ps as [|a ps IH]; intros vars w.
  - intros [= <- <-]. split; [by rewrite app_nil_r|].
    split; [intros; by rewrite app_nil_r | done].
  - cbn [for_range_with]. unfold mbind, M_bind.
    rewrite write_profile_noprefs by done.
    destruct (profileName_of opts tmpl ssn a) as [pn|] eqn:Hpn; [|done].
    intros Hloop. destruct (IH _ _ Hloop) as (Hseen & Hroles & Hlog).
    cbn [omap list_omap]. rewrite Hpn. split; [|split].
    + rewrite Hseen. cbn. by rewrite <- (assoc app).
    + intros name. rewrite Hroles. cbn [record_role profileNameToRoles].
      rewrite filter_cons. destruct (decide (pn = name)) as [->|Hne].
      * rewrite lookup_insert_eq. rewrite decide_True by done. cbn.
        by rewrite <- (assoc app).
      * rewrite lookup_insert_ne by done.
        rewrite decide_False by congruence. done.
    + by rewrite Hlog.
Qed.

Lemma occurrences_omap {A} (f : A → option string) name (l : list A) :
  occurrences name (omap f l) = length (filter (λ a, f a = Some name) l).
Proof.
  induction l as [|a l IH]; [done|]. cbn [omap list_omap].
  rewrite filter_cons. destruct (f a) as [n|] eqn:Hf.
  - rewrite occurrences_cons, IH.
    destruct (decide (n = name)) as [->|Hne].
    + by rewrite decide_True.
    + rewrite decide_False by congruence. done.
  - rewrite decide_False by done. done.
Qed.

Lemma warn_lines_spec (f : string → string) names w :
  for_range (λ name, logf WARN (f name)) names w
  = ({| wConfig := wConfig w;
        wLog := wLog w ++ ((λ name, (WARN, f name)) <$> names) |}, Ok tt).
Proof.
  revert w. induction names as [|n names IH]; intros w; cbn [for_range].
  - cbn. rewrite app_nil_r. by destruct w.
  - unfold mbind, M_bind, logf at 1. rewrite IH. cbn.
    by rewrite <- (assoc app).
Qed.

Lemma report_duplicates_spec vars w :
  report_duplicates vars w
  = ({| wConfig := wConfig w;
        wLog := wLog w ++
          match duplicate_names (seenProfileNames vars) with
          | [] => []
          | names =>
              (WARN, duplicate_header)
              :: ((λ name, (WARN, duplicate_line name
                     (default [] (profileNameToRoles vars !! name))))
                  <$> names)
          end |}, Ok tt).
Proof.
  unfold report_duplicates. cbn zeta.
  fold (duplicate_names (seenProfileNames vars)).
  destruct (duplicate_names (seenProfileNames vars)) as [|n names] eqn:Hd.
  - cbn. rewrite app_nil_r. by destruct w.
  - rewrite bool_decide_eq_true_2 by (cbn; lia).
    unfold mbind, M_bind, logf at 1.
    rewrite (warn_lines_spec (λ dup, "Profile " +:+ dup +:+ " has roles: " +:+
               strings_Join (default [] (profileNameToRoles vars !! dup)) ", ")).
    cbn [wConfig wLog]. unfold duplicate_line, duplicate_header.
    by rewrite <- (assoc app).
Qed.

Lemma warnings_app l l' : warnings (l ++ l') = warnings l ++ warnings l'.
Proof. unfold warnings. by rewrite filter_app, fmap_app. Qed.

(** With preference patterns no name is recorded twice and the loop logs no
    warning. *)
Lemma prefs_loop opts tmpl ssn ps vars w :
  PreferRoles opts ≠ [] →
  NoDup (seenProfileNames vars) →
  warnings (wLog (for_range_with (write_profile opts tmpl ssn) vars ps w).1)
  = warnings (wLog w)
  ∧ ∀ vars',
      (for_range_with (write_profile opts tmpl ssn) vars ps w).2 = Ok vars' →
      NoDup (seenProfileNames vars').
Proof.
  intros Hp. revert vars w. induction ps as [|a ps IH]; intros vars w Hnd.
  - split; [done|]. by intros vars' [= <-].
  - cbn [for_range_with]. rewrite bind_run.
    assert (warnings (wLog (write_profile opts tmpl ssn vars a w).1)
            = warnings (wLog w)
            ∧ ∀ vars1, (write_profile opts tmpl ssn vars a w).2 = Ok vars1 →
                NoDup (seenProfileNames vars1)) as [Hw Hn].
    { destruct (write_profile_cases opts tmpl ssn vars a w)
        as [[_ ->]|[(pn & Hpn & -> & [Hfresh|?])
                   |(rendered & Hexec & Hseen & _)]]; [done| |done|].
      - split; [done|]. intros ? [= <-]. cbn.
        apply NoDup_app. split; [done|]. split; [|apply NoDup_singleton].
        intros x Hx Hx'. apply list_elem_of_singleton in Hx'. by subst.
      - rewrite (write_profile_seen _ _ _ _ _ _ rendered) by done. cbn zeta.
        destruct (GetSection (wConfig w) _) as [sec|]; [|done].
        destruct (preferRoles_loop _ _ _) as [[|]|]; [| |done].
        + split; [done|]. by intros ? [= <-].
        + split; [|by intros ? [= <-]]. cbn [fst with_line with_config wLog].
          rewrite warnings_app. cbn. by rewrite app_nil_r. }
    destruct (write_profile opts tmpl ssn vars a w) as [w1 [vars1| |]];
      [|by split..].
    cbn [fst snd] in *.
    destruct (IH vars1 w1) as [Hw' Hn']; [by apply Hn|].
    split; [by rewrite Hw'|done].
Qed.

(** When the patterns the loop compiles do compile, the loop over the
    patterns returns what the first pattern that tells the two roles apart
    says. *)
Lemma preferRoles_loop_spec patterns thisRole existingRole :
  Forall compiles (consulted patterns thisRole existingRole) →
  preferRoles_loop patterns thisRole existingRole
  = Some match first_distinguishing patterns thisRole existingRole with
         | Some pattern => matches pattern thisRole
         | None => true
         end.
Proof.
  unfold first_distinguishing.
  induction patterns as [|p patterns IH]; [done|].
  cbn [preferRoles_loop find consulted].
  destruct (xorb (matches p thisRole) (matches p existingRole)) eqn:Hx;
    intros Hall; apply Forall_cons in Hall as [[r Hr] Hall].
  - rewrite Hr. unfold matches in *. rewrite Hr in *.
    destruct (MatchString r thisRole), (MatchString r existingRole); done.
  - rewrite Hr. unfold matches in Hx |- *. rewrite Hr in Hx.
    destruct (MatchString r thisRole), (MatchString r existingRole);
      cbn [andb negb]; try done; by apply IH.
Qed.

(** A pattern that does not compile, reached before any pattern has told the
    two roles apart, makes the loop panic. *)
Lemma preferRoles_loop_panic patterns bad rest thisRole existingRole :
  Forall compiles patterns →
  first_distinguishing patterns thisRole existingRole = None →
  regexp2_Compile bad = None →
  preferRoles_loop (patterns ++ bad :: rest) thisRole existingRole = None.
Proof.
  unfold first_distinguishing.
  induction 1 as [|p patterns [r Hr] Hall IH]; cbn [app preferRoles_loop find].
  - intros _ ->. done.
  - rewrite Hr. unfold matches at 1 2. rewrite Hr.
    destruct (MatchString r thisRole), (MatchString r existingRole);
      cbn [xorb andb negb]; try done; apply IH.
Qed.

End Loop.

(** ** The run as a whole *)

Section Whole.
Context {TE : TemplateEngine} {RE : RegexEngine}.

Lemma separate_unsupported profiles ssoSessions accountProfiles :
  POther ∈ profiles → separate profiles ssoSessions accountProfiles = None.
Proof.
  revert ssoSessions accountProfiles.
  induction profiles as [|p profiles IH]; intros ss aps Hin.
  - by apply elem_of_nil in Hin.
  - apply elem_of_cons in Hin as [<-|Hin]; [done|].
    destruct p; cbn; auto.
Qed.

Lemma Merge_unfold opts ss aps tmpl :
  separate (Profiles opts) [] [] = Some (ss, aps) →
  template_Parse (effective_template opts) = Some tmpl →
  Merge opts
  = merge_after_prune opts tmpl ss (SliceStable combinedName_less aps)
      {| wConfig := pruned_by_name (PruneStartURLs opts) (Config opts);
         wLog := [] |}.
Proof.
  intros Hsep Hparse. unfold Merge. rewrite Hsep.
  unfold effective_template in Hparse. cbn zeta. rewrite Hparse.
  unfold mbind at 1. unfold M_bind at 1. by rewrite prune_by_name.
Qed.

Lemma write_session_spec opts s w :
  write_session opts s w
  = (with_config w (written (wConfig w) (session_section_name s)
                      (SSOSession_ToIni s "" false)), Ok tt).
Proof.
  unfold write_session. cbn zeta.
  rewrite write_section_spec by done. reflexivity.
Qed.

Lemma sessions_loop_ok opts ss w :
  (for_range (write_session opts) ss w).2 = Ok tt.
Proof.
  revert w. induction ss as [|s ss IH]; intros w; [done|].
  cbn [for_range]. rewrite bind_run, write_session_spec. apply IH.
Qed.

Lemma implicit_session_created opts created ps w :
  created !! implicit_session_name opts = Some true →
  for_range_update (implicit_session opts) created ps w
  = (w, Ok (created, ps)).
Proof.
  intros Hc. revert w. induction ps as [|a ps IH]; intros w; [done|].
  cbn [for_range_update]. unfold mbind at 1. unfold M_bind at 1.
  assert (implicit_session opts created a w = (w, Ok (created, a))) as ->.
  { unfold implicit_session. destruct (decide _); [done|].
    fold (implicit_session_name opts). by rewrite Hc. }
  unfold mbind, M_bind. by rewrite IH.
Qed.

Lemma implicit_pass_spec opts accountProfiles w :
  for_range_update (implicit_session opts) ∅ accountProfiles w
  = match find (λ a, bool_decide (SSOSessionName a = "")) accountProfiles with
    | None => (w, Ok (∅, accountProfiles))
    | Some a =>
        (with_config w
           (written (wConfig w)
              ("sso-session " +:+ implicit_session_name opts)
              (implicit_session_entry opts a)),
         Ok ({[ implicit_session_name opts := true ]},
             assign_first (implicit_session_name opts) accountProfiles))
    end.
Proof.
  revert w. induction accountProfiles as [|a ps IH]; intros w; [done|].
  cbn [for_range_update find assign_first].
  unfold mbind at 1. unfold M_bind at 1. unfold implicit_session at 1.
  fold (implicit_session_name opts).
  destruct (decide (SSOSessionName a ≠ "")) as [Hn|Hn].
  - rewrite bool_decide_eq_false_2 by done.
    rewrite decide_False by done.
    unfold mret at 1. unfold M_ret at 1. unfold mbind, M_bind.
    rewrite IH. by destruct (find _ ps).
  - apply dec_stable in Hn. rewrite bool_decide_eq_true_2 by done.
    rewrite decide_True by done. rewrite lookup_empty. cbn [default].
    unfold mbind at 1. unfold M_bind at 1.
    rewrite write_section_spec by done.
    unfold mret at 1. unfold M_ret at 1. unfold mbind, M_bind.
    rewrite implicit_session_created by apply lookup_insert_eq.
    reflexivity.
Qed.

(** No run returns an error of a section operation. *)
Lemma Merge_no_section_error opts : no_section_error (Merge opts).2.
Proof.
  unfold Merge.
  destruct (separate (Profiles opts) [] []) as [[ss aps]|]; [|done].
  cbn zeta. destruct (template_Parse _) as [tmpl|]; [|done].
  rewrite bind_run, prune_by_name. unfold merge_after_prune.
  rewrite bind_run.
  pose proof (sessions_loop_ok opts ss
                (with_config {| wConfig := Config opts; wLog := [] |}
                   (pruned_by_name (PruneStartURLs opts) (Config opts))))
    as Hok.
  destruct (for_range (write_session opts) ss _) as [w1 r1]. cbn in Hok.
  subst r1. rewrite bind_run.
  assert (∀ ssn ps' w,
            no_section_error
              ((vars ← for_range_with (write_profile opts tmpl ssn)
                         {| seenProfileNames := []; profileNameToRoles := ∅ |}
                         ps';
                report_duplicates vars) w).2) as Htail.
  { intros ssn ps' w. rewrite bind_run.
    pose proof (write_loop_no_section_error opts tmpl ssn ps' no_vars w
                  (seen_present_no_vars _)) as Hn.
    unfold no_vars in Hn.
    destruct (for_range_with _ _ _ _) as [w2 [vars2| |]]; [|done|done].
    by rewrite report_duplicates_spec. }
  destruct (NoCredentialProcess opts).
  - rewrite bind_run, implicit_pass_spec.
    destruct (find _ _); unfold mret at 1; unfold M_ret at 1; apply Htail.
  - unfold mret at 1. unfold M_ret at 1. apply Htail.
Qed.

Lemma Merge_unsupported opts :
  POther ∈ Profiles opts →
  Merge opts = ({| wConfig := Config opts; wLog := [] |}, Ok tt).
Proof.
  intros Hin. unfold Merge. by rewrite separate_unsupported.
Qed.

End Whole.

(** * The claims *)

Import MiniTemplate LiteralRegex.

(** ** Pruning *)

(** C8 fails on the code. The pruning pass asks [HasKey] and [Key], which
    look a key up in the parent sections too. The section [profile team.dev]
    holds neither the marker nor a start URL; the section [profile team],
    which stands after it, is generated and has a stale URL. The pass deletes
    both. *)
Lemma pruning_deletes_a_section_without_marker :
  Examples.team_dev_section ∈ Examples.inherited_doc
  ∧ own_key Examples.team_dev_section "common_fate_generated_from" = None
  ∧ own_key Examples.team_dev_section "granted_sso_start_url" = None
  ∧ own_key Examples.team_dev_section "sso_start_url" = None
  ∧ prune ["https://deleteme.example.com"] Examples.inherited_world
    = ({| wConfig := [("DEFAULT", [])]; wLog := [] |}, Ok tt).
Proof. repeat split; compute_done. Qed.

(** C10. For a section that holds the key granted_sso_start_url the start URL
    of the pruning pass is the value of that key, whatever the section or its
    parents hold under sso_start_url. For every section, the start URL is the
    value the look-up of granted_sso_start_url finds (in the section, else in
    a parent); the key sso_start_url is read only when that look-up finds no
    key, and the start URL is empty when neither is found. On a well-formed
    document, a section that holds the key granted_sso_start_url stays when
    the value of that key is not to be pruned, and if it also holds the
    marker it is deleted exactly when that value is to be pruned. *)
Theorem prune_start_url_precedence
    (pruneStartURLs : list string) (w : World) (sec : IniSection)
    (granted : string) :
  wf_file (wConfig w) →
  sec ∈ wConfig w →
  own_key sec "granted_sso_start_url" = Some granted →
  (∀ f, section_startURL f sec = granted)
  ∧ (∀ f other,
       section_startURL f other
       = match GetKey f other "granted_sso_start_url" with
         | Some (_, url) => url
         | None =>
             match GetKey f other "sso_start_url" with
             | Some (_, url) => url
             | None => ""
             end
         end)
  ∧ (granted ∉ pruneStartURLs → sec ∈ wConfig (prune pruneStartURLs w).1)
  ∧ (is_Some (own_key sec "common_fate_generated_from") →
     sec ∉ wConfig (prune pruneStartURLs w).1 ↔ granted ∈ pruneStartURLs).
Proof.
  intros Hwf Hin Hg.
  assert (Hurl : ∀ f, section_startURL f sec = granted).
  { intros f. rewrite section_startURL_GetKey. by rewrite (GetKey_own _ _ _ _ Hg). }
  split; [done|]. split.
  { intros f other. apply section_startURL_GetKey. }
  rewrite prune_by_name. cbn [fst wConfig with_config]. split.
  - intros Hnot.
    apply (prune_verdict_fixed pruneStartURLs (wConfig w) sec false);
      [done|done| |done].
    intros g _. unfold should_prune. rewrite Hurl.
    rewrite (bool_decide_eq_false_2 _ Hnot). apply andb_false_r.
  - intros [m Hm].
    assert (Hv : sec ∈ pruned_by_name pruneStartURLs (wConfig w)
                 ↔ bool_decide (granted ∈ pruneStartURLs) = false).
    { apply prune_verdict_fixed; [done|done|].
      intros g _. unfold should_prune, HasKey. rewrite Hurl.
      by rewrite (GetKey_own _ _ _ _ Hm). }
    rewrite bool_decide_eq_false in Hv. split.
    + intros Hout. destruct (decide (granted ∈ pruneStartURLs)); [done|].
      exfalso. by apply Hout, Hv.
    + intros Hstale Hkept. by apply Hv in Hkept.
Qed.

Lemma prune_start_url_precedence_witness :
  section_startURL Examples.both_urls_world.(wConfig)
    Examples.both_urls_section = "https://old.example.com"
  ∧ (Examples.both_urls_section
       ∉ wConfig (prune ["https://old.example.com"]
                        Examples.both_urls_world).1).
Proof.
  destruct (prune_start_url_precedence ["https://old.example.com"]
              Examples.both_urls_world Examples.both_urls_section
              "https://old.example.com")
    as (Hurl & _ & _ & Hiff).
  - split; compute_done.
  - compute_done.
  - reflexivity.
  - split; [apply Hurl|]. apply Hiff; [by eexists|]. compute_done.
Defined.

(** ** Idempotence *)

(** C3 fails on the code. The document holds the user's section
    [profile team.dev]; the run generates [profile team] for the URL it
    prunes. The first run keeps the user's section and appends the generated
    one. The second run, on that document and with the same options, finds
    the marker and the stale URL of [profile team] when it looks them up for
    [profile team.dev], and deletes the user's section: the two documents
    differ. *)
Lemma second_run_changes_the_document :
  let first := Merge Examples.team_opts in
  let second := Merge (with_Config Examples.team_opts (wConfig first.1)) in
  wf_file (Config Examples.team_opts)
  ∧ first.2 = Ok tt
  ∧ second.2 = Ok tt
  ∧ (wConfig first.1).*1 = ["DEFAULT"; "profile team.dev"; "profile team"]
  ∧ (wConfig second.1).*1 = ["DEFAULT"; "profile team"]
  ∧ wConfig second.1 ≠ wConfig first.1.
Proof. cbn zeta. split; [split; compute_done|]. repeat split; compute_done. Qed.

(** ** Sections of the user *)

(** C2 fails on the code. A run with an empty list of profiles, on a document
    in which the user's section [profile team.dev], without marker, stands
    before the generated section [profile team] with a stale URL, deletes the
    user's section along with the generated one: the pruning pass finds the
    marker and the URL of [profile team] when it looks them up for
    [profile team.dev]. Besides, a section of the user's whose name is the
    name a profile renders to is deleted and replaced by the generated
    section. *)
Lemma merge_deletes_a_section_of_the_user :
  (wf_file (Config Examples.inherited_opts)
   ∧ Examples.team_dev_section ∈ Config Examples.inherited_opts
   ∧ own_key Examples.team_dev_section "common_fate_generated_from" = None
   ∧ Merge Examples.inherited_opts
     = ({| wConfig := [("DEFAULT", [])]; wLog := [] |}, Ok tt))
  ∧ (wf_file (Config Examples.same_name_opts)
     ∧ Examples.user_section ∈ Config Examples.same_name_opts
     ∧ own_key Examples.user_section "common_fate_generated_from" = None
     ∧ (Examples.user_section ∉ wConfig (Merge Examples.same_name_opts).1)
     ∧ (Merge Examples.same_name_opts).2 = Ok tt).
Proof. split; [split; [split|]|split; [split|]]; repeat split; compute_done. Qed.

(** ** Unsupported profiles *)

(** C4 fails on the code: at the first value that is neither a session nor an
    account profile [Merge] returns nil at once. The account profile of the
    list is not written and the stale section is not pruned, although a run on
    the same list without that value does both. *)
Lemma merge_returns_at_unsupported_profile :
  Merge Examples.unsupported_opts
  = ({| wConfig := Examples.prune_doc; wLog := [] |}, Ok tt)
  ∧ GetSection (wConfig (Merge Examples.supported_opts).1)
               "profile prod/DevRole" ≠ None
  ∧ Examples.stale_section ∉ wConfig (Merge Examples.supported_opts).1.
Proof.
  split; [by vm_compute|]. split.
  - compute_done.
  - compute_done.
Qed.

(** ** Session names *)

(** C6 fails on the code: in session-reference mode line 467 gives every
    account profile the caller's session name, so a profile that came with the
    session name company is written with the key sso_session set to the
    implicit name. *)
Lemma session_name_overwritten :
  SSOSessionName (Examples.account "prod" "DevRole" "company") = "company"
  ∧ match GetSection (wConfig (Merge Examples.session_opts).1)
                     "profile prod/DevRole" with
    | Some sec => own_key sec "sso_session"
    | None => None
    end = Some "implicit"
  ∧ (Merge Examples.session_opts).2 = Ok tt.
Proof. repeat split; compute_done. Qed.

(** ** The names of the sections *)

Section RenderedNames.
Context {TE : TemplateEngine} {RE : RegexEngine}.

(** C7, as the code has it. [Merge] does not check the name a template
    renders. A run ends normally, with the error of parsing or of executing
    the template, or with the panic of a preference pattern that does not
    compile: no run fails because of a section name. A profile whose name,
    whatever characters it holds, was not seen before is written under
    that name, after the prefix and the word profile. *)
Theorem rendered_name_not_validated (opts : MergeOpts) :
  ((Merge opts).2 = Ok tt
   ∨ (Merge opts).2 = Err ErrTemplateParse
   ∨ (Merge opts).2 = Err ErrTemplateExecute
   ∨ (Merge opts).2 = Panicked)
  ∧ ∀ sectionNameTempl ssoSessionName vars a w rendered,
      claimed opts vars (wConfig w) →
      template_Execute sectionNameTempl (prepared ssoSessionName a)
      = Some rendered →
      Prefix opts +:+ rendered ∉ seenProfileNames vars →
      write_profile opts sectionNameTempl ssoSessionName vars a w
      = (with_config w
           (written (wConfig w) ("profile " +:+ (Prefix opts +:+ rendered))
              (profile_entry opts ssoSessionName a (Prefix opts +:+ rendered))),
         Ok (record_role vars (Prefix opts +:+ rendered) (RoleName a))).
Proof.
  split.
  - pose proof (Merge_no_section_error opts) as Hn.
    destruct ((Merge opts).2) as [[]|[]|]; cbn in Hn; tauto.
  - intros tmpl ssn vars a w rendered _ Hexec Hfresh.
    apply write_profile_fresh; [|done].
    unfold profileName_of. by rewrite Hexec.
Qed.

End RenderedNames.

Lemma rendered_name_not_validated_witness :
  write_profile Examples.trailing_space_opts
    Examples.trailing_space_template "" no_vars
    (Examples.account "prod" "DevRole" "")
    {| wConfig := [("DEFAULT", [])]; wLog := [] |}
  = (with_config {| wConfig := [("DEFAULT", [])]; wLog := [] |}
       (written [("DEFAULT", [])] "profile prod. "
          (profile_entry Examples.trailing_space_opts ""
             (Examples.account "prod" "DevRole" "") "prod. ")),
     Ok (record_role no_vars "prod. " "DevRole")).
Proof.
  apply (proj2 (rendered_name_not_validated Examples.trailing_space_opts)
           Examples.trailing_space_template ""
           no_vars (Examples.account "prod" "DevRole" "")
           {| wConfig := [("DEFAULT", [])]; wLog := [] |} "prod. ").
  - intros pn H. by apply elem_of_nil in H.
  - reflexivity.
  - compute_done.
Defined.

(** C7 as stated fails: with a template that renders a name ending in a blank,
    or a name with a semicolon, [Merge] returns nil and the section is in the
    document under that name. *)
Lemma invalid_rendered_name_is_written :
  (Merge Examples.trailing_space_opts).2 = Ok tt
  ∧ GetSection (wConfig (Merge Examples.trailing_space_opts).1)
               "profile prod. " ≠ None
  ∧ (Merge Examples.semicolon_opts).2 = Ok tt
  ∧ GetSection (wConfig (Merge Examples.semicolon_opts).1)
               "profile prod.;" ≠ None.
Proof. repeat split; compute_done. Qed.

(** ** The order of the account profiles *)



(** ** Profiles that render to the same name *)

(** C1 fails on the code. The result of [regexp2.Compile] is used without a
    look at its error (line 508): a preference pattern that does not compile
    makes [Merge] panic when the loop over the patterns reaches it. With the
    pattern + and two profiles that render to the same name, no pattern tells
    the two roles apart, yet the second profile does not overwrite the
    section: the run panics and the section holds the role of the first
    profile. Without patterns the second profile overwrites it. *)
Lemma merge_panics_on_a_pattern_that_does_not_compile :
  regexp2_Compile "+" = None
  ∧ first_distinguishing ["+"] "DevRoleTwo" "DevRoleOne" = None
  ∧ (Merge (Examples.collision ["+"])).2 = Panicked
  ∧ match GetSection (wConfig (Merge (Examples.collision ["+"])).1)
                     "profile prod" with
    | Some sec => own_key sec "granted_sso_role_name"
    | None => None
    end = Some "DevRoleOne"
  ∧ match GetSection (wConfig (Merge (Examples.collision [])).1)
                     "profile prod" with
    | Some sec => own_key sec "granted_sso_role_name"
    | None => None
    end = Some "DevRoleTwo".
Proof. repeat split; compute_done. Qed.

Section Collisions.
Context {TE : TemplateEngine} {RE : RegexEngine}.

(** C5, as the code has it. For the loop over the account profiles followed
    by the report: with preference patterns configured, the run logs no
    warning. Without patterns, after a run that ends normally the warnings
    logged are, if some name was rendered for two profiles or more, a heading
    and one line for each such name, the names in increasing order, each line
    with the roles of the profiles that rendered to the name in the order in
    which they were processed, repeated roles included. *)
Theorem duplicate_report (opts : MergeOpts) (sectionNameTempl : Template)
    (ssoSessionName : string) (accountProfiles : list AccountProfile)
    (w : World) :
  let run :=
    (vars ← for_range_with (write_profile opts sectionNameTempl ssoSessionName)
              no_vars accountProfiles;
     report_duplicates vars) w in
  let rendering_to name :=
    filter (λ a, profileName_of opts sectionNameTempl ssoSessionName a
                 = Some name) accountProfiles in
  (PreferRoles opts ≠ [] → warnings (wLog run.1) = warnings (wLog w))
  ∧ (PreferRoles opts = [] →
     run.2 = Ok tt →
     ∃ names,
       NoDup names
       ∧ StronglySorted String.le names
       ∧ (∀ name, name ∈ names ↔ 2 ≤ length (rendering_to name))
       ∧ wLog run.1
         = wLog w ++
           match names with
           | [] => []
           | _ =>
               (WARN, duplicate_header)
               :: ((λ name, (WARN, duplicate_line name
                                     (RoleName <$> rendering_to name)))
                   <$> names)
           end).
Proof.
  cbn zeta. unfold mbind, M_bind. split.
  - intros Hp.
    destruct (prefs_loop opts sectionNameTempl ssoSessionName accountProfiles
                no_vars w Hp (NoDup_nil_2)) as [Hw Hn].
    destruct (for_range_with _ _ _ _) as [w' [vars'| |]]; [|done..].
    rewrite report_duplicates_spec. cbn [fst snd wLog] in *.
    rewrite duplicate_names_NoDup by (by apply Hn).
    by rewrite app_nil_r.
  - intros Hp.
    destruct (for_range_with _ _ _ _) as [w' [vars'| |]] eqn:Hloop;
      [|done..].
    intros _. apply (noprefs_loop _ _ _ _ _ _ _ _ Hp) in Hloop
      as (Hseen & Hroles & Hlog).
    cbn [app seenProfileNames no_vars] in Hseen.
    rewrite report_duplicates_spec. cbn [fst wLog].
    exists (duplicate_names (seenProfileNames vars')).
    destruct (duplicate_names_spec (seenProfileNames vars'))
      as (Hnd & Hsorted & Hiff).
    split; [done|]. split; [done|]. split.
    + intros name. rewrite Hiff, Hseen. by rewrite occurrences_omap.
    + rewrite Hlog. f_equal.
      destruct (duplicate_names (seenProfileNames vars')); [done|].
      f_equal. apply list_fmap_ext. intros i name _.
      by rewrite Hroles.
Qed.

End Collisions.

Lemma duplicate_report_witness :
  ∃ names,
    NoDup names
    ∧ StronglySorted String.le names
    ∧ (∀ name, name ∈ names ↔
         2 ≤ length (filter (λ a, profileName_of (Examples.collision [])
                                    Examples.account_template "" a = Some name)
                            [Examples.role_one; Examples.role_two]))
    ∧ wLog ((vars ← for_range_with
                      (write_profile (Examples.collision [])
                                     Examples.account_template "")
                      no_vars [Examples.role_one; Examples.role_two];
             report_duplicates vars) Examples.start_world).1
      = wLog Examples.start_world ++
        match names with
        | [] => []
        | _ =>
            (WARN, duplicate_header)
            :: ((λ name,
                  (WARN, duplicate_line name
                     (RoleName <$>
                        filter (λ a, profileName_of (Examples.collision [])
                                       Examples.account_template "" a
                                     = Some name)
                               [Examples.role_one; Examples.role_two])))
                <$> names)
        end.
Proof.
  apply (proj2 (duplicate_report (Examples.collision [])
                  Examples.account_template ""
                  [Examples.role_one; Examples.role_two]
                  Examples.start_world)).
  - reflexivity.
  - vm_compute. reflexivity.
Defined.

(** C5 as stated fails. With the pattern DevRoleOne and two profiles of the
    roles DevRoleOne and DevRoleTwo that render to the same name, the section
    holds the data of DevRoleOne and no warning is logged. Without patterns,
    the roles of a warning are listed in the order of processing, neither
    sorted nor without repetition. *)
Lemma no_warning_for_resolved_collision :
  (Merge (Examples.collision ["DevRoleOne"])).2 = Ok tt
  ∧ match GetSection (wConfig (Merge (Examples.collision ["DevRoleOne"])).1)
                     "profile prod" with
    | Some sec => own_key sec "granted_sso_role_name"
    | None => None
    end = Some "DevRoleOne"
  ∧ warnings (wLog (Merge (Examples.collision ["DevRoleOne"])).1) = []
  ∧ warnings (wLog (Merge Examples.three_accounts).1)
    = [duplicate_header; "Profile ap-southeast-2 has roles: Zed, Adm, Adm"].
Proof. repeat split; compute_done. Qed.

(** * Further properties of the code *)

(** ** normalizeAccountName *)

Lemma normalizeAccountName_app a b :
  normalizeAccountName (a +:+ b)
  = normalizeAccountName a +:+ normalizeAccountName b.
Proof.
  induction a as [|c a IH]; [done|].
  change (String c a +:+ b) with (String c (a +:+ b)).
  cbn [normalizeAccountName]. rewrite IH. reflexivity.
Qed.

Lemma chars_normalized s :
  chars (normalizeAccountName s)
  = (λ c, if decide (c = " "%char) then "-"%char else c) <$> chars s.
Proof.
  induction s as [|c s IH]; [done|].
  change (chars (String c s)) with (c :: chars s). rewrite fmap_cons, <- IH.
  reflexivity.
Qed.

(** X1. The normalized name has the length of the name and no blank in it; a
    name is left as it is exactly when it has no blank; normalizing twice is
    normalizing once; and the normalized concatenation of two strings is the
    concatenation of the two normalized strings. *)
Theorem normalizeAccountName_replaces_blanks (s t : string) :
  String.length (normalizeAccountName s) = String.length s
  ∧ (" "%char ∉ chars (normalizeAccountName s))
  ∧ (normalizeAccountName s = s ↔ " "%char ∉ chars s)
  ∧ normalizeAccountName (normalizeAccountName s) = normalizeAccountName s
  ∧ normalizeAccountName (s +:+ t)
    = normalizeAccountName s +:+ normalizeAccountName t.
Proof.
  split; [|split; [|split; [|split]]].
  - induction s as [|c s IH]; cbn; [done|]. by rewrite IH.
  - rewrite chars_normalized. intros Hin.
    apply list_elem_of_fmap in Hin as (c & Hc & _).
    destruct (decide (c = " "%char)); [discriminate | done].
  - induction s as [|c s IH]; cbn; [split; [intros _; apply not_elem_of_nil|done]|].
    change (chars (String c s)) with (c :: chars s).
    rewrite not_elem_of_cons. split.
    + intros [= Hc Hs]. split; [|by apply IH].
      destruct (decide (c = " "%char)) as [->|]; [discriminate | done].
    + intros [Hc Hs]. rewrite (proj2 IH Hs).
      destruct (decide (c = " "%char)); [congruence | done].
  - apply normalizeAccountName_idemp.
  - apply normalizeAccountName_app.
Qed.

(** ** The type switch over the profiles *)

Lemma separate_acc profiles ssoSessions accountProfiles :
  separate profiles ssoSessions accountProfiles
  = if forallb is_supported profiles
    then Some (ssoSessions ++ omap as_session profiles,
               accountProfiles ++ omap as_account profiles)
    else None.
Proof.
  revert ssoSessions accountProfiles.
  induction profiles as [|p profiles IH]; intros ss aps; cbn [separate forallb].
  - by rewrite !app_nil_r.
  - destruct p; cbn [is_supported andb omap list_omap as_session as_account].
    + rewrite IH. destruct (forallb _ _); [|done]. by rewrite <- (assoc app).
    + rewrite IH. destruct (forallb _ _); [|done]. by rewrite <- (assoc app).
    + done.
Qed.

(** X2. The type switch gives the sessions of the list and the account
    profiles of the list, each in the order of the list, when every value of
    the list is a session or an account profile; one value of another type,
    wherever it stands, makes it give up. *)
Theorem separate_partitions (profiles : list SSOProfile) :
  separate profiles [] []
  = if forallb is_supported profiles
    then Some (omap as_session profiles, omap as_account profiles)
    else None.
Proof. apply separate_acc. Qed.

(** ** Runs that stop before the pruning pass *)

(** X3. When the template does not parse, [Merge] changes nothing and logs
    nothing: neither the pruning pass nor any write has happened. It returns
    the error of the parser if every value of the list is of a supported
    type, and nil otherwise, because the type switch comes first. *)
Theorem Merge_template_parse_error
    {TE : TemplateEngine} {RE : RegexEngine} (opts : MergeOpts) :
  template_Parse (effective_template opts) = None →
  Merge opts
  = ({| wConfig := Config opts; wLog := [] |},
     if forallb is_supported (Profiles opts)
     then Err ErrTemplateParse else Ok tt).
Proof.
  intros Hparse. unfold Merge. rewrite separate_acc. cbn [app].
  destruct (forallb is_supported (Profiles opts)); [|done].
  unfold effective_template in Hparse. cbn zeta. by rewrite Hparse.
Qed.

Lemma Merge_template_parse_error_witness :
  Merge MoreExamples.unclosed_opts
  = ({| wConfig := Examples.prune_doc; wLog := [] |}, Err ErrTemplateParse).
Proof.
  apply (Merge_template_parse_error MoreExamples.unclosed_opts). reflexivity.
Defined.

(** ** More on the pruning pass *)

(** X4. Without URLs to prune the pruning pass leaves every document as it
    is, well-formed or not. *)
Theorem prune_nothing (w : World) : prune [] w = (w, Ok tt).
Proof.
  rewrite prune_by_name. unfold pruned_by_name.
  rewrite prune_fold_nothing; [by rewrite with_config_id|].
  intros s _. unfold should_prune.
  rewrite (bool_decide_eq_false_2 (_ ∈ [])) by apply not_elem_of_nil.
  apply andb_false_r.
Qed.

Lemma should_prune_orphan urls (g : File) sec :
  orphan g sec.1 →
  should_prune urls g sec
  = bool_decide (is_Some (own_key sec "common_fate_generated_from"))
    && bool_decide
         (match own_key sec "granted_sso_start_url" with
          | Some v => v
          | None => default "" (own_key sec "sso_start_url")
          end ∈ urls).
Proof.
  intros Ho. unfold should_prune.
  rewrite HasKey_orphan, section_startURL_GetKey by done.
  rewrite !GetKey_orphan by done.
  destruct (own_key sec "granted_sso_start_url"); [done|].
  by destruct (own_key sec "sso_start_url").
Qed.

Lemma orphan_sublist (f g : File) n :
  g `sublist_of` f → orphan f n → orphan g n.
Proof.
  intros Hsub. apply orphan_sub. intros x Hx.
  eapply elem_of_sublist; [exact Hx|]. by apply fmap_sublist.
Qed.

(** X5. A generated section that has neither the key granted_sso_start_url nor
    the key sso_start_url, and no parent section in the document, counts as
    having the empty start URL: on a well-formed document the pruning pass
    deletes it exactly when the empty string is among the URLs to prune. *)
Theorem prune_section_without_url
    (pruneStartURLs : list string) (w : World) (sec : IniSection) :
  wf_file (wConfig w) →
  sec ∈ wConfig w →
  orphan (wConfig w) sec.1 →
  is_Some (own_key sec "common_fate_generated_from") →
  own_key sec "granted_sso_start_url" = None →
  own_key sec "sso_start_url" = None →
  sec ∉ wConfig (prune pruneStartURLs w).1 ↔ "" ∈ pruneStartURLs.
Proof.
  intros Hwf Hin Ho [m Hgen] Hgranted Hsso.
  rewrite prune_by_name. cbn [fst wConfig with_config].
  assert (Hv : sec ∈ pruned_by_name pruneStartURLs (wConfig w)
               ↔ bool_decide ("" ∈ pruneStartURLs) = false).
  { apply prune_verdict_fixed; [done|done|].
    intros g Hg. rewrite should_prune_orphan by (by eapply orphan_sublist).
    by rewrite Hgen, Hgranted, Hsso. }
  rewrite bool_decide_eq_false in Hv. split.
  - intros Hout. destruct (decide ("" ∈ pruneStartURLs)); [done|].
    exfalso. by apply Hout, Hv.
  - intros Hstale Hkept. by apply Hv in Hkept.
Qed.

Lemma prune_section_without_url_witness :
  MoreExamples.no_url_section
  ∉ wConfig (prune ["https://deleteme.example.com"; ""]
                   MoreExamples.no_url_world).1.
Proof.
  apply (prune_section_without_url ["https://deleteme.example.com"; ""]
           MoreExamples.no_url_world MoreExamples.no_url_section).
  - split; compute_done.
  - compute_done.
  - intros p Hp. vm_compute in Hp. by apply elem_of_nil in Hp.
  - by eexists.
  - reflexivity.
  - reflexivity.
  - compute_done.
Defined.

(** X6. On a well-formed document the pruning pass keeps the sections that
    stay in their order, leaves the document well-formed, and a second pass
    with the same URLs deletes nothing more. *)
Theorem prune_keeps_order_and_settles
    (pruneStartURLs : list string) (w : World) :
  wf_file (wConfig w) →
  wConfig (prune pruneStartURLs w).1 `sublist_of` wConfig w
  ∧ wf_file (wConfig (prune pruneStartURLs w).1)
  ∧ prune pruneStartURLs (prune pruneStartURLs w).1
    = prune pruneStartURLs w.
Proof.
  intros Hwf. rewrite !prune_by_name. cbn [fst wConfig with_config].
  split; [apply pruned_by_name_sublist|].
  split; [by apply wf_pruned_by_name|].
  unfold with_config. cbn [wLog]. by rewrite pruned_by_name_settled.
Qed.

Lemma prune_keeps_order_and_settles_witness :
  prune ["https://deleteme.example.com"]
        (prune ["https://deleteme.example.com"] Examples.prune_world).1
  = prune ["https://deleteme.example.com"] Examples.prune_world.
Proof.
  apply (prune_keeps_order_and_settles ["https://deleteme.example.com"]
           Examples.prune_world).
  split; compute_done.
Defined.

(** ** Writing a section *)

(** X7. Writing under a name that is not empty and has no parent section in
    the document cannot fail and replaces: the document then has, at its end,
    one section of that name with exactly the keys of the entry, whatever a
    section of that name held before; the sections of other names are found
    as before, and a well-formed document stays well-formed. *)
Theorem write_section_replaces
    (sectionName : string) (entry : IniEntry) (w : World) :
  sectionName ≠ "" →
  orphan (wConfig w) sectionName →
  (write_section sectionName entry w).2 = Ok tt
  ∧ wLog (write_section sectionName entry w).1 = wLog w
  ∧ wConfig (write_section sectionName entry w).1
    = filter (λ sec, sec.1 ≠ sectionName) (wConfig w)
      ++ [(sectionName, entry_keys entry)]
  ∧ (∀ other, section_key other ≠ sectionName →
       GetSection (wConfig (write_section sectionName entry w).1) other
       = GetSection (wConfig w) other)
  ∧ (wf_file (wConfig w) →
     wf_file (wConfig (write_section sectionName entry w).1)).
Proof.
  intros Hne Ho. rewrite write_section_spec by done.
  rewrite written_orphan by done.
  cbn [fst snd with_config wConfig wLog].
  split; [done|]. split; [done|]. split.
  - unfold replaced, DeleteSection. by rewrite section_key_nonempty.
  - split.
    + intros other Hother. by apply GetSection_replaced_other.
    + intros Hwf. by apply wf_replaced.
Qed.

Lemma write_section_replaces_witness :
  wConfig (write_section "profile prod/DevRole"
             (AccountProfile_ToIni (Examples.account "prod" "DevRole" "")
                                   "prod/DevRole" false)
             {| wConfig := Config Examples.same_name_opts; wLog := [] |}).1
  = filter (λ sec, sec.1 ≠ "profile prod/DevRole")
           (Config Examples.same_name_opts)
    ++ [("profile prod/DevRole",
         entry_keys (AccountProfile_ToIni
                       (Examples.account "prod" "DevRole" "")
                       "prod/DevRole" false))].
Proof.
  apply (write_section_replaces "profile prod/DevRole"
           (AccountProfile_ToIni (Examples.account "prod" "DevRole" "")
                                 "prod/DevRole" false)
           {| wConfig := Config Examples.same_name_opts; wLog := [] |}).
  - discriminate.
  - intros p Hp. vm_compute in Hp. by apply elem_of_nil in Hp.
Defined.

(** ** What the sections hold *)

Ltac empty_or_not x :=
  destruct (decide (x = "")) as [?|?];
  [ rewrite (bool_decide_eq_true_2 (x = "")) by done
  | rewrite (bool_decide_eq_false_2 (x = "")) by done ].

Lemma string_app_assoc a b c : (a +:+ b) +:+ c = a +:+ b +:+ c.
Proof.
  induction a as [|x a IH]; [done|].
  change ((String x a +:+ b) +:+ c) with (String x ((a +:+ b) +:+ c)).
  by rewrite IH.
Qed.

Lemma string_app_nil_r a : a +:+ "" = a.
Proof.
  induction a as [|x a IH]; [done|].
  change (String x a +:+ "") with (String x (a +:+ "")). by rewrite IH.
Qed.

Lemma credential_process_keys (a : AccountProfile) (profileName : string) :
  entry_keys (AccountProfile_ToIni a profileName false)
  = [("granted_sso_start_url", SSOStartURL a)]
    ++ (if decide (SSORegion a = "") then []
        else [("granted_sso_region", SSORegion a)])
    ++ [("granted_sso_account_id", AccountID a);
        ("granted_sso_role_name", RoleName a);
        ("common_fate_generated_from", GeneratedFrom a);
        ("credential_process",
         "granted credential-process --profile " +:+ profileName +:+
         (if decide (CommonFateURL a = "") then ""
          else " --url " +:+ CommonFateURL a))]
    ++ (if decide (Region a = "") then [] else [("region", Region a)]).
Proof.
  destruct a as [an sn aid rn gf rg cf su sr].
  unfold AccountProfile_ToIni, entry_keys.
  cbn [ini_fields foldl AccountName SSOSessionName AccountID
       RoleName GeneratedFrom Region CommonFateURL SSOStartURL SSORegion].
  unfold reflect_field. cbn [f_omitempty f_value f_key andb].
  pose proof (string_app_assoc "granted credential-process --profile "
                profileName (" --url " +:+ cf)) as Hassoc.
  pose proof (string_app_nil_r profileName) as Hnil.
  destruct (decide (cf ≠ "")) as [Hcf|Hcf].
  - rewrite (decide_False (P := cf = "")) by done. rewrite <- Hassoc.
    empty_or_not sr; empty_or_not rg; reflexivity.
  - apply dec_stable in Hcf. rewrite (decide_True (P := cf = "")) by done.
    rewrite Hnil.
    empty_or_not sr; empty_or_not rg; reflexivity.
Qed.

Lemma regular_profile_keys (a : AccountProfile) (profileName : string) :
  entry_keys (AccountProfile_ToIni a profileName true)
  = [("sso_session", SSOSessionName a);
     ("sso_account_id", AccountID a);
     ("common_fate_generated_from", GeneratedFrom a);
     ("sso_role_name", RoleName a)]
    ++ (if decide (Region a = "") then [] else [("region", Region a)]).
Proof.
  destruct a as [an sn aid rn gf rg cf su sr].
  unfold AccountProfile_ToIni, entry_keys.
  cbn [ini_fields foldl AccountName SSOSessionName AccountID
       RoleName GeneratedFrom Region CommonFateURL SSOStartURL SSORegion].
  unfold reflect_field. cbn [f_omitempty f_value f_key andb].
  empty_or_not rg; reflexivity.
Qed.

Lemma sso_session_keys (s : SSOSession) (profileName : string) (mode : bool) :
  entry_keys (SSOSession_ToIni s profileName mode)
  = [("sso_start_url", Session.SSOStartURL s);
     ("sso_registration_scopes", Session.SSORegistrationScopes s);
     ("sso_region", Session.SSORegion s)]
    ++ (if decide (Session.GeneratedFrom s = "") then []
        else [("common_fate_generated_from", Session.GeneratedFrom s)]).
Proof.
  destruct s as [n url scopes region gf].
  unfold SSOSession_ToIni, entry_keys.
  cbn [ini_fields foldl Session.SSOStartURL Session.SSORegistrationScopes
       Session.SSORegion Session.GeneratedFrom].
  unfold reflect_field. cbn [f_omitempty f_value f_key andb].
  empty_or_not gf; reflexivity.
Qed.

(** X8. The keys written for an account profile, in order. In
    credential-process mode: the start URL, the SSO region unless it is empty,
    the account, the role, the marker, the credential process (the command
    with the profile name, and with the URL option when a Common Fate URL is
    set) and the region unless it is empty. In session-reference mode: the
    session, the account, the marker, the role and the region unless it is
    empty. The marker is written also when it is empty. *)
Theorem account_section_keys (a : AccountProfile) (profileName : string) :
  entry_keys (AccountProfile_ToIni a profileName false)
  = [("granted_sso_start_url", SSOStartURL a)]
    ++ (if decide (SSORegion a = "") then []
        else [("granted_sso_region", SSORegion a)])
    ++ [("granted_sso_account_id", AccountID a);
        ("granted_sso_role_name", RoleName a);
        ("common_fate_generated_from", GeneratedFrom a);
        ("credential_process",
         "granted credential-process --profile " +:+ profileName +:+
         (if decide (CommonFateURL a = "") then ""
          else " --url " +:+ CommonFateURL a))]
    ++ (if decide (Region a = "") then [] else [("region", Region a)])
  ∧ entry_keys (AccountProfile_ToIni a profileName true)
    = [("sso_session", SSOSessionName a);
       ("sso_account_id", AccountID a);
       ("common_fate_generated_from", GeneratedFrom a);
       ("sso_role_name", RoleName a)]
      ++ (if decide (Region a = "") then [] else [("region", Region a)]).
Proof.
  split; [apply credential_process_keys | apply regular_profile_keys].
Qed.

(** X9. The keys written for a session, in order: the start URL, the
    registration scopes and the SSO region, each also when it is empty, and
    the marker unless it is empty. Neither the profile name nor the mode
    plays a part. *)
Theorem session_section_keys
    (s : SSOSession) (profileName : string) (mode : bool) :
  entry_keys (SSOSession_ToIni s profileName mode)
  = [("sso_start_url", Session.SSOStartURL s);
     ("sso_registration_scopes", Session.SSORegistrationScopes s);
     ("sso_region", Session.SSORegion s)]
    ++ (if decide (Session.GeneratedFrom s = "") then []
        else [("common_fate_generated_from", Session.GeneratedFrom s)]).
Proof. apply sso_session_keys. Qed.

(** ** The keys of the written sections, as the look-up sees them *)

Lemma own_key_credential_process name a profileName :
  let sec := (name, entry_keys (AccountProfile_ToIni a profileName false)) in
  own_key sec "common_fate_generated_from" = Some (GeneratedFrom a)
  ∧ own_key sec "granted_sso_start_url" = Some (SSOStartURL a)
  ∧ own_key sec "granted_sso_role_name" = Some (RoleName a)
  ∧ own_key sec "region"
    = if decide (Region a = "") then None else Some (Region a).
Proof.
  cbn zeta. rewrite credential_process_keys. unfold own_key. cbn [snd].
  destruct (decide (SSORegion a = "")), (decide (Region a = "")); done.
Qed.

Lemma own_key_regular_profile name a profileName :
  let sec := (name, entry_keys (AccountProfile_ToIni a profileName true)) in
  own_key sec "common_fate_generated_from" = Some (GeneratedFrom a)
  ∧ own_key sec "granted_sso_start_url" = None
  ∧ own_key sec "sso_start_url" = None
  ∧ own_key sec "granted_sso_role_name" = None
  ∧ own_key sec "sso_role_name" = Some (RoleName a)
  ∧ own_key sec "region"
    = if decide (Region a = "") then None else Some (Region a).
Proof.
  cbn zeta. rewrite regular_profile_keys. unfold own_key. cbn [snd].
  destruct (decide (Region a = "")); done.
Qed.

Lemma own_key_sso_session name s profileName mode :
  let sec := (name, entry_keys (SSOSession_ToIni s profileName mode)) in
  own_key sec "common_fate_generated_from"
  = (if decide (Session.GeneratedFrom s = "") then None
     else Some (Session.GeneratedFrom s))
  ∧ own_key sec "granted_sso_start_url" = None
  ∧ own_key sec "sso_start_url" = Some (Session.SSOStartURL s).
Proof.
  cbn zeta. rewrite sso_session_keys. unfold own_key. cbn [snd].
  destruct (decide (Session.GeneratedFrom s = "")); done.
Qed.

(** The verdict of the pruning pass on a section for which the condition is
    the same in every document the pass can reach. *)
Lemma prune_out_iff urls w sec (P : Prop) `{!Decision P} :
  wf_file (wConfig w) → sec ∈ wConfig w →
  (∀ g, g `sublist_of` wConfig w → should_prune urls g sec = bool_decide P) →
  sec ∉ wConfig (prune urls w).1 ↔ P.
Proof.
  intros Hwf Hin Hfixed. rewrite prune_by_name. cbn [fst wConfig with_config].
  pose proof (prune_verdict_fixed urls (wConfig w) sec (bool_decide P)
                Hwf Hin Hfixed) as Hv.
  rewrite bool_decide_eq_false in Hv. split.
  - intros Hout. destruct (decide P); [done|]. exfalso. by apply Hout, Hv.
  - intros HP Hkept. by apply Hv in Hkept.
Qed.

(** X10. Which of the sections a run writes a later pruning pass deletes, on
    a well-formed document that holds the section. The section of an account
    profile written in credential-process mode is deleted exactly when the
    start URL of the profile is to be pruned. The section of an account
    profile written in session-reference mode has no start URL key: without
    a parent section, it is deleted exactly when the empty string is to be
    pruned. The section of a session, without a parent section, is deleted
    exactly when its marker is not empty and its start URL is to be
    pruned. *)
Theorem written_sections_pruned_later
    (pruneStartURLs : list string) (w : World) (name profileName : string) :
  wf_file (wConfig w) →
  (∀ a,
     (name, entry_keys (AccountProfile_ToIni a profileName false))
       ∈ wConfig w →
     (name, entry_keys (AccountProfile_ToIni a profileName false))
       ∉ wConfig (prune pruneStartURLs w).1
     ↔ SSOStartURL a ∈ pruneStartURLs)
  ∧ (∀ a,
       (name, entry_keys (AccountProfile_ToIni a profileName true))
         ∈ wConfig w →
       orphan (wConfig w) name →
       (name, entry_keys (AccountProfile_ToIni a profileName true))
         ∉ wConfig (prune pruneStartURLs w).1
       ↔ "" ∈ pruneStartURLs)
  ∧ (∀ s mode,
       (name, entry_keys (SSOSession_ToIni s profileName mode))
         ∈ wConfig w →
       orphan (wConfig w) name →
       (name, entry_keys (SSOSession_ToIni s profileName mode))
         ∉ wConfig (prune pruneStartURLs w).1
       ↔ Session.GeneratedFrom s ≠ ""
         ∧ Session.SSOStartURL s ∈ pruneStartURLs).
Proof.
  intros Hwf. split; [|split].
  - intros a Hin.
    apply (prune_out_iff _ _ _ (SSOStartURL a ∈ pruneStartURLs));
      [done|done|].
    intros g _.
    destruct (own_key_credential_process name a profileName)
      as (Hm & Hu & _).
    unfold should_prune, HasKey. rewrite section_startURL_GetKey.
    by rewrite (GetKey_own _ _ _ _ Hm), (GetKey_own _ _ _ _ Hu).
  - intros a Hin Ho.
    apply (prune_out_iff _ _ _ ("" ∈ pruneStartURLs)); [done|done|].
    intros g Hg.
    destruct (own_key_regular_profile name a profileName)
      as (Hm & Hu & Hs & _).
    rewrite should_prune_orphan by (by eapply orphan_sublist).
    by rewrite Hm, Hu, Hs.
  - intros s mode Hin Ho.
    apply (prune_out_iff _ _ _
             (Session.GeneratedFrom s ≠ ""
              ∧ Session.SSOStartURL s ∈ pruneStartURLs)); [done|done|].
    intros g Hg.
    destruct (own_key_sso_session name s profileName mode) as (Hm & Hu & Hs).
    rewrite should_prune_orphan by (by eapply orphan_sublist).
    rewrite Hm, Hu, Hs. cbn [default].
    destruct (decide (Session.GeneratedFrom s = "")) as [Hg0|Hg0].
    + cbn [andb]. symmetry. apply bool_decide_eq_false. by intros [? _].
    + cbn [andb]. apply bool_decide_ext. tauto.
Qed.

Lemma written_sections_pruned_later_witness :
  ("profile prod/DevRole",
   entry_keys (AccountProfile_ToIni (Examples.account "prod" "DevRole" "")
                                    "prod/DevRole" false))
    ∉ wConfig (prune ["https://example.awsapps.com/start"]
                     MoreExamples.generated_world).1.
Proof.
  destruct (written_sections_pruned_later
              ["https://example.awsapps.com/start"]
              MoreExamples.generated_world
              "profile prod/DevRole" "prod/DevRole") as [Hcp _].
  - split; compute_done.
  - apply (Hcp (Examples.account "prod" "DevRole" "")); compute_done.
Defined.

Section Region.
Context {TE : TemplateEngine} {RE : RegexEngine}.

Lemma orphan_replaced f n e : n ≠ "" → orphan f n → orphan (replaced f n e) n.
Proof.
  intros Hn Ho p Hp. apply GetSection_None. unfold replaced.
  rewrite fmap_app, elem_of_app. intros [Hx|Hx].
  - apply DeleteSection_sub in Hx. specialize (Ho p Hp).
    by apply GetSection_None in Ho.
  - apply elem_of_cons in Hx as [Hx|Hx]; [|by apply elem_of_nil in Hx].
    apply parents_not_self in Hp. by rewrite (section_key_nonempty n) in Hp.
Qed.

(** X11. The region of the section written for an account profile whose name
    was not seen before and has no parent section in the document, in both
    modes: the region of the profile if it has one, else the default region
    if there is one, else no region key at all. *)
Theorem default_region_written
    (opts : MergeOpts) (sectionNameTempl : Template) (ssoSessionName : string)
    (vars : LoopVars) (a : AccountProfile) (w : World) (profileName : string) :
  profileName_of opts sectionNameTempl ssoSessionName a = Some profileName →
  profileName ∉ seenProfileNames vars →
  orphan (wConfig w) ("profile " +:+ profileName) →
  let out :=
    wConfig (write_profile opts sectionNameTempl ssoSessionName vars a w).1 in
  ∃ sec,
    GetSection out ("profile " +:+ profileName) = Some sec
    ∧ snd <$> GetKey out sec "region"
      = if decide (Region a ≠ "") then Some (Region a)
        else if decide (DefaultRegion opts ≠ "")
             then Some (DefaultRegion opts)
             else None.
Proof.
  intros Hpn Hfresh Ho. cbn zeta.
  rewrite (write_profile_fresh _ _ _ _ _ _ profileName) by done.
  cbn [fst wConfig with_config].
  rewrite written_orphan by done.
  eexists. split; [by apply GetSection_replaced_same|].
  rewrite GetKey_orphan by (by apply orphan_replaced).
  rewrite <- option_fmap_compose. cbn [compose snd].
  rewrite option_fmap_id.
  set (b := with_default_region opts (prepared ssoSessionName a)).
  assert (Region b
          = if decide (Region a ≠ "") then Region a else DefaultRegion opts)
    as Hregion.
  { unfold b, with_default_region, prepared.
    destruct a as [an sn aid rn gf rg cf su sr]; cbn.
    destruct (decide (rg ≠ "")) as [Hr|Hr].
    - rewrite decide_False by (intros [? _]; done). done.
    - apply dec_stable in Hr. subst rg.
      destruct (decide (DefaultRegion opts ≠ "")) as [Hd|Hd].
      + rewrite decide_True by done. done.
      + rewrite decide_False by (intros [_ ?]; done).
        apply dec_stable in Hd. by rewrite Hd. }
  assert (own_key ("profile " +:+ profileName,
                   entry_keys (profile_entry opts ssoSessionName a profileName))
                  "region"
          = if decide (Region b = "") then None else Some (Region b)) as ->.
  { unfold profile_entry. fold b. destruct (NoCredentialProcess opts).
    - by destruct (own_key_regular_profile ("profile " +:+ profileName) b
                     profileName) as (_ & _ & _ & _ & _ & ?).
    - by destruct (own_key_credential_process ("profile " +:+ profileName) b
                     profileName) as (_ & _ & _ & ?). }
  rewrite Hregion. destruct (decide (Region a ≠ "")) as [Hr|Hr].
  - by rewrite decide_False.
  - destruct (decide (DefaultRegion opts ≠ "")) as [Hd|Hd].
    + by rewrite decide_False.
    + apply dec_stable in Hd. by rewrite decide_True.
Qed.

End Region.

Lemma default_region_written_witness :
  ∃ sec,
    GetSection
      (wConfig (write_profile MoreExamples.default_region_opts
                  MoreExamples.default_template "" no_vars
                  (Examples.account "prod" "DevRole" "")
                  Examples.start_world).1)
      ("profile " +:+ "prod/DevRole") = Some sec
    ∧ snd <$> GetKey
                (wConfig (write_profile MoreExamples.default_region_opts
                            MoreExamples.default_template "" no_vars
                            (Examples.account "prod" "DevRole" "")
                            Examples.start_world).1)
                sec "region"
      = Some "eu-west-1".
Proof.
  apply (default_region_written MoreExamples.default_region_opts
           MoreExamples.default_template "" no_vars
           (Examples.account "prod" "DevRole" "")
           Examples.start_world "prod/DevRole").
  - reflexivity.
  - compute_done.
  - intros p Hp. vm_compute in Hp. by apply elem_of_nil in Hp.
Defined.

(** ** Runs in which no section name has a parent *)

Lemma no_parents_orphan f T n : no_parents f T → n ∈ T → orphan f n.
Proof.
  intros H Hn p Hp. apply GetSection_None. intros Hin.
  apply (H n p Hn Hp). apply elem_of_app. by left.
Qed.

Lemma no_parents_names (f g : File) T :
  (∀ x, x ∈ g.*1 → x ∈ f.*1 ∨ x ∈ T) → no_parents f T → no_parents g T.
Proof.
  intros Hsub H n p Hn Hp Hin. apply (H n p Hn Hp).
  apply elem_of_app in Hin as [Hin|Hin]; [|apply elem_of_app; by right].
  apply elem_of_app. destruct (Hsub _ Hin); [by left|by right].
Qed.

Lemma no_parents_written f T n e :
  n ∈ T → no_parents f T → no_parents (written f n e) T.
Proof.
  intros Hn. apply no_parents_names. intros x Hx.
  apply written_names_elem in Hx as [? | ->]; [by left|by right].
Qed.

Lemma no_parents_targets f T T' :
  (∀ x, x ∈ T' → x ∈ T) → no_parents f T → no_parents f T'.
Proof.
  intros Hsub H n p Hn Hp Hin. apply (H n p (Hsub _ Hn) Hp).
  apply elem_of_app in Hin as [Hin|Hin]; apply elem_of_app;
    [by left|right; by apply Hsub].
Qed.

(** ** The loop over the sessions *)

Lemma session_section_name_inj_key s n :
  section_key ("sso-session " +:+ n) = session_section_name s
  ↔ normalizeAccountName (Session.SSOSessionName s) = n.
Proof.
  rewrite section_key_nonempty by done. unfold session_section_name. split.
  - intros H. by apply (inj (String.app "sso-session ")) in H.
  - by intros ->.
Qed.

Lemma sessions_loop_flat opts T ssoSessions w :
  (∀ s, s ∈ ssoSessions → session_section_name s ∈ T) →
  no_parents (wConfig w) T →
  (for_range (write_session opts) ssoSessions w).2 = Ok tt
  ∧ wLog (for_range (write_session opts) ssoSessions w).1 = wLog w
  ∧ (∀ name,
       GetSection (wConfig (for_range (write_session opts) ssoSessions w).1)
                  ("sso-session " +:+ name)
       = match last (filter
                       (λ s, normalizeAccountName (Session.SSOSessionName s)
                             = name) ssoSessions) with
         | Some s => Some (session_section s)
         | None => GetSection (wConfig w) ("sso-session " +:+ name)
         end)
  ∧ (∀ other,
       (∀ s, s ∈ ssoSessions → section_key other ≠ session_section_name s) →
       GetSection (wConfig (for_range (write_session opts) ssoSessions w).1)
                  other
       = GetSection (wConfig w) other).
Proof.
  revert w. induction ssoSessions as [|s rest IH]; intros w HT Hnp.
  { cbn. repeat split; done. }
  assert (session_section_name s ∈ T) as Hs by apply HT, list_elem_of_here.
  cbn [for_range]. rewrite bind_run, write_session_spec.
  rewrite written_orphan by (done || by eapply no_parents_orphan).
  set (w1 := with_config w _).
  destruct (IH w1) as (Hres & Hlog & Hlast & Hother).
  { intros s' Hs'. by apply HT, list_elem_of_further. }
  { unfold w1. cbn [wConfig with_config].
    rewrite <- (written_orphan _ _ (SSOSession_ToIni s "" false))
      by (done || by eapply no_parents_orphan).
    by apply no_parents_written. }
  split; [done|]. split; [by rewrite Hlog|]. split.
  - intros name. rewrite Hlast, filter_cons.
    destruct (decide (normalizeAccountName (Session.SSOSessionName s) = name))
      as [Hname|Hname].
    + rewrite last_cons. destruct (last _); [done|].
      unfold w1. cbn [wConfig with_config].
      replace ("sso-session " +:+ name) with (session_section_name s)
        by (unfold session_section_name; by rewrite Hname).
      by rewrite GetSection_replaced_same.
    + destruct (last _); [done|]. unfold w1. cbn [wConfig with_config].
      apply GetSection_replaced_other; [done|].
      by rewrite session_section_name_inj_key.
  - intros other Hne. rewrite Hother.
    + unfold w1. cbn [wConfig with_config].
      apply GetSection_replaced_other; [done|]. apply Hne, list_elem_of_here.
    + intros s' Hs'. by apply Hne, list_elem_of_further.
Qed.

(** X12. The loop over the sessions, when no session section has a parent
    section in the document or among the session sections. It cannot fail
    and logs nothing. After it, the section under a session name is the
    section of the last session of the list whose normalized name is that
    name, with the keys of that session only; if the list has no such session
    the section is the one the document had. A name that is no session name
    of the list is found as before. *)
Theorem sessions_last_one_wins
    (opts : MergeOpts) (ssoSessions : list SSOSession) (w : World) :
  no_parents (wConfig w) (session_section_name <$> ssoSessions) →
  (for_range (write_session opts) ssoSessions w).2 = Ok tt
  ∧ wLog (for_range (write_session opts) ssoSessions w).1 = wLog w
  ∧ (∀ name,
       GetSection (wConfig (for_range (write_session opts) ssoSessions w).1)
                  ("sso-session " +:+ name)
       = match last (filter
                       (λ s, normalizeAccountName (Session.SSOSessionName s)
                             = name) ssoSessions) with
         | Some s => Some (session_section s)
         | None => GetSection (wConfig w) ("sso-session " +:+ name)
         end)
  ∧ (∀ other,
       (∀ s, s ∈ ssoSessions → section_key other ≠ session_section_name s) →
       GetSection (wConfig (for_range (write_session opts) ssoSessions w).1)
                  other
       = GetSection (wConfig w) other).
Proof.
  intros Hnp. apply (sessions_loop_flat opts _ _ _ (λ s Hs,
    proj2 (list_elem_of_fmap _ _ _) (ex_intro _ s (conj eq_refl Hs))) Hnp).
Qed.

Lemma sessions_last_one_wins_witness :
  GetSection
    (wConfig (for_range (write_session Examples.session_opts)
                [Examples.company] Examples.start_world).1)
    ("sso-session " +:+ "company")
  = Some (session_section Examples.company).
Proof.
  destruct (sessions_last_one_wins Examples.session_opts [Examples.company]
              Examples.start_world) as (_ & _ & Hlast & _).
  - intros n p Hn Hp. apply elem_of_cons in Hn as [->|Hn];
      [|by apply elem_of_nil in Hn].
    vm_compute in Hp. by apply elem_of_nil in Hp.
  - apply (Hlast "company").
Defined.

(** ** The pass that creates the implicit session *)

(** X13. The pass that creates the implicit session, in session-reference
    mode. If every account profile has a session name, it changes nothing.
    Otherwise it writes one section, named after the caller's session name
    (after the prefix and normalized when there is a prefix), from the first
    profile of the sorted list without a session name: its start URL, the
    scopes of the caller joined by blanks, its SSO region and its marker. Only
    that profile is given the session name; the pass cannot fail and logs
    nothing. *)
Theorem implicit_session_pass
    (opts : MergeOpts) (accountProfiles : list AccountProfile) (w : World) :
  for_range_update (implicit_session opts) ∅ accountProfiles w
  = match find (λ a, bool_decide (SSOSessionName a = "")) accountProfiles with
    | None => (w, Ok (∅, accountProfiles))
    | Some a =>
        (with_config w
           (written (wConfig w)
              ("sso-session " +:+ implicit_session_name opts)
              (implicit_session_entry opts a)),
         Ok ({[ implicit_session_name opts := true ]},
             assign_first (implicit_session_name opts) accountProfiles))
    end.
Proof. apply implicit_pass_spec. Qed.

(** ** More on the loop over the account profiles *)

Section MoreOnTheLoop.
Context {TE : TemplateEngine} {RE : RegexEngine}.

Lemma for_range_with_app {S A} (body : S → A → M S) vars (l1 l2 : list A) w :
  for_range_with body vars (l1 ++ l2) w
  = match for_range_with body vars l1 w with
    | (w1, Ok vars1) => for_range_with body vars1 l2 w1
    | (w1, Err e) => (w1, Err e)
    | (w1, Panicked) => (w1, Panicked)
    end.
Proof.
  revert vars w. induction l1 as [|x l1 IH]; intros vars w; [done|].
  cbn [app for_range_with]. unfold mbind, M_bind.
  destruct (body vars x w) as [w' [vars'| |]]; [apply IH|done|done].
Qed.

(** X14. When the template cannot be executed for a profile, the loop stops
    there with the error of the template: what the earlier profiles wrote
    stays in the document, the profile and those after it are not written. *)
Theorem execute_error_stops_the_loop
    (opts : MergeOpts) (sectionNameTempl : Template) (ssoSessionName : string)
    (vars vars1 : LoopVars) (earlier later : list AccountProfile)
    (a : AccountProfile) (w w1 : World) :
  for_range_with (write_profile opts sectionNameTempl ssoSessionName)
                 vars earlier w = (w1, Ok vars1) →
  template_Execute sectionNameTempl (prepared ssoSessionName a) = None →
  for_range_with (write_profile opts sectionNameTempl ssoSessionName)
                 vars (earlier ++ a :: later) w
  = (w1, Err ErrTemplateExecute).
Proof.
  intros Hearlier Hexec. rewrite for_range_with_app, Hearlier.
  cbn [for_range_with]. unfold mbind, M_bind.
  unfold write_profile. fold (prepared ssoSessionName a). by rewrite Hexec.
Qed.

Lemma omap_length_le {A B} (f : A → option B) (l : list A) :
  length (omap f l) ≤ length l.
Proof.
  induction l as [|x l IH]; [done|]. cbn [omap list_omap].
  destruct (f x); cbn; lia.
Qed.

Lemma fresh_loop opts tmpl ssn T ps vars w :
  (∀ pn, pn ∈ omap (profileName_of opts tmpl ssn) ps →
         "profile " +:+ pn ∈ T) →
  no_parents (wConfig w) T →
  length (omap (profileName_of opts tmpl ssn) ps) = length ps →
  NoDup (seenProfileNames vars ++ omap (profileName_of opts tmpl ssn) ps) →
  ∃ vars',
    for_range_with (write_profile opts tmpl ssn) vars ps w
    = (with_config w
         (filter (λ sec, sec.1 ∉ (String.app "profile ")
                           <$> omap (profileName_of opts tmpl ssn) ps)
                 (wConfig w)
          ++ omap (profile_section opts tmpl ssn) ps),
       Ok vars')
    ∧ seenProfileNames vars'
      = seenProfileNames vars ++ omap (profileName_of opts tmpl ssn) ps.
Proof.
  revert vars w. induction ps as [|a ps IH]; intros vars w HT Hnp Hlen Hnd.
  { exists vars. cbn. rewrite !app_nil_r. split; [|done].
    rewrite filter_all_in by (intros; apply not_elem_of_nil).
    by rewrite with_config_id. }
  cbn [omap list_omap] in *.
  destruct (profileName_of opts tmpl ssn a) as [pn|] eqn:Hpn.
  2:{ exfalso. cbn in Hlen.
      pose proof (omap_length_le (profileName_of opts tmpl ssn) ps)
        as Hle. lia. }
  cbn [length] in Hlen.
  assert ("profile " +:+ pn ∈ T) as HpnT by apply HT, list_elem_of_here.
  assert (profile_section opts tmpl ssn a
          = Some ("profile " +:+ pn,
                  entry_keys (profile_entry opts ssn a pn))) as ->
    by (unfold profile_section; by rewrite Hpn).
  assert ((pn ∉ seenProfileNames vars)
          ∧ (pn ∉ omap (profileName_of opts tmpl ssn) ps)
          ∧ NoDup ((seenProfileNames vars ++ [pn])
                   ++ omap (profileName_of opts tmpl ssn) ps))
    as (Hfresh & Hlater & Hnd').
  { rewrite <- (assoc app). cbn [app]. split; [|split; [|done]].
    - apply NoDup_app in Hnd as (_ & Hdis & _). intros Hin.
      apply (Hdis pn Hin). apply list_elem_of_here.
    - apply NoDup_app in Hnd as (_ & _ & Hnd). by apply NoDup_cons in Hnd as []. }
  cbn [for_range_with]. unfold mbind, M_bind.
  rewrite (write_profile_fresh _ _ _ _ _ _ pn) by done.
  destruct (IH (record_role vars pn (RoleName a))
               (with_config w (written (wConfig w) ("profile " +:+ pn)
                                 (profile_entry opts ssn a pn))))
    as (vars' & Hloop & Hseen).
  - intros pn' Hpn'. by apply HT, list_elem_of_further.
  - cbn [wConfig with_config]. by apply no_parents_written.
  - lia.
  - exact Hnd'.
  - exists vars'. rewrite Hloop. split.
    2:{ rewrite Hseen. cbn [record_role seenProfileNames].
        by rewrite <- (assoc app). }
    cbn [wConfig with_config wLog]. unfold with_config. do 2 f_equal.
    rewrite written_orphan by (done || by eapply no_parents_orphan).
    unfold replaced. rewrite filter_app, <- (assoc app). f_equal.
    + unfold DeleteSection. rewrite profile_section_key, list_filter_filter.
      apply list_filter_iff. intros sec. rewrite fmap_cons, not_elem_of_cons.
      tauto.
    + rewrite filter_cons_True; [done|]. cbn [fst]. intros Hin.
      apply list_elem_of_fmap in Hin as (pn' & Heq & Hin).
      apply profile_section_inj in Heq. by subst.
Qed.

(** X15. When the template is executed for every account profile, no two
    profiles render to the same name, and no profile section has a parent
    section in the document or among the profile sections, the loop and the
    report end normally, log nothing, and leave the document without the
    sections of the rendered names, followed by one section for each profile,
    in the order of processing. So the document grows by one section for
    each profile whose name it did not hold. Preference patterns play no
    part. *)
Theorem distinct_names_one_section_each
    (opts : MergeOpts) (sectionNameTempl : Template) (ssoSessionName : string)
    (accountProfiles : list AccountProfile) (w : World) :
  let names :=
    omap (profileName_of opts sectionNameTempl ssoSessionName)
         accountProfiles in
  length names = length accountProfiles →
  NoDup names →
  no_parents (wConfig w) (String.app "profile " <$> names) →
  (vars ← for_range_with (write_profile opts sectionNameTempl ssoSessionName)
            no_vars accountProfiles;
   report_duplicates vars) w
  = (with_config w
       (filter (λ sec, sec.1 ∉ (String.app "profile ") <$> names) (wConfig w)
        ++ omap (profile_section opts sectionNameTempl ssoSessionName)
                accountProfiles),
     Ok tt).
Proof.
  cbn zeta. intros Hlen Hnd Hnp.
  destruct (fresh_loop opts sectionNameTempl ssoSessionName _ accountProfiles
              no_vars w
              (λ pn Hpn, proj2 (list_elem_of_fmap _ _ _)
                           (ex_intro _ pn (conj eq_refl Hpn)))
              Hnp Hlen Hnd)
    as (vars' & Hloop & Hseen).
  unfold mbind, M_bind. rewrite Hloop. rewrite report_duplicates_spec.
  cbn [seenProfileNames no_vars app] in Hseen.
  rewrite duplicate_names_NoDup by (by rewrite Hseen).
  cbn [wConfig wLog with_config]. by rewrite app_nil_r.
Qed.

Lemma noprefs_last_one_wins opts tmpl ssn T ps vars vars' w w' profileName :
  PreferRoles opts = [] →
  (∀ pn, pn ∈ omap (profileName_of opts tmpl ssn) ps →
         "profile " +:+ pn ∈ T) →
  no_parents (wConfig w) T →
  for_range_with (write_profile opts tmpl ssn) vars ps w = (w', Ok vars') →
  GetSection (wConfig w') ("profile " +:+ profileName)
  = match last (filter (λ a, profileName_of opts tmpl ssn a
                             = Some profileName) ps) with
    | Some a =>
        Some ("profile " +:+ profileName,
              entry_keys (profile_entry opts ssn a profileName))
    | None => GetSection (wConfig w) ("profile " +:+ profileName)
    end.
Proof.
  intros Hp. revert vars w.
  induction ps as [|a ps IH]; intros vars w HT Hnp.
  { by intros [= <- <-]. }
  cbn [for_range_with]. unfold mbind, M_bind.
  rewrite write_profile_noprefs by done.
  cbn [omap list_omap] in HT.
  destruct (profileName_of opts tmpl ssn a) as [pn|] eqn:Hpn; [|done].
  assert ("profile " +:+ pn ∈ T) as HpnT by apply HT, list_elem_of_here.
  intros Hloop.
  assert (∀ pn', pn' ∈ omap (profileName_of opts tmpl ssn) ps →
                 "profile " +:+ pn' ∈ T) as HT'.
  { intros pn' Hpn'. by apply HT, list_elem_of_further. }
  pose proof (no_parents_written (wConfig w) T ("profile " +:+ pn)
                (profile_entry opts ssn a pn) HpnT Hnp) as Hnp'.
  rewrite (IH _ (with_config w (written (wConfig w) ("profile " +:+ pn)
                                  (profile_entry opts ssn a pn)))
              HT' Hnp' Hloop).
  rewrite filter_cons, Hpn. cbn [wConfig with_config].
  rewrite written_orphan by (done || by eapply no_parents_orphan).
  destruct (decide (Some pn = Some profileName)) as [[= ->]|Hne].
  - rewrite last_cons. destruct (last _); [done|].
    by rewrite GetSection_replaced_same.
  - destruct (last _); [done|].
    apply GetSection_replaced_other; [done|]. rewrite profile_section_key.
    intros Heq. apply profile_section_inj in Heq. congruence.
Qed.

(** X16. Without preference patterns the last one wins, when no profile
    section has a parent section in the document or among the profile
    sections. After a loop that ends normally, the section under a profile
    name is the section of the last profile, in the order of processing, that
    rendered to that name; if no profile rendered to it, the section is the
    one the document had. *)
Theorem without_patterns_last_one_wins
    (opts : MergeOpts) (sectionNameTempl : Template) (ssoSessionName : string)
    (accountProfiles : list AccountProfile) (vars vars' : LoopVars)
    (w w' : World) (profileName : string) :
  PreferRoles opts = [] →
  no_parents (wConfig w)
    (String.app "profile "
       <$> omap (profileName_of opts sectionNameTempl ssoSessionName)
                accountProfiles) →
  for_range_with (write_profile opts sectionNameTempl ssoSessionName)
                 vars accountProfiles w = (w', Ok vars') →
  GetSection (wConfig w') ("profile " +:+ profileName)
  = match last (filter
                  (λ a, profileName_of opts sectionNameTempl ssoSessionName a
                        = Some profileName) accountProfiles) with
    | Some a =>
        Some ("profile " +:+ profileName,
              entry_keys (profile_entry opts ssoSessionName a profileName))
    | None => GetSection (wConfig w) ("profile " +:+ profileName)
    end.
Proof.
  intros Hp Hnp Hloop.
  apply (noprefs_last_one_wins opts sectionNameTempl ssoSessionName _
           accountProfiles vars vars' w w' profileName Hp
           (λ pn Hpn, proj2 (list_elem_of_fmap _ _ _)
                        (ex_intro _ pn (conj eq_refl Hpn)))
           Hnp Hloop).
Qed.

End MoreOnTheLoop.

Lemma execute_error_stops_the_loop_witness :
  for_range_with
    (write_profile (Examples.collision []) MoreExamples.no_such_field "")
    no_vars ([] ++ Examples.role_one :: [Examples.role_two])
    Examples.start_world
  = (Examples.start_world, Err ErrTemplateExecute).
Proof.
  apply (execute_error_stops_the_loop (Examples.collision [])
           MoreExamples.no_such_field "" no_vars no_vars []
           [Examples.role_two] Examples.role_one
           Examples.start_world Examples.start_world).
  - reflexivity.
  - reflexivity.
Defined.

Lemma distinct_names_one_section_each_witness :
  (vars ← for_range_with
            (write_profile MoreExamples.two_roles
                           MoreExamples.default_template "")
            no_vars
            [Examples.account "prod" "DevRoleOne" "";
             Examples.account "prod" "DevRoleTwo" ""];
   report_duplicates vars)
    {| wConfig := Config MoreExamples.two_roles; wLog := [] |}
  = (with_config {| wConfig := Config MoreExamples.two_roles; wLog := [] |}
       (filter (λ sec, sec.1 ∉ (String.app "profile ")
                         <$> omap (profileName_of MoreExamples.two_roles
                                     MoreExamples.default_template "")
                                  [Examples.account "prod" "DevRoleOne" "";
                                   Examples.account "prod" "DevRoleTwo" ""])
               (Config MoreExamples.two_roles)
        ++ omap (profile_section MoreExamples.two_roles
                   MoreExamples.default_template "")
                [Examples.account "prod" "DevRoleOne" "";
                 Examples.account "prod" "DevRoleTwo" ""]),
     Ok tt).
Proof.
  apply (distinct_names_one_section_each MoreExamples.two_roles
           MoreExamples.default_template ""
           [Examples.account "prod" "DevRoleOne" "";
            Examples.account "prod" "DevRoleTwo" ""]
           {| wConfig := Config MoreExamples.two_roles; wLog := [] |}).
  - reflexivity.
  - compute_done.
  - intros n p Hn Hp. vm_compute in Hn.
    apply elem_of_cons in Hn as [->|Hn];
      [vm_compute in Hp; by apply elem_of_nil in Hp|].
    apply elem_of_cons in Hn as [->|Hn];
      [vm_compute in Hp; by apply elem_of_nil in Hp|].
    by apply elem_of_nil in Hn.
Defined.

Lemma without_patterns_last_one_wins_witness :
  GetSection
    (wConfig (for_range_with
                (write_profile (Examples.collision [])
                               Examples.account_template "")
                no_vars [Examples.role_one; Examples.role_two]
                Examples.start_world).1)
    ("profile " +:+ "prod")
  = Some ("profile " +:+ "prod",
          entry_keys (profile_entry (Examples.collision []) ""
                                    Examples.role_two "prod")).
Proof.
  apply (without_patterns_last_one_wins (Examples.collision [])
           Examples.account_template ""
           [Examples.role_one; Examples.role_two] no_vars
           (record_role (record_role no_vars "prod" "DevRoleOne")
                        "prod" "DevRoleTwo")
           Examples.start_world
           (for_range_with
              (write_profile (Examples.collision [])
                             Examples.account_template "")
              no_vars [Examples.role_one; Examples.role_two]
              Examples.start_world).1 "prod").
  - reflexivity.
  - intros n p Hn Hp. vm_compute in Hn.
    apply elem_of_cons in Hn as [->|Hn];
      [vm_compute in Hp; by apply elem_of_nil in Hp|].
    apply elem_of_cons in Hn as [->|Hn];
      [vm_compute in Hp; by apply elem_of_nil in Hp|].
    by apply elem_of_nil in Hn.
  - vm_compute. reflexivity.
Defined.

(** ** What every run keeps *)

Lemma target_name_nonempty n : target_name n → n ≠ "".
Proof. by intros [name [-> | ->]]. Qed.

Lemma section_key_idemp n : section_key (section_key n) = section_key n.
Proof. apply section_key_nonempty, section_key_not_empty. Qed.

Lemma wf_names (f g : File) : f.*1 = g.*1 → wf_file f → wf_file g.
Proof. unfold wf_file. by intros ->. Qed.

Lemma written_names_replaced f n e : (written f n e).*1 = (replaced f n e).*1.
Proof. rewrite written_names. unfold replaced. by rewrite fmap_app. Qed.

Lemma wf_written (f : File) n e :
  wf_file f → n ≠ "" → wf_file (written f n e).
Proof.
  intros Hwf Hn. apply (wf_names (replaced f n e)).
  - by rewrite written_names_replaced.
  - by apply wf_replaced.
Qed.

Section Invariants.
Context {TE : TemplateEngine} {RE : RegexEngine}.

(** A property of the document that every write under one of the names [Tp]
    keeps, and that the reading of a role from a section of such a name
    keeps, holds after the writes of a run if it holds before them. *)
Variable Tp : string → Prop.
Variable Q : File → Prop.
Hypothesis Q_written : ∀ f n e, Tp n → Q f → Q (written f n e).
Hypothesis Q_role : ∀ f sec, Tp sec.1 → Q f → Q (after_role_read f sec).

Lemma sessions_loop_inv opts ss w :
  (∀ s, s ∈ ss → Tp (session_section_name s)) →
  Q (wConfig w) → Q (wConfig (for_range (write_session opts) ss w).1).
Proof.
  revert w. induction ss as [|s ss IH]; intros w HT Hq; [done|].
  cbn [for_range]. rewrite bind_run, write_session_spec. apply IH.
  - intros s' Hs'. by apply HT, list_elem_of_further.
  - cbn [wConfig with_config]. apply Q_written; [|done].
    apply HT, list_elem_of_here.
Qed.

Lemma write_profile_inv opts tmpl ssn vars a w :
  (∀ pn, profileName_of opts tmpl ssn a = Some pn → Tp ("profile " +:+ pn)) →
  Q (wConfig w) → Q (wConfig (write_profile opts tmpl ssn vars a w).1).
Proof.
  intros HT Hq.
  destruct (write_profile_cases opts tmpl ssn vars a w)
    as [[_ ->]|[(pn & Hpn & -> & _)|(rendered & Hexec & Hseen & Hp)]].
  - done.
  - cbn [fst wConfig with_config]. apply Q_written; [by apply HT|done].
  - rewrite (write_profile_seen _ _ _ _ _ _ rendered) by done. cbn zeta.
    assert (Tp ("profile " +:+ (Prefix opts +:+ rendered))) as Ht.
    { apply HT. unfold profileName_of. by rewrite Hexec. }
    destruct (GetSection (wConfig w) _) as [sec|] eqn:Hget; [|done].
    assert (Q (after_role_read (wConfig w) sec)) as Hq1.
    { apply Q_role; [|done]. apply GetSection_Some in Hget as [_ ->].
      by rewrite profile_section_key. }
    destruct (preferRoles_loop _ _ _) as [[|]|]; cbn [fst wConfig with_config];
      [|done|done].
    by apply Q_written.
Qed.

Lemma write_loop_inv opts tmpl ssn ps vars w :
  (∀ a pn, a ∈ ps → profileName_of opts tmpl ssn a = Some pn →
           Tp ("profile " +:+ pn)) →
  Q (wConfig w) →
  Q (wConfig (for_range_with (write_profile opts tmpl ssn) vars ps w).1).
Proof.
  revert vars w. induction ps as [|a ps IH]; intros vars w HT Hq; [done|].
  cbn [for_range_with]. rewrite bind_run.
  pose proof (write_profile_inv opts tmpl ssn vars a w
                (λ pn, HT a pn (list_elem_of_here _ _)) Hq) as Hq1.
  destruct (write_profile opts tmpl ssn vars a w) as [w1 [vars1| |]];
    [|done|done].
  apply IH; [|done]. intros a' pn Ha'. apply HT. by apply list_elem_of_further.
Qed.

Lemma assign_first_elem n ps a' :
  a' ∈ assign_first n ps →
  ∃ a, a ∈ ps ∧ (a' = a ∨ a' = set_SSOSessionName a n).
Proof.
  induction ps as [|a ps IH]; cbn [assign_first].
  { intros H. by apply elem_of_nil in H. }
  destruct (decide (SSOSessionName a = "")).
  - intros H. apply elem_of_cons in H as [->|H].
    + exists a. split; [apply list_elem_of_here | by right].
    + exists a'. split; [by apply list_elem_of_further | by left].
  - intros H. apply elem_of_cons in H as [->|H].
    + exists a. split; [apply list_elem_of_here | by left].
    + destruct (IH H) as (a0 & Ha0 & Heq). exists a0.
      split; [by apply list_elem_of_further | done].
Qed.

Lemma profileName_of_session_name opts tmpl ssn a n :
  profileName_of opts tmpl ssn (set_SSOSessionName a n)
  = profileName_of opts tmpl ssn a.
Proof. reflexivity. Qed.

Lemma merge_after_prune_inv opts tmpl ss ps w :
  (∀ s, s ∈ ss → Tp (session_section_name s)) →
  (NoCredentialProcess opts = true →
   Tp ("sso-session " +:+ implicit_session_name opts)) →
  (∀ a pn, a ∈ ps →
           profileName_of opts tmpl (loop_session_name opts) a = Some pn →
           Tp ("profile " +:+ pn)) →
  Q (wConfig w) → Q (wConfig (merge_after_prune opts tmpl ss ps w).1).
Proof.
  intros Hss Himp Hps Hq. unfold merge_after_prune. rewrite bind_run.
  pose proof (sessions_loop_inv opts ss w Hss Hq) as Hq1.
  pose proof (sessions_loop_ok opts ss w) as Hok.
  destruct (for_range (write_session opts) ss w) as [w1 r1].
  cbn [fst snd] in *. subst r1.
  assert (∀ ps' w',
            (∀ a pn, a ∈ ps' →
               profileName_of opts tmpl (loop_session_name opts) a = Some pn →
               Tp ("profile " +:+ pn)) →
            Q (wConfig w') →
            Q (wConfig
                 ((vars ← for_range_with
                            (write_profile opts tmpl (loop_session_name opts))
                            {| seenProfileNames := [];
                               profileNameToRoles := ∅ |} ps';
                   report_duplicates vars) w').1)) as Htail.
  { intros ps' w' Hps' Hq'. rewrite bind_run.
    pose proof (write_loop_inv opts tmpl (loop_session_name opts) ps'
                  {| seenProfileNames := []; profileNameToRoles := ∅ |} w'
                  Hps' Hq') as Hq2.
    destruct (for_range_with _ _ _ _) as [w2 [vars2| |]]; [|done|done].
    by rewrite report_duplicates_spec. }
  rewrite bind_run. unfold loop_session_name in *.
  destruct (NoCredentialProcess opts) eqn:Hncp.
  - rewrite bind_run, implicit_pass_spec.
    destruct (find _ ps) as [a|] eqn:Hfind.
    + unfold mret at 1. unfold M_ret at 1. cbn [snd]. apply Htail.
      * intros a' pn Ha' Hpn.
        apply assign_first_elem in Ha' as (a0 & Ha0 & [->| ->]);
          by apply (Hps a0 pn).
      * cbn [wConfig with_config]. apply Q_written; [by apply Himp|done].
    + unfold mret at 1. unfold M_ret at 1. cbn [snd]. by apply Htail.
  - unfold mret at 1. unfold M_ret at 1. by apply Htail.
Qed.

End Invariants.

Section MergeLevel.
Context {TE : TemplateEngine} {RE : RegexEngine}.

Lemma gets_started_dec opts : gets_started opts ∨ ¬ gets_started opts.
Proof.
  unfold gets_started.
  destruct (separate (Profiles opts) [] []);
    destruct (template_Parse (effective_template opts));
    first [ left; split; by eexists
          | right; intros [[? ?] [? ?]]; congruence ].
Qed.

Lemma Merge_not_started opts :
  ¬ gets_started opts → wConfig (Merge opts).1 = Config opts.
Proof.
  intros Hns. unfold Merge, gets_started, effective_template in *.
  destruct (separate (Profiles opts) [] []) as [[ss aps]|]; [|done].
  cbn zeta. destruct (template_Parse _) as [tmpl|]; [|done].
  exfalso. apply Hns. by split.
Qed.

Lemma DeleteSection_fmap f n :
  (DeleteSection f n).*1 = filter (λ x, x ≠ section_key n) f.*1.
Proof.
  unfold DeleteSection. induction f as [|s f IH]; [done|].
  rewrite fmap_cons, !filter_cons.
  destruct (decide (s.1 ≠ section_key n)); [rewrite fmap_cons|]; by rewrite IH.
Qed.

Lemma names_shape_written P f n e :
  target_name n → names_shape P f → names_shape P (written f n e).
Proof.
  intros Ht (G & Hnd & Hall & Hnames).
  pose proof (target_name_nonempty n Ht) as Hn.
  exists (filter (λ x, x ≠ n) G ++ [n]). split; [|split].
  - apply NoDup_app. split; [by apply NoDup_filter|].
    split; [|apply NoDup_singleton].
    intros x Hx Hx'. apply list_elem_of_singleton in Hx' as ->.
    by apply list_elem_of_filter in Hx as [? _].
  - apply Forall_app. split; [|by constructor].
    apply Forall_forall. intros x Hx.
    apply list_elem_of_filter in Hx as [_ Hx].
    by apply (proj1 (Forall_forall _ _) Hall).
  - rewrite written_names, DeleteSection_fmap, Hnames.
    rewrite section_key_nonempty by done.
    rewrite filter_app, list_filter_filter, <- (assoc app). do 2 f_equal.
    apply list_filter_iff. intros x.
    rewrite elem_of_app, list_elem_of_filter, list_elem_of_singleton.
    destruct (decide (x = n)); tauto.
Qed.

(** X17. A run on a well-formed document leaves a well-formed document. When
    the run gets as far as the pruning pass, the names of the sections of the
    outcome are the names the pruning pass left, without the names the run
    wrote and in their order, followed by the names the run wrote, each once;
    when it does not get that far, the document is as it was. *)
Theorem Merge_keeps_the_rest_in_order (opts : MergeOpts) :
  wf_file (Config opts) →
  wf_file (wConfig (Merge opts).1)
  ∧ (gets_started opts →
     ∃ written_names,
       NoDup written_names ∧ Forall target_name written_names
       ∧ (wConfig (Merge opts).1).*1
         = filter (λ name, name ∉ written_names)
             (wConfig (prune (PruneStartURLs opts)
                         {| wConfig := Config opts; wLog := [] |}).1).*1
           ++ written_names)
  ∧ (¬ gets_started opts → wConfig (Merge opts).1 = Config opts).
Proof.
  intros Hwf. destruct (gets_started_dec opts) as [Hst|Hns].
  2:{ rewrite (Merge_not_started opts Hns). done. }
  split; [|split; [|done]].
  - destruct Hst as [[[ss aps] Hsep] [tmpl Hparse]].
    rewrite (Merge_unfold opts ss aps tmpl Hsep Hparse).
    apply (merge_after_prune_inv target_name wf_file).
    + intros f n e Ht Hf. apply wf_written; [done|].
      by apply target_name_nonempty.
    + intros f sec _. apply wf_names. by rewrite after_role_read_names.
    + intros s _. by exists (normalizeAccountName (Session.SSOSessionName s)); right.
    + intros _. eexists; by right.
    + intros a pn _ _. eexists; by left.
    + by apply wf_pruned_by_name.
  - intros _. destruct Hst as [[[ss aps] Hsep] [tmpl Hparse]].
    rewrite (Merge_unfold opts ss aps tmpl Hsep Hparse).
    rewrite prune_by_name. cbn [fst wConfig with_config].
    apply (merge_after_prune_inv target_name
             (names_shape (pruned_by_name (PruneStartURLs opts)
                             (Config opts)).*1)).
    + intros f n e Ht Hf. by apply names_shape_written.
    + intros f sec _ (G & ? & ? & Hn). exists G.
      by rewrite after_role_read_names.
    + intros s _. by exists (normalizeAccountName (Session.SSOSessionName s)); right.
    + intros _. eexists; by right.
    + intros a pn _ _. eexists; by left.
    + exists []. split; [constructor|]. split; [constructor|].
      rewrite app_nil_r. symmetry. apply filter_all_in.
      intros x _. apply not_elem_of_nil.
Qed.

(** X18. A run with an empty list of profiles, when the template parses, is
    the pruning pass and nothing else: same document, nothing logged, no
    error, in both modes. *)
Theorem Merge_without_profiles (opts : MergeOpts) :
  Profiles opts = [] →
  is_Some (template_Parse (effective_template opts)) →
  Merge opts
  = prune (PruneStartURLs opts) {| wConfig := Config opts; wLog := [] |}.
Proof.
  intros Hp [tmpl Ht].
  rewrite (Merge_unfold opts [] [] tmpl) by (by rewrite ?Hp).
  rewrite prune_by_name. cbn [wConfig wLog with_config].
  unfold merge_after_prune. cbn [SliceStable foldr for_range].
  unfold with_config. cbn [wLog].
  set (w := {| wConfig := _; wLog := [] |}).
  assert (report_duplicates no_vars w = (w, Ok tt)) as Hreport.
  { rewrite report_duplicates_spec.
    rewrite duplicate_names_NoDup by constructor. done. }
  destruct (NoCredentialProcess opts); exact Hreport.
Qed.

Lemma prepared_without_session a :
  SSOSessionName a = "" → prepared "" a = normalized a.
Proof. destruct a. cbn. by intros ->. Qed.

Lemma no_default_region opts a :
  DefaultRegion opts = "" → with_default_region opts a = a.
Proof.
  intros Hd. unfold with_default_region.
  by rewrite decide_False by (intros [_ ?]; done).
Qed.

Lemma earlier_loop opts tmpl ps vars w :
  PreferRoles opts = [] →
  DefaultRegion opts = "" →
  Forall (λ a, SSOSessionName a = "") ps →
  let later :=
    (vars ← for_range_with (write_profile opts tmpl "") vars ps;
     report_duplicates vars) w in
  let earlier :=
    for_range (Earlier.write_profile (earlier_opts opts) tmpl) ps w in
  wConfig later.1 = wConfig earlier.1 ∧ later.2 = earlier.2.
Proof.
  intros Hp Hd Hs. cbn zeta. revert vars w.
  induction Hs as [|a ps Ha Hs IH]; intros vars w.
  { unfold mbind, M_bind. cbn [for_range_with for_range].
    unfold mret, M_ret. by rewrite report_duplicates_spec. }
  cbn [for_range_with for_range]. unfold mbind, M_bind in *.
  rewrite write_profile_noprefs by done.
  unfold Earlier.write_profile, profileName_of.
  rewrite prepared_without_session by done. fold (normalized a).
  destruct (template_Execute tmpl (normalized a)) as [rendered|]; [|done].
  cbn [fmap option_fmap option_map earlier_opts Earlier.Prefix
       Earlier.NoCredentialProcess].
  rewrite write_section_spec by apply profile_section_nonempty.
  unfold profile_entry.
  rewrite no_default_region, prepared_without_session by done.
  apply IH.
Qed.

(** X19. The later [Merge] does what the earlier [Merge] of the file does,
    when it is called as the earlier one could be: in credential-process
    mode, without preference patterns, without a default region, and with
    account profiles that have no session name. Both end with the same
    document and the same result; the later one may log warnings about
    duplicate names, the earlier one logs nothing. *)
Theorem Merge_agrees_with_earlier (opts : MergeOpts) :
  NoCredentialProcess opts = false →
  PreferRoles opts = [] →
  DefaultRegion opts = "" →
  (∀ a, PAccountProfile a ∈ Profiles opts → SSOSessionName a = "") →
  wConfig (Merge opts).1 = wConfig (Earlier.Merge (earlier_opts opts)).1
  ∧ (Merge opts).2 = (Earlier.Merge (earlier_opts opts)).2.
Proof.
  intros Hncp Hp Hd Hs. unfold Merge, Earlier.Merge.
  cbn [earlier_opts Earlier.Config Earlier.Profiles
       Earlier.SectionNameTemplate Earlier.PruneStartURLs].
  fold DefaultSectionNameTemplate.
  pose proof (separate_acc (Profiles opts) [] []) as Hsep.
  destruct (separate (Profiles opts) [] []) as [[ss aps]|]; [|done].
  cbn zeta.
  destruct (template_Parse _) as [tmpl|]; [|done].
  assert (Forall (λ a, SSOSessionName a = "")
                 (SliceStable combinedName_less aps)) as Hsorted.
  { rewrite SliceStable_Permutation. apply Forall_forall. intros a Ha.
    apply Hs. destruct (forallb is_supported (Profiles opts)); [|done].
    injection Hsep as _ ->. cbn [app] in Ha.
    apply list_elem_of_omap in Ha as (p & Hin & Hp').
    destruct p; try done. cbn in Hp'. by injection Hp' as ->. }
  unfold merge_after_prune. rewrite Hncp.
  change (for_range (Earlier.write_session (earlier_opts opts)))
    with (for_range (write_session opts)).
  rewrite !bind_run, prune_by_name, !bind_run.
  destruct (for_range (write_session opts) ss _) as [w2 [[]| |]];
    [|done|done].
  rewrite bind_run. unfold mret at 1 2. unfold M_ret at 1 2.
  by apply earlier_loop.
Qed.

End MergeLevel.

Lemma Merge_keeps_the_rest_in_order_witness :
  wf_file (wConfig (Merge Examples.ok_opts).1).
Proof.
  destruct (Merge_keeps_the_rest_in_order Examples.ok_opts) as [H _].
  - split; compute_done.
  - exact H.
Defined.

Lemma Merge_without_profiles_witness :
  Merge MoreExamples.no_profiles
  = prune ["https://deleteme.example.com"] Examples.prune_world.
Proof.
  apply (Merge_without_profiles MoreExamples.no_profiles).
  - reflexivity.
  - eexists. reflexivity.
Defined.

Lemma Merge_agrees_with_earlier_witness :
  wConfig (Merge MoreExamples.two_roles).1
  = wConfig (Earlier.Merge (earlier_opts MoreExamples.two_roles)).1.
Proof.
  destruct (Merge_agrees_with_earlier MoreExamples.two_roles) as [H _].
  - reflexivity.
  - reflexivity.
  - reflexivity.
  - intros a Ha. cbn in Ha.
    apply elem_of_cons in Ha as [[= ->]|Ha]; [reflexivity|].
    apply elem_of_cons in Ha as [[= ->]|Ha]; [reflexivity|].
    by apply elem_of_nil in Ha.
  - exact H.
Defined.

(** ** Where the sections of the outcome come from *)

Section WhereFrom.
Context {TE : TemplateEngine} {RE : RegexEngine}.

Lemma replaced_elem (f : File) n e sec :
  sec ∈ replaced f n e → sec ∈ f ∨ sec = (n, entry_keys e).
Proof.
  unfold replaced, DeleteSection. rewrite elem_of_app. intros [H|H].
  - left. by apply list_elem_of_filter in H as [_ H].
  - right. apply elem_of_cons in H as [H|H]; [done|]. by apply elem_of_nil in H.
Qed.

Lemma claimed_no_vars opts f : claimed opts no_vars f.
Proof. intros pn Hin. by apply elem_of_nil in Hin. Qed.

Lemma claimed_replaced opts ssn vars (f : File) a pn :
  claimed opts vars f →
  claimed opts vars
    (replaced f ("profile " +:+ pn) (profile_entry opts ssn a pn)).
Proof.
  intros Hc pn' Hin. destruct (decide (pn' = pn)) as [->|Hne].
  - eexists. rewrite GetSection_replaced_same by apply profile_section_nonempty.
    unfold profile_entry. done.
  - destruct (Hc _ Hin) as [a' Ha']. exists a'.
    rewrite GetSection_replaced_other; [done|apply profile_section_nonempty|].
    rewrite profile_section_key. intros Heq. by apply profile_section_inj in Heq.
Qed.

Lemma claimed_record opts ssn vars (f : File) a pn role :
  claimed opts vars f →
  claimed opts (record_role vars pn role)
    (replaced f ("profile " +:+ pn) (profile_entry opts ssn a pn)).
Proof.
  intros Hc pn' Hin. cbn in Hin. apply elem_of_app in Hin as [Hin|Hin].
  - by apply (claimed_replaced opts ssn vars f a pn Hc).
  - apply list_elem_of_singleton in Hin as ->. eexists.
    rewrite GetSection_replaced_same by apply profile_section_nonempty.
    unfold profile_entry. done.
Qed.

(** The section of a name seen, when it has no parent section, holds the
    role of the profile it was written from. *)
Lemma claimed_role opts vars (f : File) pn :
  claimed opts vars f → pn ∈ seenProfileNames vars →
  orphan f ("profile " +:+ pn) →
  ∃ sec a, GetSection f ("profile " +:+ pn) = Some sec
           ∧ section_role f sec = Some (RoleName a).
Proof.
  intros Hc Hin Ho. destruct (Hc _ Hin) as [a Ha].
  eexists _, a. split; [exact Ha|]. unfold section_role, Key.
  rewrite !HasKey_orphan, !GetKey_orphan by exact Ho.
  destruct (NoCredentialProcess opts).
  - destruct (own_key_regular_profile ("profile " +:+ pn) a pn)
      as (_ & _ & _ & Hg & Hr & _). cbn zeta in Hg, Hr. rewrite Hg, Hr. done.
  - destruct (own_key_credential_process ("profile " +:+ pn) a pn)
      as (_ & _ & Hg & _). cbn zeta in Hg. rewrite Hg. done.
Qed.

Lemma write_profile_flat opts tmpl ssn T vars a w :
  claimed opts vars (wConfig w) → no_parents (wConfig w) T →
  (∀ pn, profileName_of opts tmpl ssn a = Some pn → "profile " +:+ pn ∈ T) →
  (∀ sec, sec ∈ wConfig (write_profile opts tmpl ssn vars a w).1 →
          sec ∈ wConfig w ∨ profile_section opts tmpl ssn a = Some sec)
  ∧ no_parents (wConfig (write_profile opts tmpl ssn vars a w).1) T
  ∧ (∀ vars', (write_profile opts tmpl ssn vars a w).2 = Ok vars' →
              claimed opts vars' (wConfig (write_profile opts tmpl ssn vars a w).1)).
Proof.
  intros Hc Hnp HT.
  assert (∀ pn, profileName_of opts tmpl ssn a = Some pn →
            written (wConfig w) ("profile " +:+ pn)
                    (profile_entry opts ssn a pn)
            = replaced (wConfig w) ("profile " +:+ pn)
                       (profile_entry opts ssn a pn)
            ∧ (∀ sec, sec ∈ replaced (wConfig w) ("profile " +:+ pn)
                              (profile_entry opts ssn a pn) →
                 sec ∈ wConfig w ∨ profile_section opts tmpl ssn a = Some sec)
            ∧ no_parents (replaced (wConfig w) ("profile " +:+ pn)
                            (profile_entry opts ssn a pn)) T) as Hw.
  { intros pn Hpn.
    assert (written (wConfig w) ("profile " +:+ pn)
                    (profile_entry opts ssn a pn)
            = replaced (wConfig w) ("profile " +:+ pn)
                       (profile_entry opts ssn a pn)) as Heq.
    { apply written_orphan; [apply profile_section_nonempty|].
      apply (no_parents_orphan _ T); [done|by apply HT]. }
    split; [exact Heq|]. split.
    - intros sec Hsec. apply replaced_elem in Hsec as [?| ->]; [by left|].
      right. unfold profile_section. by rewrite Hpn.
    - rewrite <- Heq. apply no_parents_written; [by apply HT|done]. }
  destruct (write_profile_cases opts tmpl ssn vars a w)
    as [[_ ->]|[(pn & Hpn & -> & _)|(rendered & Hexec & Hseen & Hp)]].
  - cbn [fst snd]. split; [by left|]. split; [done|]. done.
  - cbn [fst snd wConfig with_config].
    destruct (Hw pn Hpn) as (-> & Helem & Hnp'). split; [exact Helem|].
    split; [exact Hnp'|]. intros vars' [= <-]. by apply claimed_record.
  - rewrite (write_profile_seen _ _ _ _ _ _ rendered) by done. cbn zeta.
    assert (profileName_of opts tmpl ssn a = Some (Prefix opts +:+ rendered))
      as Hpn.
    { unfold profileName_of. by rewrite Hexec. }
    destruct (claimed_role opts vars (wConfig w) _ Hc Hseen)
      as (sec & a0 & Hget & Hrole).
    { apply (no_parents_orphan _ T); [done|by apply HT]. }
    rewrite Hget. apply section_role_read in Hrole as [-> ->].
    destruct (preferRoles_loop _ _ _) as [[|]|];
      cbn [fst snd wConfig with_config with_line].
    + destruct (Hw _ Hpn) as (-> & Helem & Hnp'). split; [exact Helem|].
      split; [exact Hnp'|]. intros vars' [= <-]. by apply claimed_replaced.
    + split; [by left|]. split; [done|]. by intros vars' [= <-].
    + split; [by left|]. split; [done|]. done.
Qed.

Lemma write_loop_flat opts tmpl ssn T ps vars w sec :
  claimed opts vars (wConfig w) → no_parents (wConfig w) T →
  (∀ a pn, a ∈ ps → profileName_of opts tmpl ssn a = Some pn →
           "profile " +:+ pn ∈ T) →
  sec ∈ wConfig (for_range_with (write_profile opts tmpl ssn) vars ps w).1 →
  sec ∈ wConfig w ∨ ∃ a, a ∈ ps ∧ profile_section opts tmpl ssn a = Some sec.
Proof.
  revert vars w. induction ps as [|a ps IH]; intros vars w Hc Hnp HT;
    [by left|].
  cbn [for_range_with]. rewrite bind_run.
  destruct (write_profile_flat opts tmpl ssn T vars a w Hc Hnp
              (λ pn, HT a pn (list_elem_of_here _ _)))
    as (Helem & Hnp1 & Hc1).
  destruct (write_profile opts tmpl ssn vars a w) as [w1 r].
  cbn [fst snd] in *.
  assert (sec ∈ wConfig w1 →
          sec ∈ wConfig w
          ∨ ∃ a0, a0 ∈ a :: ps ∧ profile_section opts tmpl ssn a0 = Some sec)
    as Hw1.
  { intros H. destruct (Helem _ H) as [?|?]; [by left|].
    right. exists a. split; [apply list_elem_of_here|done]. }
  destruct r as [vars1| |]; [|exact Hw1|exact Hw1].
  intros H. apply (IH vars1 w1) in H as [H|(a' & Ha' & Hs)].
  - by apply Hw1.
  - right. exists a'. split; [by apply list_elem_of_further|done].
  - by apply Hc1.
  - done.
  - intros a' pn Ha'. apply HT. by apply list_elem_of_further.
Qed.

Lemma sessions_loop_elem opts T ss w :
  (∀ s, s ∈ ss → session_section_name s ∈ T) →
  no_parents (wConfig w) T →
  no_parents (wConfig (for_range (write_session opts) ss w).1) T
  ∧ ∀ sec, sec ∈ wConfig (for_range (write_session opts) ss w).1 →
           sec ∈ wConfig w ∨ ∃ s, s ∈ ss ∧ sec = session_section s.
Proof.
  revert w. induction ss as [|s ss IH]; intros w HT Hnp.
  { split; [done|]. by left. }
  cbn [for_range]. rewrite bind_run, write_session_spec.
  assert (session_section_name s ∈ T) as Hs by apply HT, list_elem_of_here.
  destruct (IH (with_config w (written (wConfig w) (session_section_name s)
                                 (SSOSession_ToIni s "" false))))
    as [Hnp' Helem].
  { intros s' Hs'. by apply HT, list_elem_of_further. }
  { cbn [wConfig with_config]. by apply no_parents_written. }
  split; [exact Hnp'|]. intros sec H.
  apply Helem in H as [H|(s' & Hs' & ->)].
  - cbn [wConfig with_config] in H.
    rewrite written_orphan in H.
    + apply replaced_elem in H as [H| ->]; [by left|].
      right. exists s. split; [apply list_elem_of_here|done].
    + done.
    + by apply (no_parents_orphan _ T).
  - right. exists s'. split; [by apply list_elem_of_further|done].
Qed.

Lemma targets_session opts tmpl s :
  s ∈ omap as_session (Profiles opts) →
  session_section_name s ∈ targets opts tmpl.
Proof.
  intros Hs. unfold targets. apply elem_of_app. left.
  apply list_elem_of_fmap. by exists s.
Qed.

Lemma targets_implicit opts tmpl :
  NoCredentialProcess opts = true →
  "sso-session " +:+ implicit_session_name opts ∈ targets opts tmpl.
Proof.
  intros Hncp. unfold targets. rewrite Hncp.
  apply elem_of_app. right. apply elem_of_app. left. apply list_elem_of_here.
Qed.

Lemma targets_profile opts tmpl a pn :
  a ∈ omap as_account (Profiles opts) →
  profileName_of opts tmpl (loop_session_name opts) a = Some pn →
  "profile " +:+ pn ∈ targets opts tmpl.
Proof.
  intros Ha Hpn. unfold targets. apply elem_of_app. right.
  apply elem_of_app. right. apply list_elem_of_fmap. exists pn.
  split; [done|]. apply list_elem_of_omap. by exists a.
Qed.

(** X20. A run writes nothing of its own, when none of the names it may
    write has a parent section, in the document or among those names: when
    the template parses, every section of the outcome is a section the
    document had, the section of a session of the list, the implicit session
    made from an account profile of the list without a session name
    (session-reference mode only), or the section of an account profile of
    the list under its rendered name. (With a parent section the values of
    the keys the parent holds go to the parent, which then is none of
    these.) *)
Theorem Merge_writes_only_from_the_lists
    (opts : MergeOpts) (sectionNameTempl : Template) (sec : IniSection) :
  template_Parse (effective_template opts) = Some sectionNameTempl →
  no_parents (Config opts) (targets opts sectionNameTempl) →
  sec ∈ wConfig (Merge opts).1 →
  sec ∈ Config opts
  ∨ from_the_lists opts sectionNameTempl
      (omap as_session (Profiles opts)) (omap as_account (Profiles opts)) sec.
Proof.
  intros Hparse Hflat.
  pose proof (separate_acc (Profiles opts) [] []) as Hsep. cbn [app] in Hsep.
  destruct (forallb is_supported (Profiles opts)).
  2:{ unfold Merge. rewrite Hsep. by left. }
  pose proof (targets_session opts sectionNameTempl) as HTs.
  pose proof (targets_implicit opts sectionNameTempl) as HTi.
  pose proof (targets_profile opts sectionNameTempl) as HTp.
  set (T := targets opts sectionNameTempl) in *.
  set (ss := omap as_session _) in *. set (aps := omap as_account _) in *.
  rewrite (Merge_unfold opts ss aps sectionNameTempl Hsep Hparse).
  set (ps := SliceStable combinedName_less aps).
  assert (Hps : ∀ a, a ∈ ps → a ∈ aps).
  { intros a. unfold ps. by rewrite SliceStable_Permutation. }
  set (P := λ x : IniSection,
         x ∈ Config opts ∨ from_the_lists opts sectionNameTempl ss aps x).
  set (w0 := {| wConfig := pruned_by_name (PruneStartURLs opts) (Config opts);
                wLog := [] |}).
  change (sec ∈ wConfig (merge_after_prune opts sectionNameTempl ss ps w0).1
          → P sec).
  assert (no_parents (wConfig w0) T) as Hnp0.
  { apply (no_parents_names (Config opts)); [|done]. intros x Hx. left.
    apply list_elem_of_fmap in Hx as (s & -> & Hs).
    apply list_elem_of_fmap. exists s. split; [done|].
    by apply pruned_by_name_elem in Hs. }
  unfold merge_after_prune. rewrite bind_run.
  destruct (sessions_loop_elem opts T ss w0 HTs Hnp0) as [Hnp1 He].
  pose proof (sessions_loop_ok opts ss w0) as Hok.
  destruct (for_range (write_session opts) ss w0) as [w1 r1].
  cbn [fst snd] in *. subst r1.
  assert (H1 : ∀ x, x ∈ wConfig w1 → P x).
  { intros x Hx. destruct (He x Hx) as [Hin|(s & Hs & ->)].
    - left. by apply pruned_by_name_elem in Hin.
    - right. left. eauto. }
  assert (Htail : ∀ w ps',
            (∀ x, x ∈ wConfig w → P x) →
            no_parents (wConfig w) T →
            (∀ a', a' ∈ ps' →
               ∃ a, a ∈ ps
                    ∧ profile_section opts sectionNameTempl
                        (loop_session_name opts) a'
                      = profile_section opts sectionNameTempl
                          (loop_session_name opts) a) →
            sec ∈ wConfig ((vars ← for_range_with
                                     (write_profile opts sectionNameTempl
                                        (loop_session_name opts)) no_vars ps';
                            report_duplicates vars) w).1 →
            P sec).
  { intros w ps' Hw Hnp Hps' H. rewrite bind_run in H.
    pose proof (write_loop_flat opts sectionNameTempl (loop_session_name opts)
                  T ps' no_vars w sec (claimed_no_vars _ _) Hnp) as Hl.
    destruct (for_range_with _ _ _ _) as [w2 r2]. cbn [fst] in Hl.
    assert (sec ∈ wConfig w2) as Hin.
    { destruct r2 as [vars2| |]; [|done|done].
      by rewrite report_duplicates_spec in H. }
    apply Hl in Hin as [Hin|(a' & Ha' & Hsec)].
    - by apply Hw.
    - destruct (Hps' a' Ha') as (a & Ha & Heq).
      right. right. right. exists a. split; [by apply Hps|]. by rewrite <- Heq.
    - intros a' pn Ha' Hpn. destruct (Hps' a' Ha') as (a & Ha & Heq).
      apply (HTp a); [by apply Hps|].
      unfold profile_section in Heq. rewrite Hpn in Heq.
      destruct (profileName_of opts sectionNameTempl _ a) as [pn'|];
        [|done].
      cbn [fmap option_fmap option_map] in Heq.
      assert ("profile " +:+ pn = "profile " +:+ pn') as Hn by congruence.
      by apply profile_section_inj in Hn as ->. }
  rewrite bind_run. unfold loop_session_name in Htail.
  destruct (NoCredentialProcess opts) eqn:Hncp.
  - rewrite bind_run, implicit_pass_spec.
    destruct (find _ ps) as [a|] eqn:Hfind.
    + apply find_some in Hfind as [Hin Hempty].
      apply list_elem_of_In in Hin. apply bool_decide_eq_true in Hempty.
      unfold mret at 1. unfold M_ret at 1. cbn [snd].
      assert (written (wConfig w1)
                ("sso-session " +:+ implicit_session_name opts)
                (implicit_session_entry opts a)
              = replaced (wConfig w1)
                  ("sso-session " +:+ implicit_session_name opts)
                  (implicit_session_entry opts a)) as Heq.
      { apply written_orphan; [done|].
        apply (no_parents_orphan _ T); [done|by apply HTi]. }
      apply Htail.
      * intros x Hx. cbn [wConfig with_config] in Hx. rewrite Heq in Hx.
        apply replaced_elem in Hx as [Hx| ->]; [by apply H1|].
        right. right. left. split; [done|].
        exists a. split; [by apply Hps|]. done.
      * cbn [wConfig with_config]. apply no_parents_written; [|done].
        by apply HTi.
      * intros a' Ha'.
        apply assign_first_elem in Ha' as (a0 & Ha0 & [->| ->]);
          exists a0; done.
    + unfold mret at 1. unfold M_ret at 1. cbn [snd].
      apply Htail; [done|done|]. intros a' Ha'. by exists a'.
  - unfold mret at 1. unfold M_ret at 1.
    apply Htail; [done|done|]. intros a' Ha'. by exists a'.
Qed.

End WhereFrom.

Lemma Merge_writes_only_from_the_lists_witness :
  ("profile prod/DevRole",
   entry_keys (AccountProfile_ToIni (Examples.account "prod" "DevRole" "")
                                    "prod/DevRole" false))
    ∈ Config Examples.ok_opts
  ∨ from_the_lists Examples.ok_opts MoreExamples.default_template
      (omap as_session (Profiles Examples.ok_opts))
      (omap as_account (Profiles Examples.ok_opts))
      ("profile prod/DevRole",
       entry_keys (AccountProfile_ToIni (Examples.account "prod" "DevRole" "")
                                        "prod/DevRole" false)).
Proof.
  apply (Merge_writes_only_from_the_lists Examples.ok_opts
           MoreExamples.default_template).
  - reflexivity.
  - intros n p Hn Hp. vm_compute in Hn.
    apply elem_of_cons in Hn as [->|Hn]; [|by apply elem_of_nil in Hn].
    vm_compute in Hp. by apply elem_of_nil in Hp.
  - compute_done.
Defined.

(** ** The sections of the user that a run keeps *)

Lemma set_value_other f holder k v x :
  x ∈ f → x.1 ≠ section_key holder → x ∈ set_value f holder k v.
Proof.
  intros Hin Hne. unfold set_value.
  destruct (GetSection f holder) as [sec|] eqn:Hget; [|done].
  apply GetSection_Some in Hget as [_ Hname].
  apply SetSection_other; [done|]. cbn [fst]. by rewrite Hname.
Qed.

Lemma reflect_field_in_other n f fld x :
  x ∈ f → x.1 ≠ section_key n →
  (∀ p, p ∈ parents n → section_key p ≠ x.1) →
  x ∈ reflect_field_in n f fld.
Proof.
  intros Hin Hne Hpar. unfold reflect_field_in.
  destruct (_ && _); [done|].
  destruct (GetSection f n) as [sec|] eqn:Hget; [|done].
  apply GetSection_Some in Hget as [_ Hname].
  destruct (GetKey f sec (f_key fld)) as [[h v]|] eqn:Hk.
  - apply set_value_other; [done|]. unfold GetKey in Hk.
    destruct (own_key sec (f_key fld)).
    + injection Hk as <- _. unfold Name. rewrite Hname.
      by rewrite section_key_idemp.
    + apply GetKey_in_Some in Hk as (p & s & Hp & Hs & <- & _).
      apply GetSection_Some in Hs as [_ ->]. rewrite section_key_idemp.
      intros Heq. apply (Hpar p); [|done].
      unfold Name in Hp. by rewrite Hname, parents_section_key in Hp.
  - apply SetSection_other; [done|]. cbn [fst]. by rewrite Hname.
Qed.

Lemma ReflectFrom_other n f e x :
  x ∈ f → x.1 ≠ section_key n →
  (∀ p, p ∈ parents n → section_key p ≠ x.1) →
  x ∈ ReflectFrom f n e.
Proof.
  intros Hin Hne Hpar. unfold ReflectFrom. revert f Hin.
  induction (ini_fields e) as [|fld l IH]; intros f Hin; [done|].
  cbn [foldl]. apply IH. by apply reflect_field_in_other.
Qed.

(** Writing a section leaves every other section as it was, except the
    parents of the section written. *)
Lemma written_other f n e x :
  x ∈ f → n ≠ "" → x.1 ≠ n →
  (∀ p, p ∈ parents n → section_key p ≠ x.1) →
  x ∈ written f n e.
Proof.
  intros Hin Hn Hne Hpar. unfold written.
  apply ReflectFrom_other; [|by rewrite section_key_nonempty|done].
  apply elem_of_app. left. apply DeleteSection_elem.
  split; [done|]. by rewrite section_key_nonempty.
Qed.

Lemma after_role_read_other f sec x :
  x ∈ f → x.1 ≠ sec.1 → x ∈ after_role_read f sec.
Proof.
  intros Hin Hne. unfold after_role_read, Key.
  destruct (HasKey f sec "granted_sso_role_name"); [done|].
  destruct (GetKey f sec "sso_role_name") as [[? ?]|]; [done|].
  by apply SetSection_other.
Qed.

(** The pruning pass keeps a section that neither holds the marker nor finds
    it in a parent. *)
Lemma prune_keeps_unmarked urls (f : File) sec :
  wf_file f → sec ∈ f →
  own_key sec "common_fate_generated_from" = None →
  (∀ p s, p ∈ parents sec.1 → GetSection f p = Some s →
          own_key s "common_fate_generated_from" = None) →
  sec ∈ pruned_by_name urls f.
Proof.
  intros Hwf Hin Hown Hpar.
  destruct (decide (sec ∈ pruned_by_name urls f)) as [|Hout]; [done|].
  exfalso.
  pose proof (prune_out_iff urls {| wConfig := f; wLog := [] |} sec False
                Hwf Hin) as Hiff.
  rewrite prune_by_name in Hiff. cbn [fst wConfig with_config] in Hiff.
  assert (∀ g : File, g `sublist_of` f →
            should_prune urls g sec = bool_decide False) as Hall;
    [|destruct (Hiff Hall) as [H1 _]; by apply H1].
  intros g Hg. rewrite bool_decide_eq_false_2 by tauto.
  unfold should_prune, HasKey, GetKey. rewrite Hown.
  assert (GetKey_in g (parents (Name sec)) "common_fate_generated_from"
          = None) as ->; [|done].
  apply GetKey_in_None. intros p s Hp Hs. apply (Hpar p s Hp).
  apply GetSection_Some in Hs as [Hs Hname].
  apply GetSection_elem; [apply Hwf| |done].
  eapply elem_of_sublist; [exact Hs|exact Hg].
Qed.

Section Survival.
Context {TE : TemplateEngine} {RE : RegexEngine}.

Lemma targets_target_name opts tmpl n :
  n ∈ targets opts tmpl → target_name n.
Proof.
  unfold targets. rewrite !elem_of_app. intros [H|[H|H]].
  - apply list_elem_of_fmap in H as (s & -> & _). eexists. by right.
  - destruct (NoCredentialProcess opts); [|by apply elem_of_nil in H].
    apply list_elem_of_singleton in H as ->. eexists. by right.
  - apply list_elem_of_fmap in H as (pn & -> & _). eexists. by left.
Qed.

(** X21. A section of the user survives a run as it is: a section of a
    well-formed document that does not hold the marker, and whose parent
    sections in the document do not hold it either, is in the document after
    the run, with the keys it had, when its name is neither a name the run
    may write nor the name of a parent of such a name. *)
Theorem section_of_the_user_survives
    (opts : MergeOpts) (sectionNameTempl : Template) (sec : IniSection) :
  template_Parse (effective_template opts) = Some sectionNameTempl →
  wf_file (Config opts) →
  sec ∈ Config opts →
  own_key sec "common_fate_generated_from" = None →
  (∀ p s, p ∈ parents sec.1 → GetSection (Config opts) p = Some s →
          own_key s "common_fate_generated_from" = None) →
  sec.1 ∉ targets opts sectionNameTempl →
  (∀ n p, n ∈ targets opts sectionNameTempl → p ∈ parents n →
          section_key p ≠ sec.1) →
  sec ∈ wConfig (Merge opts).1.
Proof.
  intros Hparse Hwf Hin Hown Hpar Hnot Hnp.
  pose proof (separate_acc (Profiles opts) [] []) as Hsep. cbn [app] in Hsep.
  destruct (forallb is_supported (Profiles opts)).
  2:{ unfold Merge. by rewrite Hsep. }
  rewrite (Merge_unfold opts _ _ sectionNameTempl Hsep Hparse).
  apply (merge_after_prune_inv (λ n, n ∈ targets opts sectionNameTempl)
           (λ f, sec ∈ f)).
  - intros f n e Hn Hf. apply written_other; [done| | |intros p; by apply Hnp].
    + by apply target_name_nonempty, (targets_target_name opts sectionNameTempl).
    + by intros <-.
  - intros f sec' Hn Hf. apply after_role_read_other; [done|].
    intros Heq. apply Hnot. by rewrite Heq.
  - apply targets_session.
  - apply targets_implicit.
  - intros a pn Ha. apply targets_profile.
    by rewrite SliceStable_Permutation in Ha.
  - cbn [wConfig]. by apply prune_keeps_unmarked.
Qed.

(** ** How a collision is decided *)

(** X22. What the loop does for a profile whose rendered name was seen
    before, when preference patterns are given and the section under that
    name lets a role be read (from [granted_sso_role_name], else from
    [sso_role_name], in the section or a parent). When every pattern up to
    the first that matches exactly one of the two roles compiles, that
    pattern decides: the section is written again when it matches the role of
    the profile at hand, and the profile is skipped with a line in the log
    when it matches the role read; when no pattern tells the two roles apart
    the section is written again. When a pattern that does not compile comes
    before any pattern that tells the roles apart, the run panics. *)
Theorem collision_decided_by_the_role_read
    (opts : MergeOpts) (sectionNameTempl : Template) (ssoSessionName : string)
    (vars : LoopVars) (a : AccountProfile) (w : World)
    (rendered : string) (sec : IniSection) (existing : string) :
  template_Execute sectionNameTempl (prepared ssoSessionName a)
    = Some rendered →
  Prefix opts +:+ rendered ∈ seenProfileNames vars →
  PreferRoles opts ≠ [] →
  GetSection (wConfig w) ("profile " +:+ (Prefix opts +:+ rendered))
    = Some sec →
  section_role (wConfig w) sec = Some existing →
  let profileName := Prefix opts +:+ rendered in
  let overwritten :=
    (with_config w
       (written (wConfig w) ("profile " +:+ profileName)
          (profile_entry opts ssoSessionName a profileName)), Ok vars) in
  (Forall compiles (consulted (PreferRoles opts) (RoleName a) existing) →
   write_profile opts sectionNameTempl ssoSessionName vars a w
   = match first_distinguishing (PreferRoles opts) (RoleName a) existing with
     | Some pattern =>
         if matches pattern (RoleName a) then overwritten
         else (with_line w INFO (skip_message profileName), Ok vars)
     | None => overwritten
     end)
  ∧ (∀ good bad rest,
       PreferRoles opts = good ++ bad :: rest →
       Forall compiles good →
       first_distinguishing good (RoleName a) existing = None →
       regexp2_Compile bad = None →
       write_profile opts sectionNameTempl ssoSessionName vars a w
       = (w, Panicked)).
Proof.
  intros Hexec Hseen Hp Hget Hrole. cbn zeta.
  rewrite (write_profile_seen _ _ _ _ _ _ rendered) by done. cbn zeta.
  rewrite Hget. apply section_role_read in Hrole as [-> ->].
  rewrite with_config_id. split.
  - intros Hc. rewrite preferRoles_loop_spec by done.
    destruct (first_distinguishing _ _ _) as [pattern|]; [|done].
    by destruct (matches pattern (RoleName a)).
  - intros good bad rest -> Hgood Hnone Hbad.
    by rewrite (preferRoles_loop_panic good bad rest).
Qed.

End Survival.

Lemma section_of_the_user_survives_witness :
  ("profile example", [("test", "1")]) ∈ wConfig (Merge Examples.ok_opts).1.
Proof.
  apply (section_of_the_user_survives Examples.ok_opts
           MoreExamples.default_template).
  - reflexivity.
  - split; compute_done.
  - compute_done.
  - reflexivity.
  - intros p s Hp. vm_compute in Hp. by apply elem_of_nil in Hp.
  - compute_done.
  - intros n p Hn Hp. vm_compute in Hn.
    apply elem_of_cons in Hn as [->|Hn]; [|by apply elem_of_nil in Hn].
    vm_compute in Hp. by apply elem_of_nil in Hp.
Defined.

Lemma collision_decided_by_the_role_read_witness :
  write_profile (Examples.collision ["DevRoleOne"]) Examples.account_template
    "" Examples.seen_role_one Examples.role_two Examples.after_role_one
  = (with_line Examples.after_role_one INFO (skip_message "prod"),
     Ok Examples.seen_role_one).
Proof.
  destruct (collision_decided_by_the_role_read
              (Examples.collision ["DevRoleOne"]) Examples.account_template
              "" Examples.seen_role_one Examples.role_two
              Examples.after_role_one "prod"
              ("profile prod",
               entry_keys (profile_entry (Examples.collision []) ""
                             Examples.role_one "prod"))
              "DevRoleOne") as [H _].
  - reflexivity.
  - compute_done.
  - done.
  - reflexivity.
  - reflexivity.
  - exact (H ltac:(repeat constructor; eexists; reflexivity)).
Defined.

(** ** Values that go to a parent section *)

Lemma own_key_set_key_eq n keys k v :
  own_key (n, set_key keys k v) k = Some v.
Proof.
  unfold own_key. cbn [snd]. induction keys as [|kv keys IH]; simpl.
  - by rewrite bool_decide_eq_true_2.
  - destruct (decide (kv.1 = k)) as [Heq|Hne]; simpl.
    + by rewrite bool_decide_eq_true_2.
    + by rewrite bool_decide_eq_false_2.
Qed.

Lemma own_key_set_key_ne n keys k k' v :
  k' ≠ k → own_key (n, set_key keys k' v) k = own_key (n, keys) k.
Proof.
  intros Hne. unfold own_key. cbn [snd].
  induction keys as [|kv keys IH]; simpl.
  - by rewrite bool_decide_eq_false_2.
  - destruct (decide (kv.1 = k')) as [Heq|Hne']; simpl.
    + rewrite !bool_decide_eq_false_2 by congruence. done.
    + case_bool_decide; [done|exact IH].
Qed.

Lemma own_key_app_ne n keys k k' v :
  k' ≠ k → own_key (n, keys ++ [(k', v)]) k = own_key (n, keys) k.
Proof.
  intros Hne. unfold own_key. cbn [snd].
  induction keys as [|kv keys IH]; simpl.
  - by rewrite bool_decide_eq_false_2.
  - case_bool_decide; [done|exact IH].
Qed.

Lemma GetSection_section_key f m :
  GetSection f (section_key m) = GetSection f m.
Proof. unfold GetSection. by rewrite section_key_idemp. Qed.

(** A change of the keys of one section that leaves a key as it was leaves
    that key as it was in every section. *)
Lemma SetSection_keeps_key f h S keys' k m X :
  GetSection f h = Some S →
  own_key (S.1, keys') k = own_key S k →
  GetSection f m = Some X →
  ∃ X', GetSection (SetSection f (S.1, keys')) m = Some X'
        ∧ own_key X' k = own_key X k.
Proof.
  intros HS Hk HX.
  destruct (decide (section_key m = S.1)) as [Heq|Hne].
  - assert (X = S) as ->.
    { apply GetSection_Some in HS as HS'. destruct HS' as [_ Hname].
      unfold GetSection in HS, HX. rewrite Heq in HX. rewrite <- Hname in HS.
      congruence. }
    exists (S.1, keys'). split; [|done].
    by apply (GetSection_SetSection_eq _ _ S).
  - exists X. split; [|done]. by rewrite GetSection_SetSection_ne.
Qed.

(** A field leaves the keys of other names as they were, in every
    section. *)
Lemma reflect_field_in_keeps_key n f fld k m X :
  f_key fld ≠ k →
  GetSection f m = Some X →
  ∃ X', GetSection (reflect_field_in n f fld) m = Some X'
        ∧ own_key X' k = own_key X k.
Proof.
  intros Hne HX. unfold reflect_field_in.
  destruct (_ && _); [by exists X|].
  destruct (GetSection f n) as [sec|] eqn:Hget; [|by exists X].
  destruct (GetKey f sec (f_key fld)) as [[h v]|].
  - unfold set_value.
    destruct (GetSection f h) as [S|] eqn:HS; [|by exists X].
    apply (SetSection_keeps_key f h S); [done| |done].
    destruct S as [Sn Sk]. by apply own_key_set_key_ne.
  - apply (SetSection_keeps_key f n sec); [done| |done].
    destruct sec as [sn sk]. by apply own_key_app_ne.
Qed.

Lemma reflect_fields_keep_key n l f k m X :
  Forall (λ fld, f_key fld ≠ k) l →
  GetSection f m = Some X →
  ∃ X', GetSection (foldl (reflect_field_in n) f l) m = Some X'
        ∧ own_key X' k = own_key X k.
Proof.
  intros Hl. revert f X. induction Hl as [|fld l Hfld Hl IH]; intros f X HX.
  { by exists X. }
  cbn [foldl].
  destruct (reflect_field_in_keeps_key n f fld k m X Hfld HX)
    as (X1 & HX1 & Hk1).
  destruct (IH _ X1 HX1) as (X2 & HX2 & Hk2).
  exists X2. split; [done|]. by rewrite Hk2.
Qed.

(** The field of a key that the nearest parent section holds: the value goes
    to the parent, and the section gets no key. *)
Lemma reflect_field_in_through n p f fld N P old :
  n ≠ "" →
  cut_at_last_delimiter n = Some p →
  (f_omitempty fld && bool_decide (f_value fld = "")) = false →
  GetSection f n = Some N → own_key N (f_key fld) = None →
  GetSection f p = Some P → own_key P (f_key fld) = Some old →
  ∃ N' P',
    GetSection (reflect_field_in n f fld) n = Some N'
    ∧ own_key N' (f_key fld) = None
    ∧ GetSection (reflect_field_in n f fld) p = Some P'
    ∧ own_key P' (f_key fld) = Some (f_value fld).
Proof.
  intros Hn Hcut Homit HN HNk HP HPk. unfold reflect_field_in.
  rewrite Homit, HN.
  pose proof (GetSection_Some _ _ _ HN) as [_ HNname].
  pose proof (GetSection_Some _ _ _ HP) as [_ HPname].
  rewrite section_key_nonempty in HNname by done.
  assert (GetKey f N (f_key fld) = Some (P.1, old)) as ->.
  { unfold GetKey. rewrite HNk. unfold Name. rewrite HNname, parents_unfold, Hcut.
    cbn [GetKey_in]. by rewrite HP, HPk. }
  unfold set_value. rewrite HPname, GetSection_section_key, HP.
  assert (section_key p ≠ n) as Hpn.
  { pose proof (parents_not_self n p) as Hself.
    rewrite parents_unfold, Hcut, (section_key_nonempty n) in Hself by done.
    apply Hself, list_elem_of_here. }
  exists N, (P.1, set_key P.2 (f_key fld) (f_value fld)).
  split; [|split; [done|split]].
  - rewrite GetSection_SetSection_ne; [done|]. cbn [fst].
    rewrite section_key_nonempty by done. congruence.
  - by apply (GetSection_SetSection_eq _ _ P).
  - apply own_key_set_key_eq.
Qed.

Lemma ini_fields_NoDup e : NoDup (f_key <$> ini_fields e).
Proof.
  destruct e; cbn [ini_fields fmap list_fmap f_key];
    repeat (apply NoDup_cons; split;
            [rewrite ?not_elem_of_cons; repeat split;
             first [done | apply not_elem_of_nil]|]);
    apply NoDup_nil_2.
Qed.

Lemma NoDup_fmap_split {A} (g : A → string) (l : list A) x :
  NoDup (g <$> l) → x ∈ l →
  ∃ l1 l2, l = l1 ++ x :: l2
           ∧ Forall (λ y, g y ≠ g x) l1 ∧ Forall (λ y, g y ≠ g x) l2.
Proof.
  intros Hnd Hin. apply list_elem_of_split in Hin as (l1 & l2 & ->).
  exists l1, l2. split; [done|].
  rewrite fmap_app, fmap_cons in Hnd.
  apply NoDup_app in Hnd as (_ & Hdisj & Hnd2).
  apply NoDup_cons in Hnd2 as [Hnot _].
  split; apply Forall_forall; intros y Hy Heq.
  - apply (Hdisj (g y)); [by apply list_elem_of_fmap_2|].
    rewrite Heq. apply list_elem_of_here.
  - apply Hnot. rewrite <- Heq. by apply list_elem_of_fmap_2.
Qed.

(** X23. Writing a section whose nearest parent section holds one of the
    keys of the entry: the value of that key goes to the parent section, and
    the section written does not get the key. ([written f n e] is the
    document after [DeleteSection], [NewSection] and [ReflectFrom] under the
    name [n], as [write_section] does them; the nearest parent is the
    section under the name cut at its last dot.) *)
Theorem value_written_to_the_parent
    (f : File) (sectionName parentName : string) (entry : IniEntry)
    (parent : IniSection) (fld : IniField) (old : string) :
  sectionName ≠ "" →
  cut_at_last_delimiter sectionName = Some parentName →
  GetSection f parentName = Some parent →
  own_key parent (f_key fld) = Some old →
  fld ∈ ini_fields entry →
  (f_omitempty fld && bool_decide (f_value fld = "")) = false →
  (∀ w, write_section sectionName entry w
        = (with_config w (written (wConfig w) sectionName entry), Ok tt))
  ∧ ∃ sec' parent',
      GetSection (written f sectionName entry) sectionName = Some sec'
      ∧ own_key sec' (f_key fld) = None
      ∧ GetSection (written f sectionName entry) parentName = Some parent'
      ∧ own_key parent' (f_key fld) = Some (f_value fld).
Proof.
  intros Hn Hcut HP HPk Hin Homit.
  split; [intros w; by apply write_section_spec|].
  destruct (NoDup_fmap_split f_key (ini_fields entry) fld
              (ini_fields_NoDup entry) Hin) as (l1 & l2 & Hl & H1 & H2).
  unfold written, ReflectFrom. rewrite Hl, foldl_app. cbn [foldl].
  set (f0 := DeleteSection f sectionName ++ [(sectionName, [])]).
  assert (section_key parentName ≠ sectionName) as Hpn.
  { pose proof (parents_not_self sectionName parentName) as Hself.
    rewrite parents_unfold, Hcut, (section_key_nonempty sectionName) in Hself
      by done.
    apply Hself, list_elem_of_here. }
  assert (GetSection f0 sectionName = Some (sectionName, [])) as HN0.
  { unfold f0. rewrite GetSection_app_r.
    - unfold GetSection. cbn [find fst].
      by rewrite bool_decide_eq_true_2 by (by rewrite section_key_nonempty).
    - rewrite section_key_nonempty by done.
      rewrite <- (section_key_nonempty sectionName) at 1 by done.
      apply DeleteSection_names. }
  assert (GetSection f0 parentName = Some parent) as HP0.
  { unfold f0. apply GetSection_app_l.
    rewrite GetSection_DeleteSection_ne; [done|].
    by rewrite (section_key_nonempty sectionName). }
  destruct (reflect_fields_keep_key sectionName l1 f0 (f_key fld)
              sectionName _ H1 HN0) as (N1 & HN1 & HNk1).
  destruct (reflect_fields_keep_key sectionName l1 f0 (f_key fld)
              parentName _ H1 HP0) as (P1 & HP1 & HPk1).
  set (f1 := foldl (reflect_field_in sectionName) f0 l1) in *.
  destruct (reflect_field_in_through sectionName parentName f1 fld N1 P1 old)
    as (N2 & P2 & HN2 & HNk2 & HP2 & HPk2); try done.
  { by rewrite HPk1. }
  set (f2 := reflect_field_in sectionName f1 fld) in *.
  destruct (reflect_fields_keep_key sectionName l2 f2 (f_key fld)
              sectionName _ H2 HN2) as (N3 & HN3 & HNk3).
  destruct (reflect_fields_keep_key sectionName l2 f2 (f_key fld)
              parentName _ H2 HP2) as (P3 & HP3 & HPk3).
  exists N3, P3. split; [done|]. split; [by rewrite HNk3|].
  split; [done|]. by rewrite HPk3.
Qed.

Lemma value_written_to_the_parent_witness :
  ∃ sec' parent',
    GetSection (written [("profile team", [("region", "us-east-1")])]
                  "profile team.dev"
                  (regularProfile "company" "123456789012" "aws-sso"
                                  "DevRole" "eu-west-1"))
               "profile team.dev" = Some sec'
    ∧ own_key sec' "region" = None
    ∧ GetSection (written [("profile team", [("region", "us-east-1")])]
                    "profile team.dev"
                    (regularProfile "company" "123456789012" "aws-sso"
                                    "DevRole" "eu-west-1"))
                 "profile team" = Some parent'
    ∧ own_key parent' "region" = Some "eu-west-1".
Proof.
  destruct (value_written_to_the_parent
              [("profile team", [("region", "us-east-1")])]
              "profile team.dev" "profile team"
              (regularProfile "company" "123456789012" "aws-sso"
                              "DevRole" "eu-west-1")
              ("profile team", [("region", "us-east-1")])
              {| f_key := "region"; f_omitempty := true;
                 f_value := "eu-west-1" |} "us-east-1") as [_ H].
  - done.
  - reflexivity.
  - reflexivity.
  - reflexivity.
  - cbn [ini_fields]. do 4 apply list_elem_of_further. apply list_elem_of_here.
  - reflexivity.
  - exact H.
Defined.

(** ** A second run, when no name has a parent section *)











Section TwoRuns.
Context {TE : TemplateEngine} {RE : RegexEngine}.










End TwoRuns.

